(** * Rebaseline server: reconciling actual and expected GM results

    A shallow embedding of [gm/rebaseline_server/compare_to_expectations.py]
    (class [Results]) together with the properties its specification states.

    The Python code works on JSON documents (nested dictionaries and lists),
    raises and catches exceptions, logs, and reads and writes files.  The
    embedding keeps all of that explicit:
    - JSON documents are values of [pyval], dictionaries are [gmap]s;
    - a computation that may raise has type [exn + A];
    - the log and the file system are threaded as explicit state. *)

From Stdlib Require Import ZArith Ascii.
From stdpp Require Import gmap strings list fin_maps sorting pretty.

Set Warnings "-register-all".

(** ** Python values and exceptions *)

Inductive pyval : Type :=
  | PNone
  | PBool (b : bool)
  | PInt (n : Z)
  | PStr (s : string)
  | PList (l : list pyval)
  | PDict (d : gmap string pyval).

Inductive exn : Type :=
  | KeyError
  | TypeError
  | IndexError
  | AttributeError
  | IOError
  | ValueError
  | Exception.

#[global] Instance exn_eq_dec : EqDecision exn.
Proof. solve_decision. Defined.

#[global] Instance exn_bind : MBind (sum exn) :=
  λ A B f m, match m with inl e => inl e | inr a => f a end.
#[global] Instance exn_ret : MRet (sum exn) := λ A a, inr a.

Definition raise {A} (e : exn) : exn + A := inl e.

(** The computation returns, it does not raise. *)
Definition returns {A} (m : exn + A) : Prop := ∃ a, m = inr a.

(** [for x in xs: body], where [body] updates the loop state or raises. *)
Fixpoint for_each {A S} (body : A → S → exn + S) (xs : list A) (s : S)
  : exn + S :=
  match xs with
  | [] => inr s
  | x :: xs' => s' ← body x s; for_each body xs' s'
  end.

(** Python truth value, as tested by [if not v]. *)
Definition truthy (v : pyval) : bool :=
  match v with
  | PNone => false
  | PBool b => b
  | PInt n => negb (n =? 0)%Z
  | PStr s => negb (String.eqb s "")
  | PList l => match l with [] => false | _ => true end
  | PDict d => negb (bool_decide (size d = 0%nat))
  end.

(** [v[k]] for a string key [k]. *)
Definition getitem (v : pyval) (k : string) : exn + pyval :=
  match v with
  | PDict d => match d !! k with Some x => inr x | None => raise KeyError end
  | _ => raise TypeError
  end.

(** [v[i]] for a literal integer index [i] (the source only uses 0 and 1). *)
Definition getindex (v : pyval) (i : nat) : exn + pyval :=
  match v with
  | PList l => match l !! i with Some x => inr x | None => raise IndexError end
  | PStr s =>
      match String.get i s with
      | Some c => inr (PStr (String c ""))
      | None => raise IndexError
      end
  | PDict _ => raise KeyError
  | _ => raise TypeError
  end.

(** [d[k]] where [d] is a dictionary and [k] an arbitrary value: values that
    are not strings are never keys of a JSON dictionary, lists and
    dictionaries are not hashable. *)
Definition dict_getitem (d : gmap string pyval) (k : pyval) : exn + pyval :=
  match k with
  | PStr s => match d !! s with Some x => inr x | None => raise KeyError end
  | PList _ | PDict _ => raise TypeError
  | _ => raise KeyError
  end.

(** The key under which a later [d[k] = x] stores, for a [k] that
    [dict_getitem] found. *)
Definition key_of (k : pyval) : string :=
  match k with PStr s => s | _ => "" end.

(** [v[k] = x] for a string key [k]. *)
Definition setitem (v : pyval) (k : string) (x : pyval) : exn + pyval :=
  match v with
  | PDict d => inr (PDict (<[k := x]> d))
  | _ => raise TypeError
  end.

(** [v.get(k)]. *)
Definition dict_get (v : pyval) (k : string) : exn + pyval :=
  match v with
  | PDict d => inr (default PNone (d !! k))
  | _ => raise AttributeError
  end.

(** Order of Python strings, and [sorted]. *)
Definition str_le (a b : string) : Prop := String.leb a b = true.
#[global] Instance str_le_dec : RelDecision str_le.
Proof. intros a b. unfold str_le. solve_decision. Defined.

Definition sorted (l : list string) : list string := merge_sort str_le l.

(** [d.keys()]. *)
Definition keys (d : gmap string pyval) : list string := (map_to_list d).*1.

Definition dict_keys (v : pyval) : exn + list string :=
  match v with
  | PDict d => inr (keys d)
  | _ => raise AttributeError
  end.

(** [sub in s] and [s.endswith(suffix)] on strings. *)
Fixpoint str_in (sub s : string) : bool :=
  String.prefix sub s ||
  match s with
  | EmptyString => false
  | String _ s' => str_in sub s'
  end.

Fixpoint endswith (s suffix : string) : bool :=
  String.eqb s suffix ||
  match s with
  | EmptyString => false
  | String _ s' => endswith s' suffix
  end.

(** ** The file system

    [os.walk(root)] lists the directories below [root] with the names of the
    files of each; a file is named by its directory path and its file name
    ([os.path.join(dirpath, filename)]) and holds one JSON document.  A path
    that [fs_walk] does not know is not a directory. *)

Record filesystem : Type := Filesystem {
  fs_walk : gmap string (list (string * list string));
  fs_files : gmap (string * string) pyval;
}.

Module os_path.
Definition isdir (fs : filesystem) (root : string) : bool :=
  bool_decide (is_Some (fs_walk fs !! root)).

(** The part of a POSIX path after its last slash. *)
Fixpoint basename (p : string) : string :=
  match p with
  | EmptyString => EmptyString
  | String c p' =>
      if str_in "/" p' then basename p'
      else if Ascii.eqb c "/"%char then p' else p
  end.

Definition join (dirpath filename : string) : string * string :=
  (dirpath, filename).
End os_path.

Module os.
Definition walk (fs : filesystem) (root : string)
  : list (string * list string) :=
  default [] (fs_walk fs !! root).
End os.

(** ** Image pairs *)

(** Modelled from the spec: [imagepair.ImagePair], whose source is not in
    this file.  A record keeps the arguments of the constructor (the
    classification of the record is in its extra columns) and the diff record
    that the diff store returned. *)
Record ImagePair : Type := mkImagePair {
  base_url : string;
  imageA_relative_url : option string;
  imageB_relative_url : option string;
  expectations_dict : option (gmap string pyval);
  extra_columns_dict : gmap string pyval;
  diff_record : pyval;
}.

(** Modelled from the spec: [imagepairset.ImagePairSet], whose source is not
    in this file.  The two descriptions and the base URL it is created with,
    the column values registered with
    [ensure_extra_column_values_in_summary], and the image pairs added so
    far, oldest first. *)
Record ImagePairSet : Type := mkImagePairSet {
  descriptions : string * string;
  diff_base_url : string;
  ensured_column_values : list (string * list string);
  image_pairs : list ImagePair;
}.

(** What the code logs, one constructor per call of [logging]. *)
Inductive log_record : Type :=
  | Info_reading_actuals (root : string)
  | Info_reading_expected (root : string)
  | Info_generating_pixel_diffs (builder_num num_builders : nat)
      (builder : string)
  | Info_results_complete (seconds : Z)
  | Warning_no_expectations_found (test : gmap string pyval)
  | Exception_creating_ImagePair (e : exn).

(** ** What the module imports

    Constants and functions of [gm_json], [results], [imagepair],
    [imagepairset], [imagediffdb] and of the Python library that
    [compare_to_expectations.py] uses but does not define.  They are taken as
    parameters, under the names the source uses. *)

Class Imports : Type := {
  (* gm_json *)
  JSONKEY_ACTUALRESULTS : string;
  JSONKEY_EXPECTEDRESULTS : string;
  JSONKEY_EXPECTEDRESULTS_ALLOWEDDIGESTS : string;
  GM_ACTUALS_ROOT_HTTP_URL : string;
  (* [CreateGmRelativeUrl(test_name, hash_type, hash_digest)] *)
  CreateGmRelativeUrl : string → pyval → pyval → string;
  (* [SplitGmRelativeUrl(url)] = (test_name, hash_type, hash_digest) *)
  SplitGmRelativeUrl : pyval → exn + (string * string * string);
  (* results *)
  KEY__EXPECTATIONS__BUGS : string;
  KEY__EXPECTATIONS__IGNOREFAILURE : string;
  KEY__EXPECTATIONS__REVIEWED : string;
  KEY__EXTRACOLUMN__BUILDER : string;
  KEY__EXTRACOLUMN__CONFIG : string;
  KEY__EXTRACOLUMN__RESULT_TYPE : string;
  KEY__EXTRACOLUMN__TEST : string;
  KEY__HEADER : string;
  KEY__HEADER__DATAHASH : string;
  KEY__HEADER__IS_EDITABLE : string;
  KEY__HEADER__IS_EXPORTED : string;
  KEY__HEADER__RESULTS_ALL : string;
  KEY__HEADER__RESULTS_FAILURES : string;
  KEY__HEADER__SCHEMA_VERSION : string;
  KEY__HEADER__TIME_NEXT_UPDATE_AVAILABLE : string;
  KEY__HEADER__TIME_UPDATED : string;
  KEY__HEADER__TYPE : string;
  KEY__NEW_IMAGE_URL : string;
  KEY__RESULT_TYPE__FAILED : string;
  KEY__RESULT_TYPE__FAILUREIGNORED : string;
  KEY__RESULT_TYPE__NOCOMPARISON : string;
  KEY__RESULT_TYPE__SUCCEEDED : string;
  REBASELINE_SERVER_SCHEMA_VERSION_NUMBER : Z;
  (* [IMAGE_FILENAME_FORMATTER % (test, config)] *)
  IMAGE_FILENAME_FORMATTER : pyval → pyval → string;
  (* [IMAGE_FILENAME_RE.match(image_name)], [None] when there is no match;
     otherwise its groups [(test, config)] *)
  IMAGE_FILENAME_RE_match : string → option (string * string);
  (* imagepair *)
  KEY__EXPECTATIONS_DATA : string;
  KEY__EXTRA_COLUMN_VALUES : string;
  (* the diff that [ImagePair.__init__] requests from the [ImageDiffDB], from
     the arguments of the constructor: [base_url], [imageA_relative_url],
     [imageB_relative_url], [expectations], [extra_columns] *)
  image_diff_db :
    string → option string → option string → option (gmap string pyval) →
    gmap string pyval → exn + pyval;
  ImagePair_as_dict : ImagePair → pyval;
  (* imagepairset *)
  KEY__IMAGEPAIRS : string;
  (* what [ImagePairSet.as_dict] returns besides the list of image pairs:
     the descriptions of the two image sets and the summary of the column
     values *)
  ImagePairSet_summary : ImagePairSet → gmap string pyval;
  (* download_actuals *)
  create_filepath_url : string → string;
  (* Python library *)
  fnmatch_fnmatch : string → string → bool;
  py_int : string → exn + Z;
  py_repr : pyval → string;
  py_hash : string → Z;
  py_str : Z → string;
}.

Module gm_json.
(** Modelled from the spec: [gm_json.LoadFromFile(fullpath)], whose source
    is not in this file, returns the document that the file holds. *)
Definition LoadFromFile (fs : filesystem) (fullpath : string * string)
  : exn + pyval :=
  match fs_files fs !! fullpath with
  | Some v => inr v
  | None => raise IOError
  end.

(** Modelled from the spec: [gm_json.WriteToFile(json_dict, fullpath)],
    whose source is not in this file, makes the file hold the document. *)
Definition WriteToFile (json_dict : pyval) (fullpath : string * string)
    (fs : filesystem) : filesystem :=
  Filesystem (fs_walk fs) (<[fullpath := json_dict]> (fs_files fs)).
End gm_json.

Module fnmatch.
Definition filter {imports : Imports} (names : list string) (pattern : string)
  : list string :=
  List.filter (λ name, fnmatch_fnmatch name pattern) names.
End fnmatch.

Module imagepair.
(** Modelled from the spec: the constructor of [imagepair.ImagePair], whose
    source is not in this file.  It keeps its arguments and requests the diff
    of the two images from the diff store; it raises when the diff store
    does. *)
Definition ImagePair_init {imports : Imports} (base_url : string)
    (imageA_relative_url imageB_relative_url : option string)
    (expectations : option (gmap string pyval))
    (extra_columns : gmap string pyval) : exn + ImagePair :=
  d ← image_diff_db base_url imageA_relative_url imageB_relative_url
        expectations extra_columns;
  mret (mkImagePair base_url imageA_relative_url imageB_relative_url
          expectations extra_columns d).
End imagepair.

Module imagepairset.
(** Modelled from the spec: the constructor of [imagepairset.ImagePairSet],
    whose source is not in this file: a set without image pairs. *)
Definition new (descriptions : string * string) (diff_base_url : string)
  : ImagePairSet :=
  mkImagePairSet descriptions diff_base_url [] [].

(** Modelled from the spec: [ensure_extra_column_values_in_summary] of
    [imagepairset.ImagePairSet] registers values of a column for the
    summary. *)
Definition ensure_extra_column_values_in_summary (column_id : string)
    (values : list string) (s : ImagePairSet) : ImagePairSet :=
  mkImagePairSet (descriptions s) (diff_base_url s)
    (ensured_column_values s ++ [(column_id, values)]) (image_pairs s).

(** Modelled from the spec: [add_image_pair] of
    [imagepairset.ImagePairSet] accumulates the records in the order they
    are added. *)
Definition add_image_pair (image_pair : ImagePair) (s : ImagePairSet)
  : ImagePairSet :=
  mkImagePairSet (descriptions s) (diff_base_url s)
    (ensured_column_values s) (image_pairs s ++ [image_pair]).

(** Modelled from the spec: [as_dict] of [imagepairset.ImagePairSet]
    returns the records under [KEY__IMAGEPAIRS], next to the summary. *)
Definition as_dict {imports : Imports} (s : ImagePairSet)
  : gmap string pyval :=
  <[KEY__IMAGEPAIRS := PList (ImagePair_as_dict <$> image_pairs s)]>
    (ImagePairSet_summary s).
End imagepairset.

(** ** Class [Results] *)

Module Results.
Section Results.
Context {imports : Imports}.

(** The attributes of a [Results] object; [_image_diff_db] is the diff store
    of the imports. *)
Record self : Type := mkResults {
  _diff_base_url : string;
  _actuals_root : string;
  _expected_root : string;
  _results : gmap string (gmap string pyval);
  _timestamp : Z;
}.

Definition EXPECTATION_FIELDS_PASSED_THRU_VERBATIM : list string :=
  [ KEY__EXPECTATIONS__BUGS;
    KEY__EXPECTATIONS__IGNOREFAILURE;
    KEY__EXPECTATIONS__REVIEWED ].

Definition _ignore_builder (builder : string) : bool :=
  endswith builder "-Trybot" ||
  str_in "Valgrind" builder ||
  str_in "TSAN" builder ||
  str_in "ASAN" builder.

(** The body of the two nested loops of [_read_dicts_from_root], for one
    matching file of one directory. *)
Definition read_one (fs : filesystem) (dirpath matching_filename : string)
    (meta_dict : gmap string pyval) : exn + gmap string pyval :=
  let builder := os_path.basename dirpath in
  if _ignore_builder builder then inr meta_dict
  else
    let fullpath := os_path.join dirpath matching_filename in
    v ← gm_json.LoadFromFile fs fullpath;
    mret (<[builder := v]> meta_dict).

Definition read_dir (fs : filesystem) (pattern : string)
    (entry : string * list string) (meta_dict : gmap string pyval)
  : exn + gmap string pyval :=
  let '(dirpath, filenames) := entry in
  for_each (read_one fs dirpath) (fnmatch.filter filenames pattern) meta_dict.

Definition _read_dicts_from_root (fs : filesystem) (root : string)
    (pattern : string) : exn + gmap string pyval :=
  if negb (os_path.isdir fs root) then raise IOError
  else for_each (read_dir fs pattern) (os.walk fs root) ∅.

Definition _create_relative_url (hashtype_and_digest : pyval)
    (test_name : string) : exn + option string :=
  if negb (truthy hashtype_and_digest) then mret None
  else
    hash_type ← getindex hashtype_and_digest 0;
    hash_digest ← getindex hashtype_and_digest 1;
    mret (Some (CreateGmRelativeUrl test_name hash_type hash_digest)).

(** The body of the two nested loops of [_write_dicts_to_root], for one
    matching file of one directory; the state is the file system and
    [actual_builders_written]. *)
Definition write_one (meta_dict : gmap string pyval) (dirpath : string)
    (s : filesystem * list string) (matching_filename : string)
  : filesystem * list string :=
  let builder := os_path.basename dirpath in
  if _ignore_builder builder then s
  else
    match default PNone (meta_dict !! builder) with
    | PNone => s
    | per_builder_dict =>
        let fullpath := os_path.join dirpath matching_filename in
        (gm_json.WriteToFile per_builder_dict fullpath s.1,
         s.2 ++ [builder])
    end.

Definition write_dir (meta_dict : gmap string pyval) (pattern : string)
    (s : filesystem * list string) (entry : string * list string)
  : filesystem * list string :=
  let '(dirpath, filenames) := entry in
  foldl (write_one meta_dict dirpath) s (fnmatch.filter filenames pattern).

(** Returns the file system as the writes left it, also when the final
    check raises. *)
Definition _write_dicts_to_root (meta_dict : gmap string pyval)
    (root : string) (pattern : string) (fs : filesystem)
  : (exn + unit) * filesystem :=
  if negb (os_path.isdir fs root) then (raise IOError, fs)
  else
    let '(fs', actual_builders_written) :=
      foldl (write_dir meta_dict pattern) (fs, []) (os.walk fs root) in
    let expected_builders_written := sorted (keys meta_dict) in
    let actual_builders_written := sorted actual_builders_written in
    if bool_decide (expected_builders_written ≠ actual_builders_written)
    then (raise KeyError, fs')
    else (inr (), fs').

(** *** Editing the expectations *)

(** [image_name] of a modification. *)
Definition mod_image_name (modification : pyval) : exn + string :=
  columns ← getitem modification KEY__EXTRA_COLUMN_VALUES;
  test ← getitem columns KEY__EXTRACOLUMN__TEST;
  columns ← getitem modification KEY__EXTRA_COLUMN_VALUES;
  config ← getitem columns KEY__EXTRACOLUMN__CONFIG;
  mret (IMAGE_FILENAME_FORMATTER test config).

(** [new_expectations] of a modification: the allowed digest and the
    verbatim fields whose value is not [None]. *)
Definition mod_new_expectations (modification : pyval)
  : exn + gmap string pyval :=
  url ← getitem modification KEY__NEW_IMAGE_URL;
  '(test_name, hash_type, hash_digest) ← SplitGmRelativeUrl url;
  digest ← py_int hash_digest;
  let allowed_digests := PList [PList [PStr hash_type; PInt digest]] in
  let new_expectations : gmap string pyval :=
    {[ JSONKEY_EXPECTEDRESULTS_ALLOWEDDIGESTS := allowed_digests ]} in
  for_each
    (λ field new_expectations,
       data ← getitem modification KEY__EXPECTATIONS_DATA;
       value ← dict_get data field;
       mret (match value with
             | PNone => new_expectations
             | _ => <[field := value]> new_expectations
             end))
    EXPECTATION_FIELDS_PASSED_THRU_VERBATIM new_expectations.

(** The builder of a modification. *)
Definition mod_builder (modification : pyval) : exn + pyval :=
  columns ← getitem modification KEY__EXTRA_COLUMN_VALUES;
  getitem columns KEY__EXTRACOLUMN__BUILDER.

(** The body of the loop of [edit_expectations].  The dictionaries are
    updated in place in the source; every builder's dictionary is an object
    of its own, so the update of one is the update of its entry. *)
Definition apply_modification (modification : pyval)
    (expected_builder_dicts : gmap string pyval)
  : exn + gmap string pyval :=
  image_name ← mod_image_name modification;
  new_expectations ← mod_new_expectations modification;
  builder ← mod_builder modification;
  builder_dict ← dict_getitem expected_builder_dicts builder;
  builder_expectations ← dict_get builder_dict JSONKEY_EXPECTEDRESULTS;
  let builder_expectations :=
    if negb (truthy builder_expectations) then PDict ∅
    else builder_expectations in
  builder_expectations ←
    setitem builder_expectations image_name (PDict new_expectations);
  builder_dict ←
    setitem builder_dict JSONKEY_EXPECTEDRESULTS builder_expectations;
  mret (<[key_of builder := builder_dict]> expected_builder_dicts).

(** Returns the file system as the call leaves it, also when it raises. *)
Definition edit_expectations (this : self) (modifications : list pyval)
    (fs : filesystem) : (exn + unit) * filesystem :=
  match
    expected_builder_dicts ←
      _read_dicts_from_root fs (_expected_root this) "*.json";
    for_each apply_modification modifications expected_builder_dicts
  with
  | inl e => (inl e, fs)
  | inr expected_builder_dicts =>
      _write_dicts_to_root expected_builder_dicts (_expected_root this)
        "*.json" fs
  end.

(** *** Loading and reconciling the actual and the expected results *)

Definition IMAGEPAIR_SET_DESCRIPTIONS : string * string :=
  ("expected image", "actual image").

(** The state of the loops of [_load_actual_and_expected]. *)
Record load_state : Type := mkLoadState {
  all_image_pairs : ImagePairSet;
  failing_image_pairs : ImagePairSet;
  log : list log_record;
}.

Definition logging (r : log_record) (st : load_state) : load_state :=
  mkLoadState (all_image_pairs st) (failing_image_pairs st) (log st ++ [r]).

(** [expected_builder_dicts[builder][gm_json.JSONKEY_EXPECTEDRESULTS][image_name]] *)
Definition expectation_entry (expected_builder_dicts : gmap string pyval)
    (builder image_name : string) : exn + pyval :=
  builder_dict ← getitem (PDict expected_builder_dicts) builder;
  expected_results ← getitem builder_dict JSONKEY_EXPECTEDRESULTS;
  getitem expected_results image_name.

(** The body of the first [try]: the expected image and the expectations
    of one test.  The variables it assigns before it raises are either not
    read afterwards ([expectations_per_test]) or still [None]. *)
Definition try_expectations (expected_builder_dicts : gmap string pyval)
    (builder image_name test : string)
  : exn + (option string * gmap string pyval) :=
  expectations_per_test ←
    expectation_entry expected_builder_dicts builder image_name;
  allowed_digests ←
    getitem expectations_per_test JSONKEY_EXPECTEDRESULTS_ALLOWEDDIGESTS;
  expected_image_hashtype_and_digest ← getindex allowed_digests 0;
  expected_image_relative_url ←
    _create_relative_url expected_image_hashtype_and_digest test;
  expectations_dict ←
    for_each
      (λ field expectations_dict,
         value ← dict_get expectations_per_test field;
         mret (<[field := value]> expectations_dict))
      EXPECTATION_FIELDS_PASSED_THRU_VERBATIM ∅;
  mret (expected_image_relative_url, expectations_dict).

Definition no_expectations_found (builder result_type image_name : string)
  : log_record :=
  Warning_no_expectations_found
    (<["image_name" := PStr image_name]>
       (<[KEY__EXTRACOLUMN__RESULT_TYPE := PStr result_type]>
          (<[KEY__EXTRACOLUMN__BUILDER := PStr builder]> ∅))).

(** The first [try] with its handler: [(expected_image_relative_url,
    expectations_dict)], and the warning when there is one. *)
Definition find_expectations (expected_builder_dicts : gmap string pyval)
    (builder result_type image_name test : string) (st : load_state)
  : exn + (option string * option (gmap string pyval) * load_state) :=
  match try_expectations expected_builder_dicts builder image_name test with
  | inr (expected_image_relative_url, expectations_dict) =>
      inr (expected_image_relative_url, Some expectations_dict, st)
  | inl KeyError | inl TypeError =>
      if bool_decide (result_type ≠ KEY__RESULT_TYPE__NOCOMPARISON)
      then inr (None, None,
                logging (no_expectations_found builder result_type image_name) st)
      else inr (None, None, st)
  | inl e => inl e
  end.

Definition updated_result_type_of
    (expected_image_relative_url actual_image_relative_url : option string)
    (result_type : string) : string :=
  if bool_decide (expected_image_relative_url = actual_image_relative_url)
  then KEY__RESULT_TYPE__SUCCEEDED
  else result_type.

(** The arguments of [imagepair.ImagePair] for one image, with
    [updated_result_type]. *)
Record image_pair_args : Type := mkArgs {
  arg_imageA_relative_url : option string;
  arg_imageB_relative_url : option string;
  arg_expectations : option (gmap string pyval);
  arg_extra_columns : gmap string pyval;
  arg_updated_result_type : string;
}.

Definition extra_columns_of (updated_result_type builder test config : string)
  : gmap string pyval :=
  <[KEY__EXTRACOLUMN__CONFIG := PStr config]>
    (<[KEY__EXTRACOLUMN__TEST := PStr test]>
       (<[KEY__EXTRACOLUMN__BUILDER := PStr builder]>
          (<[KEY__EXTRACOLUMN__RESULT_TYPE := PStr updated_result_type]>
             ∅))).

(** The body of the innermost loop, for one image of one result type of
    one builder, up to the second [try]. *)
Definition prepare_image (expected_builder_dicts : gmap string pyval)
    (builder result_type : string) (results_of_this_type : pyval)
    (image_name : string) (st : load_state)
  : exn + (image_pair_args * load_state) :=
  '(test, config) ←
      match IMAGE_FILENAME_RE_match image_name with
      | Some groups => inr groups
      | None => raise AttributeError
      end;
  hashtype_and_digest ← getitem results_of_this_type image_name;
  actual_image_relative_url ← _create_relative_url hashtype_and_digest test;
  '(expected_image_relative_url, expectations_dict, st) ←
      find_expectations expected_builder_dicts builder result_type
        image_name test st;
  let updated_result_type :=
    updated_result_type_of expected_image_relative_url
      actual_image_relative_url result_type in
  let extra_columns_dict :=
    extra_columns_of updated_result_type builder test config in
  mret (mkArgs expected_image_relative_url actual_image_relative_url
          expectations_dict extra_columns_dict updated_result_type, st).

(** The second [try] with its handler. *)
Definition add_image (args : image_pair_args) (st : load_state)
  : load_state :=
  match
    imagepair.ImagePair_init GM_ACTUALS_ROOT_HTTP_URL
      (arg_imageA_relative_url args) (arg_imageB_relative_url args)
      (arg_expectations args) (arg_extra_columns args)
  with
  | inr image_pair =>
      let all := imagepairset.add_image_pair image_pair (all_image_pairs st) in
      let failing :=
        if bool_decide
             (arg_updated_result_type args ≠ KEY__RESULT_TYPE__SUCCEEDED)
        then imagepairset.add_image_pair image_pair (failing_image_pairs st)
        else failing_image_pairs st in
      mkLoadState all failing (log st)
  | inl e => logging (Exception_creating_ImagePair e) st
  end.

(** The body of the innermost loop. *)
Definition process_image (expected_builder_dicts : gmap string pyval)
    (builder result_type : string) (results_of_this_type : pyval)
    (image_name : string) (st : load_state) : exn + load_state :=
  '(args, st) ←
      prepare_image expected_builder_dicts builder result_type
        results_of_this_type image_name st;
  mret (add_image args st).

Definition process_result_type (expected_builder_dicts : gmap string pyval)
    (builder : string) (actual_results_for_this_builder : pyval)
    (result_type : string) (st : load_state) : exn + load_state :=
  results_of_this_type ← getitem actual_results_for_this_builder result_type;
  if negb (truthy results_of_this_type) then mret st
  else
    image_names ← dict_keys results_of_this_type;
    for_each
      (process_image expected_builder_dicts builder result_type
         results_of_this_type)
      (sorted image_names) st.

(** The body of the loop over the builders; the state also counts them. *)
Definition process_builder
    (actual_builder_dicts expected_builder_dicts : gmap string pyval)
    (num_builders : nat) (builder : string) (s : nat * load_state)
  : exn + (nat * load_state) :=
  let builder_num := S s.1 in
  let st :=
    logging (Info_generating_pixel_diffs builder_num num_builders builder)
      s.2 in
  builder_dict ← getitem (PDict actual_builder_dicts) builder;
  actual_results_for_this_builder ←
    getitem builder_dict JSONKEY_ACTUALRESULTS;
  result_types ← dict_keys actual_results_for_this_builder;
  st ← for_each
         (process_result_type expected_builder_dicts builder
            actual_results_for_this_builder)
         (sorted result_types) st;
  mret (builder_num, st).

(** The two image pair sets, as created before the loops. *)
Definition initial_load_state (diff_base_url : string)
    (log : list log_record) : load_state :=
  mkLoadState
    (imagepairset.ensure_extra_column_values_in_summary
       KEY__EXTRACOLUMN__RESULT_TYPE
       [ KEY__RESULT_TYPE__FAILED;
         KEY__RESULT_TYPE__FAILUREIGNORED;
         KEY__RESULT_TYPE__NOCOMPARISON;
         KEY__RESULT_TYPE__SUCCEEDED ]
       (imagepairset.new IMAGEPAIR_SET_DESCRIPTIONS diff_base_url))
    (imagepairset.ensure_extra_column_values_in_summary
       KEY__EXTRACOLUMN__RESULT_TYPE
       [ KEY__RESULT_TYPE__FAILED;
         KEY__RESULT_TYPE__FAILUREIGNORED;
         KEY__RESULT_TYPE__NOCOMPARISON ]
       (imagepairset.new IMAGEPAIR_SET_DESCRIPTIONS diff_base_url))
    log.

(** [_load_actual_and_expected] once the two trees are read: the image
    pair sets and the loops, up to the final state; [log] is what was
    logged before. *)
Definition reconcile
    (actual_builder_dicts expected_builder_dicts : gmap string pyval)
    (diff_base_url : string) (log : list log_record) : exn + load_state :=
  let st := initial_load_state diff_base_url log in
  let builders := sorted (keys actual_builder_dicts) in
  let num_builders := length builders in
  s ← for_each
        (process_builder actual_builder_dicts expected_builder_dicts
           num_builders)
        builders (0, st);
  mret s.2.

Definition results_of (st : load_state) : gmap string (gmap string pyval) :=
  <[KEY__HEADER__RESULTS_FAILURES :=
      imagepairset.as_dict (failing_image_pairs st)]>
    (<[KEY__HEADER__RESULTS_ALL :=
         imagepairset.as_dict (all_image_pairs st)]> ∅).

(** Returns [self._results], with the final state of the loops. *)
Definition _load_actual_and_expected (fs : filesystem)
    (actuals_root expected_root diff_base_url : string)
  : exn + (gmap string (gmap string pyval) * load_state) :=
  let log := [Info_reading_actuals actuals_root] in
  actual_builder_dicts ← _read_dicts_from_root fs actuals_root "*.json";
  let log := log ++ [Info_reading_expected expected_root] in
  expected_builder_dicts ← _read_dicts_from_root fs expected_root "*.json";
  st ← reconcile actual_builder_dicts expected_builder_dicts diff_base_url
         log;
  mret (results_of st, st).

(** *** The constructor and the accessors *)

(** [time_start] and [timestamp] are the two readings of the clock. *)
Definition __init__ (fs : filesystem)
    (actuals_root expected_root generated_images_root : string)
    (diff_base_url : option string) (time_start timestamp : Z)
  : exn + (self * list log_record) :=
  let diff_base_url :=
    match diff_base_url with
    | Some url => if negb (String.eqb url "") then url
                  else create_filepath_url generated_images_root
    | None => create_filepath_url generated_images_root
    end in
  '(results, st) ←
      _load_actual_and_expected fs actuals_root expected_root diff_base_url;
  mret (mkResults diff_base_url actuals_root expected_root results timestamp,
        log st ++ [Info_results_complete (timestamp - time_start)]).

Definition get_timestamp (this : self) : Z := _timestamp this.

Definition get_results_of_type (this : self) (results_type : string)
  : exn + gmap string pyval :=
  match _results this !! results_type with
  | Some response_dict => inr response_dict
  | None => raise KeyError
  end.

(** The header that [get_packaged_results_of_type] builds, from the
    timestamp, its arguments and the hash of the dataset. *)
Definition header_of (time_updated : Z) (reload_seconds : option Z)
    (results_type data_hash : string) (is_editable is_exported : bool)
  : gmap string pyval :=
  <[KEY__HEADER__IS_EXPORTED := PBool is_exported]>
 (<[KEY__HEADER__IS_EDITABLE := PBool is_editable]>
 (<[KEY__HEADER__DATAHASH := PStr data_hash]>
 (<[KEY__HEADER__TYPE := PStr results_type]>
 (<[KEY__HEADER__TIME_NEXT_UPDATE_AVAILABLE :=
      match reload_seconds with
      | Some seconds =>
          if negb (seconds =? 0)%Z then PInt (time_updated + seconds)
          else PNone
      | None => PNone
      end]>
 (<[KEY__HEADER__TIME_UPDATED := PInt time_updated]>
 (<[KEY__HEADER__SCHEMA_VERSION :=
      PInt REBASELINE_SERVER_SCHEMA_VERSION_NUMBER]> ∅)))))).

(** [str(hash(repr(response_dict[imagepairset.KEY__IMAGEPAIRS])))] *)
Definition data_hash_of (response_dict : gmap string pyval) : exn + string :=
  image_pairs ← getitem (PDict response_dict) KEY__IMAGEPAIRS;
  mret (py_str (py_hash (py_repr image_pairs))).

(** The header is stored into the dictionary that [self._results] holds:
    the function returns that dictionary and the object as the call leaves
    it. *)
Definition get_packaged_results_of_type (this : self)
    (results_type : string) (reload_seconds : option Z)
    (is_editable is_exported : bool)
  : exn + (gmap string pyval * self) :=
  response_dict ← get_results_of_type this results_type;
  let time_updated := get_timestamp this in
  data_hash ← data_hash_of response_dict;
  let header :=
    header_of time_updated reload_seconds results_type data_hash
      is_editable is_exported in
  let response_dict := <[KEY__HEADER := PDict header]> response_dict in
  mret (response_dict,
        mkResults (_diff_base_url this) (_actuals_root this)
          (_expected_root this)
          (<[results_type := response_dict]> (_results this))
          (_timestamp this)).

End Results.
End Results.

(** ** An instance of the imports

    The constants with the values they have in the Skia tree, and direct
    versions of the imported functions, to run the model on examples. *)

Module skia.
Fixpoint split_first (c : ascii) (s : string) : option (string * string) :=
  match s with
  | EmptyString => None
  | String a s' =>
      if Ascii.eqb a c then Some (EmptyString, s')
      else match split_first c s' with
           | Some (l, r) => Some (String a l, r)
           | None => None
           end
  end.

Fixpoint split_last (c : ascii) (s : string) : option (string * string) :=
  match s with
  | EmptyString => None
  | String a s' =>
      match split_last c s' with
      | Some (l, r) => Some (String a l, r)
      | None => if Ascii.eqb a c then Some (EmptyString, s') else None
      end
  end.

Fixpoint strip_suffix (suffix s : string) : option string :=
  if String.eqb s suffix then Some EmptyString
  else match s with
       | EmptyString => None
       | String a s' => String a <$> strip_suffix suffix s'
       end.

Fixpoint digits (s : string) (acc : Z) : option Z :=
  match s with
  | EmptyString => Some acc
  | String c s' =>
      let n := nat_of_ascii c in
      if bool_decide (48 ≤ n ≤ 57)
      then digits s' (10 * acc + Z.of_nat (n - 48))%Z
      else None
  end.

Definition int (s : string) : exn + Z :=
  match s with
  | EmptyString => raise ValueError
  | _ => match digits s 0 with Some n => inr n | None => raise ValueError end
  end.

(** [%s] of the values that occur in image URLs and file names. *)
Definition format_s (v : pyval) : string :=
  match v with
  | PStr s => s
  | PInt n => pretty n
  | PBool true => "True"
  | PBool false => "False"
  | PNone => "None"
  | PList _ => "[...]"
  | PDict _ => "{...}"
  end.

Definition create_url (test_name : string) (hash_type hash_digest : pyval)
  : string :=
  format_s hash_type +:+ "/" +:+ test_name +:+ "/" +:+
  format_s hash_digest +:+ ".png".

Definition split_url (url : pyval) : exn + (string * string * string) :=
  match url with
  | PStr u =>
      match split_first "/" u with
      | Some (hash_type, rest) =>
          match split_first "/" rest with
          | Some (test_name, file) =>
              match strip_suffix ".png" file with
              | Some hash_digest => inr (test_name, hash_type, hash_digest)
              | None => raise AttributeError
              end
          | None => raise AttributeError
          end
      | None => raise AttributeError
      end
  | _ => raise TypeError
  end.

Definition filename_match (image_name : string) : option (string * string) :=
  match strip_suffix ".png" image_name with
  | Some stem =>
      match split_last "_" stem with
      | Some (test, config) =>
          if bool_decide (test ≠ EmptyString ∧ config ≠ EmptyString)
          then Some (test, config) else None
      | None => None
      end
  | None => None
  end.

(** A diff store that fails on the images of the test [broken]. *)
Definition diff_db (base : string) (a b : option string)
    (expectations : option (gmap string pyval))
    (columns : gmap string pyval) : exn + pyval :=
  match columns !! "test" with
  | Some (PStr "broken") => raise Exception
  | _ => inr (PBool (bool_decide (a ≠ b)))
  end.

Definition match_pattern (name pattern : string) : bool :=
  match pattern with
  | String "*" suffix => endswith name suffix
  | _ => String.eqb name pattern
  end.

Definition repr (v : pyval) : string :=
  match v with
  | PList l => pretty (length l)
  | _ => format_s v
  end.

#[export] Instance imports : Imports := {|
  JSONKEY_ACTUALRESULTS := "actual-results";
  JSONKEY_EXPECTEDRESULTS := "expected-results";
  JSONKEY_EXPECTEDRESULTS_ALLOWEDDIGESTS := "allowed-digests";
  GM_ACTUALS_ROOT_HTTP_URL :=
    "http://chromium-skia-gm.commondatastorage.googleapis.com/gm";
  CreateGmRelativeUrl := create_url;
  SplitGmRelativeUrl := split_url;
  KEY__EXPECTATIONS__BUGS := "bugs";
  KEY__EXPECTATIONS__IGNOREFAILURE := "ignore-failure";
  KEY__EXPECTATIONS__REVIEWED := "reviewed-by-human";
  KEY__EXTRACOLUMN__BUILDER := "builder";
  KEY__EXTRACOLUMN__CONFIG := "config";
  KEY__EXTRACOLUMN__RESULT_TYPE := "resultType";
  KEY__EXTRACOLUMN__TEST := "test";
  KEY__HEADER := "header";
  KEY__HEADER__DATAHASH := "dataHash";
  KEY__HEADER__IS_EDITABLE := "isEditable";
  KEY__HEADER__IS_EXPORTED := "isExported";
  KEY__HEADER__RESULTS_ALL := "all";
  KEY__HEADER__RESULTS_FAILURES := "failures";
  KEY__HEADER__SCHEMA_VERSION := "schemaVersion";
  KEY__HEADER__TIME_NEXT_UPDATE_AVAILABLE := "timeNextUpdateAvailable";
  KEY__HEADER__TIME_UPDATED := "timeUpdated";
  KEY__HEADER__TYPE := "type";
  KEY__NEW_IMAGE_URL := "newImageUrl";
  KEY__RESULT_TYPE__FAILED := "failed";
  KEY__RESULT_TYPE__FAILUREIGNORED := "failure-ignored";
  KEY__RESULT_TYPE__NOCOMPARISON := "no-comparison";
  KEY__RESULT_TYPE__SUCCEEDED := "succeeded";
  REBASELINE_SERVER_SCHEMA_VERSION_NUMBER := 2;
  IMAGE_FILENAME_FORMATTER :=
    λ test config, format_s test +:+ "_" +:+ format_s config +:+ ".png";
  IMAGE_FILENAME_RE_match := filename_match;
  KEY__EXPECTATIONS_DATA := "expectations";
  KEY__EXTRA_COLUMN_VALUES := "extraColumns";
  image_diff_db := diff_db;
  ImagePair_as_dict :=
    λ p, PDict (<["extraColumns" := PDict (extra_columns_dict p)]> ∅);
  KEY__IMAGEPAIRS := "imagePairs";
  ImagePairSet_summary := λ s, ∅;
  create_filepath_url := λ path, "file://" +:+ path;
  fnmatch_fnmatch := match_pattern;
  py_int := int;
  py_repr := repr;
  py_hash := λ s, Z.of_nat (String.length s);
  py_str := pretty;
|}.
End skia.

(** ** Reading the results

    What the properties below say about an image pair, a log or a response
    is read off with the following definitions. *)

Section Reading.
Context {imports : Imports}.

(** The names of the builders that are left out: those that end in the
    trybot suffix and those that contain Valgrind, TSAN or ASAN. *)
Definition excluded_name (builder : string) : Prop :=
  (∃ p, builder = p +:+ "-Trybot") ∨
  (∃ marker p q,
     marker ∈ ["Valgrind"; "TSAN"; "ASAN"] ∧ builder = p +:+ marker +:+ q).

Definition no_ignored_builder (meta_dict : gmap string pyval) : Prop :=
  ∀ builder, Results._ignore_builder builder = true →
             meta_dict !! builder = None.

(** The files that the loader reads and the writer considers, in the
    order of the walk: those that match the pattern, in the directories
    of the builders that are not ignored. *)
Definition matching_files (walk : list (string * list string))
    (pattern : string) : list (string * string) :=
  entry ← walk;
  if Results._ignore_builder (os_path.basename entry.1) then []
  else pair entry.1 <$> fnmatch.filter entry.2 pattern.

(** What the loader does with one of them. *)
Definition read_file (fs : filesystem) (fullpath : string * string)
    (meta_dict : gmap string pyval) : exn + gmap string pyval :=
  v ← gm_json.LoadFromFile fs fullpath;
  mret (<[os_path.basename fullpath.1 := v]> meta_dict).

(** What the writer does with one of them. *)
Definition write_file (meta_dict : gmap string pyval)
    (s : filesystem * list string) (fullpath : string * string)
  : filesystem * list string :=
  match default PNone (meta_dict !! os_path.basename fullpath.1) with
  | PNone => s
  | per_builder_dict =>
      (gm_json.WriteToFile per_builder_dict fullpath s.1,
       s.2 ++ [os_path.basename fullpath.1])
  end.

(** A file is written when the tree has a dictionary for its builder. *)
Definition written_file (meta_dict : gmap string pyval)
    (fullpath : string * string) : Prop :=
  ∃ v, meta_dict !! os_path.basename fullpath.1 = Some v ∧ v ≠ PNone.

(** The classification of a record: its result-type column. *)
Definition final_classification (p : ImagePair) : option pyval :=
  extra_columns_dict p !! KEY__EXTRACOLUMN__RESULT_TYPE.

(** The columns of a record are read unambiguously when the key of the
    result type is none of the three other keys. *)
Definition result_type_key_apart : Prop :=
  KEY__EXTRACOLUMN__RESULT_TYPE ∉
    [ KEY__EXTRACOLUMN__BUILDER; KEY__EXTRACOLUMN__TEST;
      KEY__EXTRACOLUMN__CONFIG ].

(** What the actual tree stores for an image under a classification:
    [actual_builder_dicts[builder][gm_json.JSONKEY_ACTUALRESULTS]
    [result_type][image_name]]. *)
Definition actual_entry (actual_builder_dicts : gmap string pyval)
    (builder result_type image_name : string) : exn + pyval :=
  builder_dict ← getitem (PDict actual_builder_dicts) builder;
  actual_results ← getitem builder_dict JSONKEY_ACTUALRESULTS;
  results_of_this_type ← getitem actual_results result_type;
  getitem results_of_this_type image_name.

(** The record [p] is what reconciliation makes of the image [image_name]
    that the actual tree lists under [result_type] for [builder]. *)
Definition reconciled
    (actual_builder_dicts expected_builder_dicts : gmap string pyval)
    (builder result_type image_name : string) (p : ImagePair) : Prop :=
  ∃ test config hashtype_and_digest st st',
    IMAGE_FILENAME_RE_match image_name = Some (test, config) ∧
    actual_entry actual_builder_dicts builder result_type image_name
      = inr hashtype_and_digest ∧
    Results._create_relative_url hashtype_and_digest test
      = inr (imageB_relative_url p) ∧
    Results.find_expectations expected_builder_dicts builder result_type
      image_name test st
      = inr (imageA_relative_url p, expectations_dict p, st') ∧
    extra_columns_dict p
      = Results.extra_columns_of
          (Results.updated_result_type_of (imageA_relative_url p)
             (imageB_relative_url p) result_type)
          builder test config ∧
    image_diff_db (base_url p) (imageA_relative_url p)
      (imageB_relative_url p) (expectations_dict p) (extra_columns_dict p)
      = inr (diff_record p).

(** Whether the classification of a record is SUCCEEDED. *)
Definition is_succeeded (p : ImagePair) : bool :=
  match final_classification p with
  | Some (PStr result_type) =>
      bool_decide (result_type = KEY__RESULT_TYPE__SUCCEEDED)
  | _ => false
  end.

(** The two partitions are as reconciliation builds them: every record of
    the first comes from an image of the actual tree, and the second holds
    those of the first that did not succeed, in the same order. *)
Definition partitions_reconciled
    (actual_builder_dicts expected_builder_dicts : gmap string pyval)
    (st : Results.load_state) : Prop :=
  (∀ p, p ∈ image_pairs (Results.all_image_pairs st) →
        ∃ builder result_type image_name,
          reconciled actual_builder_dicts expected_builder_dicts builder
            result_type image_name p) ∧
  image_pairs (Results.failing_image_pairs st)
  = List.filter (λ p, negb (is_succeeded p))
      (image_pairs (Results.all_image_pairs st)).

Definition is_warning (r : log_record) : bool :=
  match r with
  | Warning_no_expectations_found _ => true
  | _ => false
  end.

Definition warnings (records : list log_record) : list log_record :=
  List.filter is_warning records.

(** The entry that an expected tree holds for an image of a builder. *)
Definition stored_expectations (expected_builder_dicts : gmap string pyval)
    (builder image_name : string) : exn + pyval :=
  Results.expectation_entry expected_builder_dicts builder image_name.

(** A modification that names [builder] and [image_name]. *)
Definition targets (modification : pyval) (builder image_name : string)
  : Prop :=
  Results.mod_builder modification = inr (PStr builder) ∧
  Results.mod_image_name modification = inr image_name.

(** The header of a packaged response, and its data token. *)
Definition header (response_dict : gmap string pyval) : option pyval :=
  response_dict !! KEY__HEADER.

Definition data_token (response_dict : gmap string pyval) : option pyval :=
  match header response_dict with
  | Some (PDict h) => h !! KEY__HEADER__DATAHASH
  | _ => None
  end.

(** The header does not hide the image pairs, nor the two flags the data
    hash, when the keys differ. *)
Definition header_keys_apart : Prop :=
  KEY__HEADER ≠ KEY__IMAGEPAIRS ∧
  KEY__HEADER__DATAHASH ∉
    [KEY__HEADER__IS_EDITABLE; KEY__HEADER__IS_EXPORTED].
End Reading.

(** ** Example data *)

Module example.
Definition digest (hash_type : string) (n : Z) : pyval :=
  PList [PStr hash_type; PInt n].

Definition dict (items : list (string * pyval)) : pyval :=
  PDict (list_to_map items).

(** Builder B1: [testA] was rebaselined to its actual image, [testB] and
    [testC] have no expectations, the diff of [broken] cannot be computed,
    and no image is recorded for [testN]. *)
Definition actual_B1 : pyval :=
  dict [("actual-results", dict [
    ("failed", dict [("testA_8888.png", digest "md5" 111);
                     ("testB_565.png", digest "md5" 222);
                     ("broken_gpu.png", digest "md5" 5);
                     ("testN_565.png", PNone)]);
    ("no-comparison", dict [("testC_8888.png", digest "md5" 333)]);
    ("succeeded", PNone)])].

Definition expected_B1 : pyval :=
  dict [("expected-results", dict [
    ("testA_8888.png",
     dict [("allowed-digests", PList [digest "md5" 111]);
           ("bugs", PList [PInt 1]);
           ("reviewed-by-human", PBool true)])])].

Definition disk : filesystem :=
  Filesystem
    (list_to_map
       [("actuals",
         [("actuals", []);
          ("actuals/B1", ["actual-results.json"; "README"]);
          ("actuals/B2-Trybot", ["actual-results.json"])]);
        ("expected",
         [("expected", []);
          ("expected/B1", ["expected-results.json"])])])
    (list_to_map
       [(("actuals/B1", "actual-results.json"), actual_B1);
        (("actuals/B2-Trybot", "actual-results.json"), actual_B1);
        (("expected/B1", "expected-results.json"), expected_B1)]).

Definition modification (builder test config url : string)
    (expectations : list (string * pyval)) : pyval :=
  dict [("expectations", dict expectations);
        ("extraColumns",
         dict [("builder", PStr builder); ("config", PStr config);
               ("test", PStr test)]);
        ("newImageUrl", PStr url)].

Definition mod_A1 : pyval :=
  modification "B1" "testA" "8888" "md5/testA/7.png" [("bugs", PList [PInt 9])].
Definition mod_A2 : pyval :=
  modification "B1" "testA" "8888" "md5/testA/8.png" [("ignore-failure", PBool true)].
Definition mod_B2 : pyval :=
  modification "B2" "testA" "8888" "md5/testA/7.png" [].


(** The results object that the constructor makes from [disk]. *)
Definition service : Results.self :=
  Results.mkResults "file://workdir" "actuals" "expected"
    match
      Results._load_actual_and_expected (imports := skia.imports) disk
        "actuals" "expected" "file://workdir"
    with
    | inr (results, _) => results
    | inl _ => ∅
    end
    1003.

(** The disk after the two modifications of [testA] were applied. *)
Definition disk_after_edit : filesystem :=
  (Results.edit_expectations (imports := skia.imports) service
     [mod_A1; mod_A2] disk).2.

(** The two trees as the loader reads them from [disk], and the state in
    which reconciliation ends. *)
Definition actual_tree : gmap string pyval := {["B1" := actual_B1]}.
Definition expected_tree : gmap string pyval := {["B1" := expected_B1]}.

Definition initial_state : Results.load_state :=
  Results.initial_load_state (imports := skia.imports) "file://diffs" [].

Definition reconciled_state : Results.load_state :=
  match
    Results.reconcile (imports := skia.imports) actual_tree expected_tree
      "file://diffs" []
  with
  | inr st => st
  | inl _ => initial_state
  end.

(** The images that the actual tree lists as failed for B1. *)
Definition failed_B1 : pyval :=
  dict [("testA_8888.png", digest "md5" 111);
        ("testB_565.png", digest "md5" 222);
        ("broken_gpu.png", digest "md5" 5);
        ("testN_565.png", PNone)].

(** The records of B1. *)
Definition record (expected actual : option string)
    (expectations : option (gmap string pyval))
    (result_type test config : string) (different : bool) : ImagePair :=
  mkImagePair (GM_ACTUALS_ROOT_HTTP_URL (Imports := skia.imports))
    expected actual expectations
    (Results.extra_columns_of (imports := skia.imports) result_type "B1" test
       config)
    (PBool different).

Definition record_A : ImagePair :=
  record (Some "md5/testA/111.png") (Some "md5/testA/111.png")
    (Some (list_to_map [("bugs", PList [PInt 1]); ("ignore-failure", PNone);
                        ("reviewed-by-human", PBool true)]))
    "succeeded" "testA" "8888" false.
Definition record_B : ImagePair :=
  record None (Some "md5/testB/222.png") None "failed" "testB" "565" true.
Definition record_N : ImagePair :=
  record None None None "succeeded" "testN" "565" false.
Definition record_C : ImagePair :=
  record None (Some "md5/testC/333.png") None "no-comparison" "testC" "8888"
    true.

(** A packaged response of the results object. *)
Definition packaged : gmap string pyval * Results.self :=
  match
    Results.get_packaged_results_of_type (imports := skia.imports) service
      "failures" (Some 60%Z) true false
  with
  | inr response => response
  | inl _ => (∅, service)
  end.
End example.

(** ** Further readings of the code *)

Section ReadingMore.
Context {imports : Imports}.

(** The builder of a file: the name of its directory. *)
Definition builder_of (fullpath : string * string) : string :=
  os_path.basename fullpath.1.

(** The last of the files of a builder, in the order of the walk. *)
Definition last_file_of (builder : string) (files : list (string * string))
  : option (string * string) :=
  last (filter (λ k, builder_of k = builder) files).

(** Whether the tree has a dictionary to write into a file. *)
Definition has_dict (meta_dict : gmap string pyval)
    (fullpath : string * string) : bool :=
  match default PNone (meta_dict !! builder_of fullpath) with
  | PNone => false
  | _ => true
  end.
End ReadingMore.

Section ReadingEdits.
Context {imports : Imports}.

(** No builder of the tree has the document [None]. *)
Definition no_null_document (meta_dict : gmap string pyval) : Prop :=
  ∀ builder v, meta_dict !! builder = Some v → v ≠ PNone.

(** The matching files of the expected root of a results object. *)
Definition expected_files (this : Results.self) (fs : filesystem)
  : list (string * string) :=
  matching_files (os.walk fs (Results._expected_root this)) "*.json".
End ReadingEdits.

Section ReadingModifications.
Context {imports : Imports}.

(** The value that a modification gives for a verbatim field, when it gives
    one that is not [None]. *)
Definition verbatim_value (modification : pyval) (field : string)
  : option pyval :=
  match getitem modification KEY__EXPECTATIONS_DATA with
  | inr (PDict data) =>
      match data !! field with
      | Some PNone | None => None
      | Some value => Some value
      end
  | _ => None
  end.

(** The allowed digests that a modification asks for:
    [[[hash_type, int(hash_digest)]]], from its new image URL. *)
Definition new_allowed_digests (modification : pyval) : exn + pyval :=
  url ← getitem modification KEY__NEW_IMAGE_URL;
  '(test_name, hash_type, hash_digest) ← SplitGmRelativeUrl url;
  digest ← py_int hash_digest;
  mret (PList [PList [PStr hash_type; PInt digest]]).

(** The allowed digests of new expectations are not overwritten by a field
    passed through verbatim when their key is none of those fields. *)
Definition allowed_digests_key_apart : Prop :=
  JSONKEY_EXPECTEDRESULTS_ALLOWEDDIGESTS
    ∉ Results.EXPECTATION_FIELDS_PASSED_THRU_VERBATIM.
End ReadingModifications.

Section ReadingContents.
Context {imports : Imports}.

(** The three keys of a warning are read unambiguously when they are three
    different keys. *)
Definition warning_keys_apart : Prop :=
  NoDup [ KEY__EXTRACOLUMN__BUILDER; KEY__EXTRACOLUMN__RESULT_TYPE;
          "image_name" ].

(** The record [r] is a warning that names a builder, a classification and
    an image: its dictionary gives the three under their keys, and holds no
    other key. *)
Definition warning_names (r : log_record)
    (builder result_type image_name : string) : Prop :=
  ∃ test : gmap string pyval,
    r = Warning_no_expectations_found test ∧
    test !! KEY__EXTRACOLUMN__BUILDER = Some (PStr builder) ∧
    test !! KEY__EXTRACOLUMN__RESULT_TYPE = Some (PStr result_type) ∧
    test !! "image_name" = Some (PStr image_name) ∧
    ∀ key, is_Some (test !! key) →
           key ∈ [ KEY__EXTRACOLUMN__BUILDER; KEY__EXTRACOLUMN__RESULT_TYPE;
                   "image_name" ].

(** The seven fields of a header are read unambiguously when their keys are
    seven different keys. *)
Definition header_fields_apart : Prop :=
  NoDup [ KEY__HEADER__SCHEMA_VERSION; KEY__HEADER__TIME_UPDATED;
          KEY__HEADER__TIME_NEXT_UPDATE_AVAILABLE; KEY__HEADER__TYPE;
          KEY__HEADER__DATAHASH; KEY__HEADER__IS_EDITABLE;
          KEY__HEADER__IS_EXPORTED ].

(** The dictionary [h] is a header block: it holds the schema version, the
    two timestamps (when the data was updated, and when to ask again, if
    ever), the kind of results, the data token and the two flags, and no
    other key. *)
Definition header_block (h : gmap string pyval) (time_updated : Z)
    (reload_seconds : option Z) (results_type data_hash : string)
    (is_editable is_exported : bool) : Prop :=
  h !! KEY__HEADER__SCHEMA_VERSION
    = Some (PInt REBASELINE_SERVER_SCHEMA_VERSION_NUMBER) ∧
  h !! KEY__HEADER__TIME_UPDATED = Some (PInt time_updated) ∧
  h !! KEY__HEADER__TIME_NEXT_UPDATE_AVAILABLE
    = Some (match reload_seconds with
            | Some seconds =>
                if (seconds =? 0)%Z then PNone
                else PInt (time_updated + seconds)
            | None => PNone
            end) ∧
  h !! KEY__HEADER__TYPE = Some (PStr results_type) ∧
  h !! KEY__HEADER__DATAHASH = Some (PStr data_hash) ∧
  h !! KEY__HEADER__IS_EDITABLE = Some (PBool is_editable) ∧
  h !! KEY__HEADER__IS_EXPORTED = Some (PBool is_exported) ∧
  ∀ key, is_Some (h !! key) →
         key ∈ [ KEY__HEADER__SCHEMA_VERSION; KEY__HEADER__TIME_UPDATED;
                 KEY__HEADER__TIME_NEXT_UPDATE_AVAILABLE; KEY__HEADER__TYPE;
                 KEY__HEADER__DATAHASH; KEY__HEADER__IS_EDITABLE;
                 KEY__HEADER__IS_EXPORTED ].
End ReadingContents.

Section ReadingLogs.
Context {imports : Imports}.

(** A warning that reconciliation has a reason for: it is made of, and
    names, a builder, a result type other than NOCOMPARISON and an image
    that the actual tree lists for them, and the first [try] raised
    [KeyError] or [TypeError] for that image. *)
Definition justified_warning
    (actual_builder_dicts expected_builder_dicts : gmap string pyval)
    (r : log_record) : Prop :=
  ∃ builder result_type image_name test config e,
    r = Results.no_expectations_found builder result_type image_name ∧
    warning_names r builder result_type image_name ∧
    result_type ≠ KEY__RESULT_TYPE__NOCOMPARISON ∧
    returns (actual_entry actual_builder_dicts builder result_type
               image_name) ∧
    IMAGE_FILENAME_RE_match image_name = Some (test, config) ∧
    Results.try_expectations expected_builder_dicts builder image_name test
      = inl e ∧
    (e = KeyError ∨ e = TypeError).

(** The records of the progress through the builders. *)
Definition is_progress (r : log_record) : bool :=
  match r with
  | Info_generating_pixel_diffs _ _ _ => true
  | _ => false
  end.

Definition progress (records : list log_record) : list log_record :=
  List.filter is_progress records.

(** Every image pair and every log record of the first state is in the
    second. *)
Definition keeps_records (st st' : Results.load_state) : Prop :=
  (∀ p, p ∈ image_pairs (Results.all_image_pairs st) →
        p ∈ image_pairs (Results.all_image_pairs st')) ∧
  (∀ r, r ∈ Results.log st → r ∈ Results.log st').

(** The diff store raised [e] for the image [image_name], whose entry in
    the actual tree is [hashtype_and_digest], with the arguments that the
    body of the loop computes for it. *)
Definition diff_failed (expected_builder_dicts : gmap string pyval)
    (builder result_type image_name : string) (hashtype_and_digest : pyval)
    (e : exn) : Prop :=
  ∃ test config actual_url expected_url expectations st st',
    IMAGE_FILENAME_RE_match image_name = Some (test, config) ∧
    Results._create_relative_url hashtype_and_digest test = inr actual_url ∧
    Results.find_expectations expected_builder_dicts builder result_type
      image_name test st = inr (expected_url, expectations, st') ∧
    image_diff_db GM_ACTUALS_ROOT_HTTP_URL expected_url actual_url
      expectations
      (Results.extra_columns_of
         (Results.updated_result_type_of expected_url actual_url result_type)
         builder test config)
    = inl e.
End ReadingLogs.

Section ReadingWellFormed.
Context {imports : Imports}.

(** The entry that the expected tree holds for an image, when it holds one,
    is a dictionary with a list of allowed digests that is not empty, and
    an image reference can be made of the first of them. *)
Definition expectations_well_formed
    (expected_builder_dicts : gmap string pyval)
    (builder image_name test : string) : Prop :=
  ∀ entry,
    Results.expectation_entry expected_builder_dicts builder image_name
      = inr entry →
    ∃ (fields : gmap string pyval) first others,
      entry = PDict fields ∧
      fields !! JSONKEY_EXPECTEDRESULTS_ALLOWEDDIGESTS
        = Some (PList (first :: others)) ∧
      returns (Results._create_relative_url first test).

(** The name of an image is one of a test and a configuration, an image
    reference can be made of what the actual tree holds for it, and its
    expectations are well formed. *)
Definition image_well_formed (expected_builder_dicts : gmap string pyval)
    (builder image_name : string) (hashtype_and_digest : pyval) : Prop :=
  ∃ test config,
    IMAGE_FILENAME_RE_match image_name = Some (test, config) ∧
    returns (Results._create_relative_url hashtype_and_digest test) ∧
    expectations_well_formed expected_builder_dicts builder image_name test.

(** Every document of the actual tree holds a dictionary of actual
    results, in which every result type is either without images (empty or
    [None]) or a dictionary of well-formed images. *)
Definition actual_well_formed
    (actual_builder_dicts expected_builder_dicts : gmap string pyval)
  : Prop :=
  ∀ builder builder_dict,
    actual_builder_dicts !! builder = Some builder_dict →
    ∃ actual_results : gmap string pyval,
      getitem builder_dict JSONKEY_ACTUALRESULTS
        = inr (PDict actual_results) ∧
      ∀ result_type results_of_this_type,
        actual_results !! result_type = Some results_of_this_type →
        truthy results_of_this_type = false ∨
        ∃ images : gmap string pyval,
          results_of_this_type = PDict images ∧
          ∀ image_name hashtype_and_digest,
            images !! image_name = Some hashtype_and_digest →
            image_well_formed expected_builder_dicts builder image_name
              hashtype_and_digest.
End ReadingWellFormed.

(** ** More example data *)

Module example2.
(** A later document of B1, with another digest for [testA]. *)
Definition expected_B1_later : pyval :=
  example.dict [("expected-results", example.dict [
    ("testA_8888.png",
     example.dict [("allowed-digests", PList [example.digest "md5" 112])])])].

(** A disk where the directory of B1 holds two documents. *)
Definition disk_two_files : filesystem :=
  Filesystem
    (list_to_map
       [("expected",
         [("expected", []);
          ("expected/B1", ["a.json"; "b.json"])])])
    (list_to_map
       [(("expected/B1", "a.json"), example.expected_B1);
        (("expected/B1", "b.json"), expected_B1_later)]).

(** A tree with a builder, B9, that has no directory on [example.disk]. *)
Definition tree_with_B9 : gmap string pyval :=
  <["B9" := example.expected_B1]> example.expected_tree.

(** What the writer returns for the expected tree on [example.disk]. *)
Definition written : (exn + unit) * filesystem :=
  Results._write_dicts_to_root (imports := skia.imports)
    example.expected_tree "expected" "*.json" example.disk.

(** The expected tree once the two modifications of [testA] are applied. *)
Definition edited : gmap string pyval :=
  match
    for_each (Results.apply_modification (imports := skia.imports))
      [example.mod_A1; example.mod_A2] example.expected_tree
  with
  | inr tree => tree
  | inl _ => ∅
  end.

(** The new expectations of the first modification. *)
Definition new_A1 : gmap string pyval :=
  match
    Results.mod_new_expectations (imports := skia.imports) example.mod_A1
  with
  | inr new => new
  | inl _ => ∅
  end.

(** An actual tree that lists a file that is not an image of a test. *)
Definition actual_unparseable : gmap string pyval :=
  {["B1" :=
      example.dict [("actual-results", example.dict [
        ("failed", example.dict [("README", example.digest "md5" 1)])])]]}.

(** An expected tree whose entry for [testA] allows no digest, and one
    whose entry allows two. *)
Definition entry_no_digest : pyval :=
  example.dict [("allowed-digests", PList [])].

Definition expected_no_digest : gmap string pyval :=
  {["B1" :=
      example.dict [("expected-results", example.dict [
        ("testA_8888.png", entry_no_digest)])]]}.

Definition entry_two_digests : gmap string pyval :=
  list_to_map
    [("allowed-digests",
      PList [example.digest "md5" 111; example.digest "md5" 999]);
     ("bugs", PList [PInt 1])].

Definition expected_two_digests : gmap string pyval :=
  {["B1" :=
      example.dict [("expected-results", example.dict [
        ("testA_8888.png", PDict entry_two_digests)])]]}.

(** What the constructor logs on [example.disk]. *)
Definition service_log : list log_record :=
  match
    Results.__init__ (imports := skia.imports) example.disk "actuals"
      "expected" "workdir" None 1000 1003
  with
  | inr (_, log) => log
  | inl _ => []
  end.

(** The warning about [testB], as it is logged. *)
Definition warning_B : log_record :=
  Warning_no_expectations_found
    (list_to_map
       [("builder", PStr "B1"); ("resultType", PStr "failed");
        ("image_name", PStr "testB_565.png")]).

(** The header of the packaged response of [example.packaged]. *)
Definition header_of_packaged : gmap string pyval :=
  list_to_map
    [("schemaVersion", PInt 2); ("timeUpdated", PInt 1003);
     ("timeNextUpdateAvailable", PInt 1063); ("type", PStr "failures");
     ("dataHash", PStr "1");
     ("isEditable", PBool true); ("isExported", PBool false)].

(** A small actual tree: B1 with one failed image. *)
Definition images_small : gmap string pyval :=
  {["testA_8888.png" := example.digest "md5" 111]}.

Definition actual_results_small : gmap string pyval :=
  {["failed" := PDict images_small]}.

Definition actual_small : gmap string pyval :=
  {["B1" := PDict {["actual-results" := PDict actual_results_small]}]}.
End example2.

(** * Properties *)

(** ** Exceptions and loops *)

Lemma bind_inr {A B} (m : exn + A) (k : A → exn + B) (b : B) :
  m ≫= k = inr b ↔ ∃ a, m = inr a ∧ k a = inr b.
Proof.
  destruct m as [e|a]; simpl; split.
  - discriminate.
  - intros (a & Ha & _). discriminate.
  - eauto.
  - intros (a' & [= <-] & Hk). exact Hk.
Qed.

Lemma for_each_app {A S} (body : A → S → exn + S) (xs ys : list A) (s : S) :
  for_each body (xs ++ ys) s = for_each body xs s ≫= for_each body ys.
Proof.
  revert s. induction xs as [|x xs IH]; intros s; simpl; [reflexivity|].
  destruct (body x s) as [e|s']; simpl; [reflexivity|]. apply IH.
Qed.

(** An invariant of the loop state holds after the loop when every
    iteration over an element of the list keeps it. *)
Lemma for_each_invariant {A S} (P : S → Prop) (body : A → S → exn + S)
    (xs : list A) (s s' : S) :
  (∀ x t t', x ∈ xs → P t → body x t = inr t' → P t') →
  P s → for_each body xs s = inr s' → P s'.
Proof.
  revert s. induction xs as [|x xs IH]; intros s Hbody Hs Hrun; simpl in Hrun.
  - by injection Hrun as <-.
  - apply bind_inr in Hrun as (t & Hx & Hrest).
    apply (IH t); [| |done].
    + intros y u u' Hy. apply Hbody. by right.
    + eapply Hbody; [by left|done..].
Qed.

(** A loop raises when its body raises on one element of the list in
    every state that the loop can be in. *)
Lemma for_each_raises {A S} (P : S → Prop) (body : A → S → exn + S)
    (xs : list A) (x : A) (s : S) :
  (∀ y t t', P t → body y t = inr t' → P t') →
  (∀ t, P t → ∃ e, body x t = inl e) →
  x ∈ xs → P s →
  ∃ e, for_each body xs s = inl e.
Proof.
  intros Hkeep Hbody Hx. revert s.
  induction xs as [|y ys IH]; intros s Hs; [by apply elem_of_nil in Hx|].
  simpl. destruct (body y s) as [e|t] eqn:Hy; simpl; [by eexists|].
  apply elem_of_cons in Hx as [->|Hx].
  - destruct (Hbody s Hs) as [e He]. congruence.
  - apply IH; [done|]. by eapply Hkeep.
Qed.

(** ** Strings *)

Lemma append_nil_l (s : string) : EmptyString +:+ s = s.
Proof. reflexivity. Qed.

Lemma append_cons (a : ascii) (p q : string) :
  String a p +:+ q = String a (p +:+ q).
Proof. reflexivity. Qed.

Lemma prefix_spec (p s : string) :
  String.prefix p s = true ↔ ∃ q, s = p +:+ q.
Proof.
  revert s. induction p as [|a p IH]; intros s.
  - split; [|by destruct s]. intros _. exists s. by rewrite append_nil_l.
  - destruct s as [|b s]; simpl.
    + split; [done|]. intros [q Hq]. by rewrite append_cons in Hq.
    + destruct (Ascii.ascii_dec a b) as [->|Hab].
      * rewrite IH. split; intros [q Hq]; exists q.
        -- rewrite append_cons. congruence.
        -- rewrite append_cons in Hq. congruence.
      * split; [done|]. intros [q Hq]. rewrite append_cons in Hq. congruence.
Qed.

Lemma str_in_spec (sub s : string) :
  str_in sub s = true ↔ ∃ p q, s = p +:+ sub +:+ q.
Proof.
  induction s as [|a s IH].
  - cbn [str_in]. rewrite orb_false_r, prefix_spec. split.
    + intros [q Hq]. by exists EmptyString, q.
    + intros ([|b p] & q & Hq); [by exists q|by rewrite append_cons in Hq].
  - cbn [str_in]. rewrite orb_true_iff, prefix_spec, IH. split.
    + intros [[q Hq]|(p & q & Hq)].
      * by exists EmptyString, q.
      * exists (String a p), q. rewrite append_cons. by rewrite Hq.
    + intros ([|b p] & q & Hq).
      * left. by exists q.
      * right. exists p, q. rewrite append_cons in Hq. congruence.
Qed.

Lemma endswith_spec (s suffix : string) :
  endswith s suffix = true ↔ ∃ p, s = p +:+ suffix.
Proof.
  induction s as [|a s IH].
  - cbn [endswith]. rewrite orb_false_r, String.eqb_eq. split.
    + intros <-. by exists EmptyString.
    + intros ([|b p] & Hp); [done|by rewrite append_cons in Hp].
  - cbn [endswith]. rewrite orb_true_iff, String.eqb_eq, IH. split.
    + intros [->|[p ->]]; [by exists EmptyString|by exists (String a p)].
    + intros ([|b p] & Hp).
      * by left.
      * right. exists p. rewrite append_cons in Hp. congruence.
Qed.

(** ** The tree loader *)

Section Loader.
Context {imports : Imports}.

Lemma _ignore_builder_spec (builder : string) :
  Results._ignore_builder builder = true ↔ excluded_name builder.
Proof.
  unfold Results._ignore_builder, excluded_name.
  rewrite !orb_true_iff, endswith_spec, !str_in_spec. split.
  - intros [[[Ht|(p & q & Hv)]|(p & q & Ht)]|(p & q & Ha)].
    + by left.
    + right. exists "Valgrind", p, q. split; [set_solver|done].
    + right. exists "TSAN", p, q. split; [set_solver|done].
    + right. exists "ASAN", p, q. split; [set_solver|done].
  - intros [Ht|(marker & p & q & Hm & Hb)]; [by do 3 left|].
    repeat (apply elem_of_cons in Hm as [->|Hm]); eauto 10.
    by apply elem_of_nil in Hm.
Qed.

Lemma read_one_no_ignored_builder fs dirpath filename meta_dict meta_dict' :
  no_ignored_builder meta_dict →
  Results.read_one fs dirpath filename meta_dict = inr meta_dict' →
  no_ignored_builder meta_dict'.
Proof.
  unfold Results.read_one. intros Hinv Hread.
  destruct (Results._ignore_builder (os_path.basename dirpath)) eqn:Hb.
  - by injection Hread as <-.
  - apply bind_inr in Hread as (v & _ & [= <-]).
    intros builder Hignored. rewrite lookup_insert_ne; [by apply Hinv|].
    intros Heq. congruence.
Qed.

Lemma read_dir_no_ignored_builder fs pattern entry meta_dict meta_dict' :
  no_ignored_builder meta_dict →
  Results.read_dir fs pattern entry meta_dict = inr meta_dict' →
  no_ignored_builder meta_dict'.
Proof.
  destruct entry as [dirpath filenames]. intros Hinv.
  apply for_each_invariant; [|done].
  intros filename t t' _. apply read_one_no_ignored_builder.
Qed.

(** C7: a builder whose name ends in the trybot suffix, or contains
    Valgrind, TSAN or ASAN, is in no mapping that the tree loader returns,
    whatever the directory holds. *)
Theorem loader_excludes_ignored_builders fs root pattern meta_dict builder :
  Results._read_dicts_from_root fs root pattern = inr meta_dict →
  excluded_name builder →
  meta_dict !! builder = None.
Proof.
  unfold Results._read_dicts_from_root. intros Hread Hname.
  destruct (negb (os_path.isdir fs root)); [discriminate|].
  apply (for_each_invariant no_ignored_builder) in Hread.
  - by apply Hread, _ignore_builder_spec.
  - intros entry t t' _. apply read_dir_no_ignored_builder.
  - intros b _. apply lookup_empty.
Qed.
End Loader.

Lemma loader_excludes_ignored_builders_witness :
  match
    Results._read_dicts_from_root (imports := skia.imports) example.disk
      "actuals" "*.json"
  with
  | inr meta_dict =>
      meta_dict !! "B2-Trybot" = None ∧ is_Some (meta_dict !! "B1")
  | inl _ => False
  end.
Proof.
  destruct (Results._read_dicts_from_root _ _ _) as [e|meta_dict] eqn:Hread.
  - vm_compute in Hread. discriminate.
  - split.
    + apply (loader_excludes_ignored_builders _ _ _ _ _ Hread).
      left. by exists "B2".
    + vm_compute in Hread. injection Hread as <-. by eexists.
Defined.

(** ** Editing the expectations *)

Section Writer.
Context {imports : Imports}.

(** What a modification that applies does to the tree. *)
Lemma apply_modification_inr modification d d' :
  Results.apply_modification modification d = inr d' →
  ∃ image_name new_expectations builder builder_dict prior,
    Results.mod_image_name modification = inr image_name ∧
    Results.mod_new_expectations modification = inr new_expectations ∧
    Results.mod_builder modification = inr (PStr builder) ∧
    d !! builder = Some (PDict builder_dict) ∧
    (let stored :=
       default PNone (builder_dict !! JSONKEY_EXPECTEDRESULTS) in
     (if negb (truthy stored) then PDict ∅ else stored) = PDict prior) ∧
    d' = <[builder :=
             PDict (<[JSONKEY_EXPECTEDRESULTS :=
                        PDict (<[image_name := PDict new_expectations]>
                                 prior)]> builder_dict)]> d.
Proof.
  unfold Results.apply_modification. intros Happly.
  apply bind_inr in Happly as (image_name & Hname & Happly).
  apply bind_inr in Happly as (new_expectations & Hnew & Happly).
  apply bind_inr in Happly as (builder & Hbuilder & Happly).
  apply bind_inr in Happly as (builder_dict & Hdict & Happly).
  apply bind_inr in Happly as (stored & Hstored & Happly).
  apply bind_inr in Happly as (updated & Hupdated & Happly).
  apply bind_inr in Happly as (builder_dict' & Hset & [= <-]).
  destruct builder as [| | |b| |]; try discriminate.
  simpl in Hdict. destruct (d !! b) as [v|] eqn:Hb; [|discriminate].
  injection Hdict as ->.
  destruct builder_dict as [| | | | |bd]; try discriminate.
  simpl in Hstored, Hset. simplify_eq.
  destruct (if negb _ then _ else _) as [| | | | |prior] eqn:Hprior;
    try discriminate.
  simpl in Hupdated. simplify_eq.
  by exists image_name, new_expectations, b, bd, prior.
Qed.

Lemma apply_modification_dom modification d d' :
  Results.apply_modification modification d = inr d' → dom d' = dom d.
Proof.
  intros (?&?&b&?&?&_&_&_&Hb&_&->)%apply_modification_inr.
  rewrite dom_insert_L. apply subseteq_union_1_L, singleton_subseteq_l.
  by apply elem_of_dom_2 in Hb.
Qed.

(** A modification for a builder that the tree does not have raises. *)
Lemma apply_modification_absent_builder modification d builder :
  Results.mod_builder modification = inr (PStr builder) →
  d !! builder = None →
  (∃ e, Results.apply_modification modification d = inl e) ∧
  (returns (Results.mod_image_name modification) →
   returns (Results.mod_new_expectations modification) →
   Results.apply_modification modification d = inl KeyError).
Proof.
  intros Hbuilder Habsent. unfold Results.apply_modification.
  destruct (Results.mod_image_name modification) as [e|image_name];
    simpl; [split; [by eexists|by intros [? ?]]|].
  destruct (Results.mod_new_expectations modification) as [e|new];
    simpl; [split; [by eexists|by intros _ [? ?]]|].
  rewrite Hbuilder. simpl. rewrite Habsent. simpl. eauto.
Qed.

Lemma apply_modifications_dom modifications d d' :
  for_each Results.apply_modification modifications d = inr d' →
  dom d' = dom d.
Proof.
  apply (for_each_invariant (λ t, dom t = dom d)); [|done].
  intros m t t' _ Ht Happly. by rewrite (apply_modification_dom _ _ _ Happly).
Qed.

(** C5: when a modification names a builder that the expected tree, read
    afresh from the expected root, does not have, [edit_expectations]
    raises and leaves every file as it was; the exception is the
    [KeyError] that signals a mismatch of the builders as soon as the
    modifications before it apply and its own image name and new
    expectations are well formed. *)
Theorem edit_absent_builder_raises_before_any_write
    fs this expected_builder_dicts modifications modification builder :
  Results._read_dicts_from_root fs (Results._expected_root this) "*.json"
    = inr expected_builder_dicts →
  modification ∈ modifications →
  Results.mod_builder modification = inr (PStr builder) →
  expected_builder_dicts !! builder = None →
  (∃ e, Results.edit_expectations this modifications fs = (inl e, fs)) ∧
  (∀ before after,
     modifications = before ++ modification :: after →
     returns (for_each Results.apply_modification before
                expected_builder_dicts) →
     returns (Results.mod_image_name modification) →
     returns (Results.mod_new_expectations modification) →
     Results.edit_expectations this modifications fs = (inl KeyError, fs)).
Proof.
  intros Hread Hin Hbuilder Habsent. unfold Results.edit_expectations.
  rewrite Hread. simpl. split.
  - destruct (for_each_raises (λ t, dom t = dom expected_builder_dicts)
                Results.apply_modification modifications modification
                expected_builder_dicts) as [e ->]; [| |done..|by eexists].
    + intros m t t' Ht Happly.
      by rewrite (apply_modification_dom _ _ _ Happly).
    + intros t Ht.
      apply (apply_modification_absent_builder _ _ builder); [done|].
      apply not_elem_of_dom. rewrite Ht. by apply not_elem_of_dom.
  - intros before after -> [d' Hbefore] Hname Hnew.
    rewrite for_each_app, Hbefore. simpl.
    destruct (apply_modification_absent_builder modification d' builder)
      as [_ ->]; [done| |done..].
    apply not_elem_of_dom. rewrite (apply_modifications_dom _ _ _ Hbefore).
    by apply not_elem_of_dom.
Qed.
End Writer.

Lemma edit_absent_builder_raises_before_any_write_witness :
  Results.edit_expectations (imports := skia.imports) example.service
    [example.mod_A1; example.mod_B2; example.mod_A2] example.disk
  = (inl KeyError, example.disk).
Proof.
  destruct (Results._read_dicts_from_root (imports := skia.imports)
              example.disk (Results._expected_root example.service)
              "*.json") as [e|d] eqn:Hread.
  { vm_compute in Hread. discriminate. }
  refine (proj2 (edit_absent_builder_raises_before_any_write
                   (imports := skia.imports) example.disk example.service d
                   [example.mod_A1; example.mod_B2; example.mod_A2]
                   example.mod_B2 "B2" Hread _ _ _)
            [example.mod_A1] [example.mod_A2] eq_refl _ _ _).
  - set_solver.
  - reflexivity.
  - vm_compute in Hread. injection Hread as <-. reflexivity.
  - vm_compute in Hread. injection Hread as <-. vm_compute. by eexists.
  - vm_compute. by eexists.
  - vm_compute. by eexists.
Defined.

Section ReadAfterWrite.
Context {imports : Imports}.

Lemma foldl_write_dir meta_dict pattern walk s :
  foldl (Results.write_dir meta_dict pattern) s walk
  = foldl (write_file meta_dict) s (matching_files walk pattern).
Proof.
  unfold matching_files. revert s.
  induction walk as [|[dirpath filenames] walk IH]; intros s;
    [done|].
  rewrite bind_cons, foldl_app. simpl. rewrite IH. f_equal.
  generalize (fnmatch.filter filenames pattern). intros names. revert s.
  unfold Results.write_one, write_file.
  destruct (Results._ignore_builder (os_path.basename dirpath)).
  - induction names as [|name names IHn]; intros s; [done|]. apply IHn.
  - induction names as [|name names IHn]; intros s; [done|].
    simpl. apply IHn.
Qed.

Lemma for_each_read_dir fs pattern walk meta_dict :
  for_each (Results.read_dir fs pattern) walk meta_dict
  = for_each (read_file fs) (matching_files walk pattern) meta_dict.
Proof.
  unfold matching_files. revert meta_dict.
  induction walk as [|[dirpath filenames] walk IH]; intros meta_dict;
    [done|].
  rewrite bind_cons, for_each_app. simpl.
  assert (for_each (Results.read_one fs dirpath)
            (fnmatch.filter filenames pattern) meta_dict
          = for_each (read_file fs)
              (if Results._ignore_builder (os_path.basename dirpath)
               then []
               else pair dirpath <$> fnmatch.filter filenames pattern)
              meta_dict) as ->.
  { generalize (fnmatch.filter filenames pattern). intros names.
    revert meta_dict. unfold Results.read_one, read_file.
    destruct (Results._ignore_builder (os_path.basename dirpath)).
    - induction names as [|name names IHn]; intros m; [done|]. apply IHn.
    - induction names as [|name names IHn]; intros m; [done|].
      simpl. destruct (gm_json.LoadFromFile _ _); simpl; [done|]. apply IHn. }
  destruct (for_each (read_file fs) _ meta_dict); simpl; [done|]. apply IH.
Qed.

Lemma write_file_cases meta_dict s fullpath :
  (written_file meta_dict fullpath ∧
   write_file meta_dict s fullpath
   = (gm_json.WriteToFile
        (default PNone (meta_dict !! os_path.basename fullpath.1))
        fullpath s.1,
      s.2 ++ [os_path.basename fullpath.1])) ∨
  (¬ written_file meta_dict fullpath ∧ write_file meta_dict s fullpath = s).
Proof.
  unfold write_file, written_file.
  destruct (meta_dict !! os_path.basename fullpath.1) as [v|] eqn:Hv; simpl.
  - destruct v; try (left; split; [by eexists|done]).
    right. split; [|done]. intros (v & [= <-] & Hne). done.
  - right. split; [|done]. intros (v & Hv' & _). discriminate.
Qed.

Lemma write_files_walk meta_dict files s :
  fs_walk (foldl (write_file meta_dict) s files).1 = fs_walk s.1.
Proof.
  revert s. induction files as [|k files IH]; intros s; [done|].
  simpl. rewrite IH.
  by destruct (write_file_cases meta_dict s k) as [[_ ->]|[_ ->]].
Qed.

Lemma write_files_other meta_dict files s k :
  k ∉ files →
  fs_files (foldl (write_file meta_dict) s files).1 !! k
  = fs_files s.1 !! k.
Proof.
  revert s. induction files as [|k' files IH]; intros s Hk; [done|].
  apply not_elem_of_cons in Hk as [Hne Hk]. simpl. rewrite IH by done.
  destruct (write_file_cases meta_dict s k') as [[_ ->]|[_ ->]]; [|done].
  simpl. by rewrite lookup_insert_ne.
Qed.

(** After the writer's loop, a file that it wrote holds the dictionary of
    its builder. *)
Lemma write_files_lookup meta_dict files s k :
  k ∈ files → written_file meta_dict k →
  fs_files (foldl (write_file meta_dict) s files).1 !! k
  = meta_dict !! os_path.basename k.1.
Proof.
  revert s. induction files as [|k' files IH]; intros s Hk Hw;
    [by apply elem_of_nil in Hk|].
  simpl. destruct (decide (k ∈ files)) as [Hin|Hnotin]; [by apply IH|].
  apply elem_of_cons in Hk as [->|Hk]; [|done].
  rewrite write_files_other by done.
  destruct (write_file_cases meta_dict s k') as [[_ ->]|[Hnw _]]; [|done].
  simpl. rewrite lookup_insert_eq. by destruct Hw as (v & -> & _).
Qed.

(** The builders that the writer's loop records are those of the files
    that it wrote. *)
Lemma write_files_builders meta_dict files s builder :
  builder ∈ (foldl (write_file meta_dict) s files).2 ↔
  builder ∈ s.2 ∨
  ∃ k, k ∈ files ∧ written_file meta_dict k ∧ builder = os_path.basename k.1.
Proof.
  revert s. induction files as [|k' files IH]; intros s.
  - simpl. split; [by left|]. intros [?|(k & Hk & _)]; [done|].
    by apply elem_of_nil in Hk.
  - simpl. rewrite IH.
    destruct (write_file_cases meta_dict s k') as [[Hw ->]|[Hnw ->]]; simpl.
    + rewrite elem_of_app, list_elem_of_singleton. split.
      * intros [[?| ->]|(k & Hk & Hkw & ->)]; [by left|right..].
        -- exists k'. split; [by left|done].
        -- exists k. split; [by right|done].
      * intros [?|(k & Hk & Hkw & ->)]; [by do 2 left|].
        apply elem_of_cons in Hk as [->|Hk]; [by left; right|].
        right. by exists k.
    + split.
      * intros [?|(k & Hk & Hkw & ->)]; [by left|right].
        exists k. split; [by right|done].
      * intros [?|(k & Hk & Hkw & ->)]; [by left|].
        apply elem_of_cons in Hk as [->|Hk]; [done|]. right. by exists k.
Qed.

(** The loader's loop returns only when it could load every file, and
    then the builders of the files are the keys it added. *)
Lemma read_files_inr fs files meta_dict meta_dict' :
  for_each (read_file fs) files meta_dict = inr meta_dict' →
  ∀ builder,
    builder ∈ dom meta_dict' ↔
    builder ∈ dom meta_dict ∨
    ∃ k, k ∈ files ∧ builder = os_path.basename k.1.
Proof.
  revert meta_dict. induction files as [|k files IH];
    intros meta_dict Hread builder.
  - injection Hread as <-. split; [by left|].
    intros [?|(k & Hk & _)]; [done|]. by apply elem_of_nil in Hk.
  - simpl in Hread. apply bind_inr in Hread as (m & Hk & Hread).
    unfold read_file in Hk. apply bind_inr in Hk as (v & _ & [= <-]).
    rewrite (IH _ Hread), dom_insert, elem_of_union, elem_of_singleton.
    split.
    + intros [[->|?]|(k' & Hk' & ->)]; [right|by left|right].
      * exists k. split; [by left|done].
      * exists k'. split; [by right|done].
    + intros [?|(k' & Hk' & ->)]; [by left; right|].
      apply elem_of_cons in Hk' as [->|Hk']; [by left; left|].
      right. by exists k'.
Qed.

Lemma read_file_Some fs k v meta_dict :
  fs_files fs !! k = Some v →
  read_file fs k meta_dict = inr (<[os_path.basename k.1 := v]> meta_dict).
Proof. intros Hk. unfold read_file, gm_json.LoadFromFile. by rewrite Hk. Qed.

(** Reading files that hold the dictionaries of a tree gives the entries of
    that tree. *)
Lemma read_files_back fs files (tree meta_dict : gmap string pyval) :
  (∀ k, k ∈ files →
        is_Some (tree !! os_path.basename k.1) ∧
        fs_files fs !! k = tree !! os_path.basename k.1) →
  ∃ meta_dict',
    for_each (read_file fs) files meta_dict = inr meta_dict' ∧
    ∀ builder,
      meta_dict' !! builder
      = if decide (builder ∈ (λ k, os_path.basename k.1) <$> files)
        then tree !! builder else meta_dict !! builder.
Proof.
  revert meta_dict. induction files as [|k files IH]; intros meta_dict Hfiles.
  - exists meta_dict. split; [done|]. intros builder.
    case_decide as Hex; [|done]. by apply elem_of_nil in Hex.
  - destruct (Hfiles k) as [[v Hv] Hk]; [by left|].
    destruct (IH (<[os_path.basename k.1 := v]> meta_dict))
      as (m & Hread & Hm).
    { intros k' Hk'. apply Hfiles. by right. }
    exists m. split.
    { change (read_file fs k meta_dict ≫= for_each (read_file fs) files
              = inr m).
      rewrite (read_file_Some fs k v) by congruence. exact Hread. }
    intros builder. rewrite Hm, fmap_cons.
    destruct (decide (builder ∈ (λ k, os_path.basename k.1) <$> files))
      as [Hin|Hno].
    + rewrite decide_True; [done|]. by right.
    + destruct (decide (builder = os_path.basename k.1)) as [->|Hne].
      * rewrite lookup_insert_eq, decide_True; [done|]. by left.
      * rewrite lookup_insert_ne by done. rewrite decide_False; [done|].
        intros [?|?]%elem_of_cons; done.
Qed.

Lemma elem_of_keys (d : gmap string pyval) (k : string) :
  k ∈ keys d ↔ is_Some (d !! k).
Proof.
  unfold keys. rewrite list_elem_of_fmap. split.
  - intros ([k' v] & -> & Hkv). apply elem_of_map_to_list in Hkv. by eexists.
  - intros [v Hv]. exists (k, v). split; [done|].
    by apply elem_of_map_to_list.
Qed.

Lemma sorted_Permutation (l : list string) : sorted l ≡ₚ l.
Proof. apply merge_sort_Permutation. Qed.

(** When the writer returns, the loader reads back the tree that was
    written, provided the tree has the builders that the loader found. *)
Lemma write_then_read fs fs' root pattern (loaded tree : gmap string pyval) :
  Results._read_dicts_from_root fs root pattern = inr loaded →
  dom tree = dom loaded →
  Results._write_dicts_to_root tree root pattern fs = (inr (), fs') →
  Results._read_dicts_from_root fs' root pattern = inr tree.
Proof.
  unfold Results._read_dicts_from_root, Results._write_dicts_to_root.
  unfold os_path.isdir, os.walk.
  intros Hread Hdom Hwrite.
  destruct (negb (bool_decide (is_Some (fs_walk fs !! root)))) eqn:Hdir;
    [discriminate|].
  rewrite for_each_read_dir in Hread. rewrite foldl_write_dir in Hwrite.
  set (files := matching_files (default [] (fs_walk fs !! root)) pattern)
    in *.
  pose proof (write_files_walk tree files (fs, [])) as Hwalk.
  pose proof (write_files_builders tree files (fs, [])) as Hbuilders.
  pose proof (λ k, write_files_lookup tree files (fs, []) k) as Hlookup.
  destruct (foldl (write_file tree) (fs, []) files) as [fs1 written].
  simpl in Hwalk, Hbuilders, Hlookup.
  case_bool_decide as Hsorted; [discriminate|].
  injection Hwrite as <-.
  assert (keys tree ≡ₚ written) as Hperm.
  { by rewrite <-(sorted_Permutation (keys tree)), Hsorted,
      sorted_Permutation. }
  assert (∀ b, b ∈ dom tree ↔ ∃ k, k ∈ files ∧ b = os_path.basename k.1)
    as Hdomtree.
  { intros b. rewrite Hdom, (read_files_inr _ _ _ _ Hread b), dom_empty.
    split; [intros [?%not_elem_of_empty|?]; done|by right]. }
  assert (∀ k, k ∈ files → written_file tree k) as Hwritten.
  { intros k Hk.
    assert (os_path.basename k.1 ∈ dom tree) as [v Hv]%elem_of_dom.
    { apply Hdomtree. by exists k. }
    exists v. split; [done|]. intros ->.
    assert (os_path.basename k.1 ∈ written) as Hin.
    { rewrite <-Hperm. apply elem_of_keys. by eexists. }
    apply Hbuilders in Hin as [Hin|(k' & _ & (v' & Hv' & Hne) & Heq)].
    - by apply elem_of_nil in Hin.
    - rewrite Heq in Hv. congruence. }
  rewrite Hwalk, Hdir, for_each_read_dir. fold files.
  destruct (read_files_back fs1 files tree ∅) as (m & -> & Hm).
  { intros k Hk. split.
    - destruct (Hwritten k Hk) as (v & -> & _). by eexists.
    - apply Hlookup; [done|]. by apply Hwritten. }
  f_equal. apply map_eq. intros b. rewrite Hm. case_decide as Hb; [done|].
  rewrite lookup_empty. symmetry. apply not_elem_of_dom.
  intros (k & Hk & ->)%Hdomtree. apply Hb, list_elem_of_fmap. by exists k.
Qed.
End ReadAfterWrite.

Section LastModificationWins.
Context {imports : Imports}.

Lemma stored_expectations_inr d builder image_name v :
  stored_expectations d builder image_name = inr v ↔
  ∃ builder_dict expected_results,
    d !! builder = Some (PDict builder_dict) ∧
    builder_dict !! JSONKEY_EXPECTEDRESULTS = Some (PDict expected_results) ∧
    expected_results !! image_name = Some v.
Proof.
  unfold stored_expectations, Results.expectation_entry. simpl. split.
  - destruct (d !! builder) as [[| | | | |bd]|] eqn:Hd; try discriminate.
    simpl.
    destruct (bd !! JSONKEY_EXPECTEDRESULTS) as [[| | | | |er]|] eqn:Her;
      try discriminate. simpl.
    destruct (er !! image_name) as [w|] eqn:Hw; [|discriminate].
    intros [= <-]. by exists bd, er.
  - intros (bd & er & -> & Her & Hv). simpl. rewrite Her. simpl.
    by rewrite Hv.
Qed.

(** A modification that applies stores its new expectations, and nothing
    else, as the entry of the image it names. *)
Lemma apply_modification_stores modification d d' builder image_name new :
  Results.apply_modification modification d = inr d' →
  targets modification builder image_name →
  Results.mod_new_expectations modification = inr new →
  stored_expectations d' builder image_name = inr (PDict new).
Proof.
  intros (i & n & b & bd & prior & Hi & Hn & Hb & _ & _ & ->)%apply_modification_inr
    [Hbuilder Hname] Hnew.
  assert (b = builder) as -> by congruence.
  assert (i = image_name) as -> by congruence.
  assert (n = new) as -> by congruence.
  apply stored_expectations_inr. do 2 eexists.
  split; [apply lookup_insert_eq|].
  split; apply lookup_insert_eq.
Qed.

(** It keeps the entries of the other images. *)
Lemma apply_modification_keeps modification d d' builder image_name v :
  Results.apply_modification modification d = inr d' →
  ¬ targets modification builder image_name →
  stored_expectations d builder image_name = inr v →
  stored_expectations d' builder image_name = inr v.
Proof.
  intros (i & n & b & bd & prior & Hi & Hn & Hb & Hbd & Hprior & ->)
           %apply_modification_inr
         Hother (bd' & er & Hd & Her & Hv)%stored_expectations_inr.
  apply stored_expectations_inr.
  destruct (decide (b = builder)) as [->|Hne].
  - assert (bd' = bd) as -> by congruence.
    rewrite Her in Hprior. simpl in Hprior.
    assert (size er ≠ 0) as Hsize.
    { intros Hempty%map_size_empty_iff. subst er.
      by rewrite lookup_empty in Hv. }
    rewrite bool_decide_false in Hprior by done. simpl in Hprior.
    injection Hprior as <-.
    do 2 eexists. split; [apply lookup_insert_eq|].
    split; [apply lookup_insert_eq|]. rewrite lookup_insert_ne; [done|].
    intros ->. by apply Hother.
  - exists bd', er. by rewrite lookup_insert_ne.
Qed.

End LastModificationWins.


(** ** Reconciliation *)

Section Reconciliation.
Context {imports : Imports}.

Lemma getitem_inl v k e :
  getitem v k = inl e → e = KeyError ∨ e = TypeError.
Proof.
  destruct v as [| | | | |d]; simpl; try (intros [= <-]; by right).
  destruct (d !! k); [discriminate|]. intros [= <-]. by left.
Qed.

Lemma expectation_entry_inl expected builder image_name e :
  Results.expectation_entry expected builder image_name = inl e →
  e = KeyError ∨ e = TypeError.
Proof.
  unfold Results.expectation_entry.
  destruct (getitem (PDict expected) builder) as [e1|v1] eqn:H1; simpl.
  { intros [= <-]. by apply getitem_inl in H1. }
  destruct (getitem v1 JSONKEY_EXPECTEDRESULTS) as [e2|v2] eqn:H2; simpl.
  { intros [= <-]. by apply getitem_inl in H2. }
  apply getitem_inl.
Qed.

(** Without an expectation entry, the handler of the first [try] leaves
    the expected image and the expectations at [None] and warns unless the
    result type is NOCOMPARISON. *)
Lemma find_expectations_no_entry expected builder result_type image_name test
    st e :
  Results.expectation_entry expected builder image_name = inl e →
  Results.find_expectations expected builder result_type image_name test st
  = inr (None, None,
         if bool_decide (result_type ≠ KEY__RESULT_TYPE__NOCOMPARISON)
         then Results.logging
                (Results.no_expectations_found builder result_type image_name)
                st
         else st).
Proof.
  intros Hentry. unfold Results.find_expectations, Results.try_expectations.
  rewrite Hentry. simpl.
  by destruct (expectation_entry_inl _ _ _ _ Hentry) as [-> | ->];
    case_bool_decide.
Qed.

Lemma find_expectations_partitions expected builder result_type image_name
    test st url expectations st' :
  Results.find_expectations expected builder result_type image_name test st
  = inr (url, expectations, st') →
  Results.all_image_pairs st' = Results.all_image_pairs st ∧
  Results.failing_image_pairs st' = Results.failing_image_pairs st.
Proof.
  unfold Results.find_expectations.
  destruct (Results.try_expectations _ _ _ _) as [[]|[u d]];
    try discriminate; try (by intros [= _ _ <-]);
    by case_bool_decide; intros [= _ _ <-].
Qed.

Lemma prepare_image_inr expected builder result_type results_of_this_type
    image_name st args st' :
  Results.prepare_image expected builder result_type results_of_this_type
    image_name st = inr (args, st') →
  ∃ test config hashtype_and_digest,
    IMAGE_FILENAME_RE_match image_name = Some (test, config) ∧
    getitem results_of_this_type image_name = inr hashtype_and_digest ∧
    Results._create_relative_url hashtype_and_digest test
      = inr (Results.arg_imageB_relative_url args) ∧
    Results.find_expectations expected builder result_type image_name test st
      = inr (Results.arg_imageA_relative_url args,
             Results.arg_expectations args, st') ∧
    Results.arg_updated_result_type args
      = Results.updated_result_type_of (Results.arg_imageA_relative_url args)
          (Results.arg_imageB_relative_url args) result_type ∧
    Results.arg_extra_columns args
      = Results.extra_columns_of (Results.arg_updated_result_type args)
          builder test config.
Proof.
  unfold Results.prepare_image. intros Hprep.
  destruct (IMAGE_FILENAME_RE_match image_name) as [[test config]|];
    [|discriminate]. simpl in Hprep.
  apply bind_inr in Hprep as (hd & Hhd & Hprep).
  apply bind_inr in Hprep as (actual & Hactual & Hprep).
  apply bind_inr in Hprep as ([[url expectations] st1] & Hfind & [= <- <-]).
  by exists test, config, hd.
Qed.

(** The second [try]: either the diff store returns and the record is added,
    or it raises and only the log changes. *)
Lemma add_image_cases args st :
  (∃ d,
     image_diff_db GM_ACTUALS_ROOT_HTTP_URL
       (Results.arg_imageA_relative_url args)
       (Results.arg_imageB_relative_url args) (Results.arg_expectations args)
       (Results.arg_extra_columns args) = inr d ∧
     let p :=
       mkImagePair GM_ACTUALS_ROOT_HTTP_URL
         (Results.arg_imageA_relative_url args)
         (Results.arg_imageB_relative_url args)
         (Results.arg_expectations args) (Results.arg_extra_columns args) d in
     Results.add_image args st
     = Results.mkLoadState
         (imagepairset.add_image_pair p (Results.all_image_pairs st))
         (if bool_decide (Results.arg_updated_result_type args
                          ≠ KEY__RESULT_TYPE__SUCCEEDED)
          then imagepairset.add_image_pair p (Results.failing_image_pairs st)
          else Results.failing_image_pairs st)
         (Results.log st)) ∨
  (∃ e,
     image_diff_db GM_ACTUALS_ROOT_HTTP_URL
       (Results.arg_imageA_relative_url args)
       (Results.arg_imageB_relative_url args) (Results.arg_expectations args)
       (Results.arg_extra_columns args) = inl e ∧
     Results.add_image args st
     = Results.logging (Exception_creating_ImagePair e) st).
Proof.
  unfold Results.add_image, imagepair.ImagePair_init.
  destruct (image_diff_db _ _ _ _ _) as [e|d]; simpl; [right|left]; eauto.
Qed.

Lemma final_classification_columns p updated_result_type builder test config :
  result_type_key_apart →
  extra_columns_dict p
  = Results.extra_columns_of updated_result_type builder test config →
  final_classification p = Some (PStr updated_result_type).
Proof.
  unfold result_type_key_apart, final_classification,
    Results.extra_columns_of.
  intros Hapart ->.
  rewrite lookup_insert_ne, lookup_insert_ne, lookup_insert_ne;
    [apply lookup_insert_eq|..];
    intros Heq; apply Hapart; rewrite <-Heq, !elem_of_cons; auto.
Qed.

Lemma is_succeeded_columns p updated_result_type builder test config :
  result_type_key_apart →
  extra_columns_dict p
  = Results.extra_columns_of updated_result_type builder test config →
  is_succeeded p
  = bool_decide (updated_result_type = KEY__RESULT_TYPE__SUCCEEDED).
Proof.
  intros Hapart Hcolumns. unfold is_succeeded.
  by rewrite (final_classification_columns _ _ _ _ _ Hapart Hcolumns).
Qed.

(** An invariant of the state of [reconcile]: it holds of the final state
    when it holds of the image pair sets as they are created, logging keeps
    it, and so does the body of the innermost loop, run on an image that the
    actual tree lists under a result type of a builder. *)
Lemma reconcile_invariant (P : Results.load_state → Prop)
    actual expected diff_base_url log st :
  P (Results.initial_load_state diff_base_url log) →
  (∀ r t, P t → P (Results.logging r t)) →
  (∀ builder builder_dict actual_results result_type results_of_this_type
     image_name t t',
     getitem (PDict actual) builder = inr builder_dict →
     getitem builder_dict JSONKEY_ACTUALRESULTS = inr actual_results →
     getitem actual_results result_type = inr results_of_this_type →
     P t →
     Results.process_image expected builder result_type results_of_this_type
       image_name t = inr t' →
     P t') →
  Results.reconcile actual expected diff_base_url log = inr st →
  P st.
Proof.
  intros Hinit Hlog Hbody. unfold Results.reconcile. intros Hloop.
  apply bind_inr in Hloop as (s & Hloop & [= <-]).
  revert Hloop. apply (for_each_invariant (λ s, P s.2)); [|done].
  intros builder [n t] [n' t'] _ Ht Hbuilder. simpl in Ht |- *.
  unfold Results.process_builder in Hbuilder.
  apply bind_inr in Hbuilder as (builder_dict & Hdict & Hbuilder).
  apply bind_inr in Hbuilder as (actual_results & Hresults & Hbuilder).
  apply bind_inr in Hbuilder as (result_types & _ & Hbuilder).
  apply bind_inr in Hbuilder as (u & Htypes & [= _ <-]).
  revert Htypes. apply (for_each_invariant P); [|by apply Hlog].
  intros result_type v v' _ Hv Htype. unfold Results.process_result_type in Htype.
  apply bind_inr in Htype as (results_of_this_type & Hthis & Htype).
  destruct (negb (truthy results_of_this_type)); [by injection Htype as <-|].
  apply bind_inr in Htype as (image_names & _ & Himages).
  revert Himages. apply (for_each_invariant P); [|done].
  intros image_name w w' _. by apply Hbody with builder_dict actual_results.
Qed.

Lemma process_image_reconciled actual expected builder builder_dict
    actual_results result_type results_of_this_type image_name st st' :
  result_type_key_apart →
  getitem (PDict actual) builder = inr builder_dict →
  getitem builder_dict JSONKEY_ACTUALRESULTS = inr actual_results →
  getitem actual_results result_type = inr results_of_this_type →
  partitions_reconciled actual expected st →
  Results.process_image expected builder result_type results_of_this_type
    image_name st = inr st' →
  partitions_reconciled actual expected st'.
Proof.
  intros key_apart Hbuilder Hresults Htype [Hall Hfailing] Hprocess.
  unfold Results.process_image in Hprocess.
  apply bind_inr in Hprocess as ([args st1] & Hprepare & [= <-]).
  apply prepare_image_inr in Hprepare
    as (test & config & hd & Hmatch & Hhd & Hactual & Hfind & Hupdated
        & Hcolumns).
  destruct (find_expectations_partitions _ _ _ _ _ _ _ _ _ Hfind)
    as [Hall1 Hfailing1].
  destruct (add_image_cases args st1) as [(d & Hdiff & ->)|(e & _ & ->)];
    [|by split; simpl; rewrite ?Hall1, ?Hfailing1].
  set (p := mkImagePair _ _ _ _ _ d).
  assert (is_succeeded p
          = bool_decide (Results.arg_updated_result_type args
                         = KEY__RESULT_TYPE__SUCCEEDED)) as Hsucceeded.
  { by apply (is_succeeded_columns p _ builder test config). }
  split; simpl.
  - rewrite Hall1. intros q [Hq|Hq%list_elem_of_singleton]%elem_of_app;
      [by apply Hall|]. subst q.
    exists builder, result_type, image_name, test, config, hd, st, st1.
    split; [done|]. split.
    { unfold actual_entry. rewrite Hbuilder. simpl. rewrite Hresults. simpl.
      by rewrite Htype. }
    split; [done|]. split; [done|]. split; [|done].
    simpl. by rewrite Hcolumns, Hupdated.
  - rewrite Hall1, Hfailing1, List.filter_app.
    cbn [List.filter]. rewrite Hsucceeded, <-Hfailing.
    repeat case_bool_decide; try done; simpl; by rewrite ?app_nil_r.
Qed.

Lemma reconcile_reconciled actual expected diff_base_url log st :
  result_type_key_apart →
  Results.reconcile actual expected diff_base_url log = inr st →
  partitions_reconciled actual expected st.
Proof.
  intros key_apart. apply reconcile_invariant.
  - split; [|done]. intros p Hp. by apply elem_of_nil in Hp.
  - by intros r t.
  - intros. by eapply process_image_reconciled.
Qed.

Lemma reconcile_failing_sublist actual expected diff_base_url log st :
  Results.reconcile actual expected diff_base_url log = inr st →
  image_pairs (Results.failing_image_pairs st)
    `sublist_of` image_pairs (Results.all_image_pairs st).
Proof.
  apply (reconcile_invariant
           (λ t, image_pairs (Results.failing_image_pairs t)
                   `sublist_of` image_pairs (Results.all_image_pairs t))).
  - done.
  - by intros r t.
  - intros builder _ _ result_type results_of_this_type image_name t t'
      _ _ _ Ht Hprocess.
    unfold Results.process_image in Hprocess.
    apply bind_inr in Hprocess as ([args t1] & Hprepare & [= <-]).
    apply prepare_image_inr in Hprepare as (test & _ & _ & _ & _ & _ & Hfind & _).
    destruct (find_expectations_partitions _ _ _ _ _ _ _ _ _ Hfind)
      as [Hall1 Hfailing1].
    destruct (add_image_cases args t1) as [(d & _ & ->)|(e & _ & ->)];
      simpl; rewrite ?Hall1, ?Hfailing1; [|done].
    case_bool_decide; simpl; rewrite ?Hfailing1.
    + by apply sublist_app.
    + by apply sublist_inserts_r.
Qed.

(** C2: a record whose expected image reference equals its actual image
    reference is classified SUCCEEDED, under whatever result type the actual
    tree lists its image, and it is not among the failures. *)
Theorem equal_references_are_classified_succeeded
    actual expected diff_base_url log st p :
  result_type_key_apart →
  Results.reconcile actual expected diff_base_url log = inr st →
  p ∈ image_pairs (Results.all_image_pairs st) →
  imageA_relative_url p = imageB_relative_url p →
  final_classification p = Some (PStr KEY__RESULT_TYPE__SUCCEEDED) ∧
  p ∉ image_pairs (Results.failing_image_pairs st).
Proof.
  intros key_apart Hreconcile Hp Hequal.
  destruct (reconcile_reconciled _ _ _ _ _ key_apart Hreconcile)
    as [Hall Hfailing].
  destruct (Hall p Hp)
    as (builder & result_type & image_name & test & config & _ & _ & _ & _
        & _ & _ & _ & Hcolumns & _).
  assert (final_classification p = Some (PStr KEY__RESULT_TYPE__SUCCEEDED))
    as Hclass.
  { rewrite (final_classification_columns _ _ _ _ _ key_apart Hcolumns).
    unfold Results.updated_result_type_of. by rewrite bool_decide_true. }
  split; [done|]. rewrite Hfailing, list_elem_of_In, List.filter_In.
  intros [_ Hnot]. unfold is_succeeded in Hnot. rewrite Hclass in Hnot.
  by rewrite bool_decide_true in Hnot.
Qed.

(** C1, as the code has it: the record that reconciliation makes of an
    image is classified SUCCEEDED when its expected and its actual image
    reference are equal, also when both are null, and keeps the result type
    under which the actual tree lists the image otherwise. *)
Theorem classification_of_reconciled_records
    actual expected diff_base_url log st p :
  result_type_key_apart →
  Results.reconcile actual expected diff_base_url log = inr st →
  p ∈ image_pairs (Results.all_image_pairs st) →
  ∃ builder result_type image_name,
    reconciled actual expected builder result_type image_name p ∧
    final_classification p
    = Some (PStr (if bool_decide (imageA_relative_url p
                                  = imageB_relative_url p)
                  then KEY__RESULT_TYPE__SUCCEEDED
                  else result_type)).
Proof.
  intros key_apart Hreconcile Hp.
  destruct (reconcile_reconciled _ _ _ _ _ key_apart Hreconcile) as [Hall _].
  destruct (Hall p Hp) as (builder & result_type & image_name & Hrec).
  exists builder, result_type, image_name. split; [done|].
  destruct Hrec as (test & config & _ & _ & _ & _ & _ & _ & _ & Hcolumns & _).
  by rewrite (final_classification_columns _ _ _ _ _ key_apart Hcolumns).
Qed.

(** C10: the failures are records of the all-records partition, and, the
    result-type column being readable, exactly those whose classification is
    not SUCCEEDED, in the same order. *)
Theorem failures_are_records_that_did_not_succeed
    actual expected diff_base_url log st :
  Results.reconcile actual expected diff_base_url log = inr st →
  (∀ p, p ∈ image_pairs (Results.failing_image_pairs st) →
        p ∈ image_pairs (Results.all_image_pairs st)) ∧
  (result_type_key_apart →
   image_pairs (Results.failing_image_pairs st)
   = List.filter (λ p, negb (is_succeeded p))
       (image_pairs (Results.all_image_pairs st)) ∧
   ∀ p, p ∈ image_pairs (Results.failing_image_pairs st) →
        final_classification p ≠ Some (PStr KEY__RESULT_TYPE__SUCCEEDED)).
Proof.
  intros Hreconcile. split.
  - intros p Hp. eapply elem_of_sublist; [done|].
    by eapply reconcile_failing_sublist.
  - intros key_apart.
    destruct (reconcile_reconciled _ _ _ _ _ key_apart Hreconcile)
      as [_ Hfailing].
    split; [done|]. intros p. rewrite Hfailing, list_elem_of_In, List.filter_In.
    intros [_ Hnot] Hclass. unfold is_succeeded in Hnot.
    rewrite Hclass in Hnot. by rewrite bool_decide_true in Hnot.
Qed.

Lemma warnings_logging r st :
  warnings (Results.log (Results.logging r st))
  = warnings (Results.log st) ++ (if is_warning r then [r] else []).
Proof.
  unfold warnings. simpl. rewrite List.filter_app. simpl.
  by destruct (is_warning r).
Qed.

(** The warning that the handler builds names the builder, the result type
    and the image it is built from. *)
Lemma no_expectations_found_names builder result_type image_name :
  warning_keys_apart →
  warning_names (Results.no_expectations_found builder result_type image_name)
    builder result_type image_name.
Proof.
  intros Hapart.
  apply NoDup_cons in Hapart as [Hbuilder Hapart].
  apply NoDup_cons in Hapart as [Htype _].
  apply not_elem_of_cons in Hbuilder as [Hbt Hbuilder].
  apply not_elem_of_cons in Hbuilder as [Hbi _].
  apply not_elem_of_cons in Htype as [Hti _].
  eexists. split; [reflexivity|]. split; [|split; [|split]].
  - rewrite !lookup_insert_ne by done. apply lookup_insert_eq.
  - rewrite lookup_insert_ne by done. apply lookup_insert_eq.
  - apply lookup_insert_eq.
  - intros key [v Hkey].
    apply lookup_insert_Some in Hkey as [[<- _]|[_ Hkey]];
      [by do 2 right; left|].
    apply lookup_insert_Some in Hkey as [[<- _]|[_ Hkey]];
      [by right; left|].
    apply lookup_insert_Some in Hkey as [[<- _]|[_ Hkey]]; [by left|].
    by rewrite lookup_empty in Hkey.
Qed.

(** C4: for an image without expectation entry, the body of the loop
    returns; it logs no warning when the result type is NOCOMPARISON and
    otherwise exactly one, which names the builder, the result type and the
    image: its dictionary gives the three under their keys, when these are
    three different keys; the expected image reference and the expectations
    of the record are null. *)
Theorem missing_expectation_warns_once_unless_no_comparison
    expected builder result_type results_of_this_type image_name test config
    hashtype_and_digest actual_url st e :
  IMAGE_FILENAME_RE_match image_name = Some (test, config) →
  getitem results_of_this_type image_name = inr hashtype_and_digest →
  Results._create_relative_url hashtype_and_digest test = inr actual_url →
  Results.expectation_entry expected builder image_name = inl e →
  ∃ args st1 st',
    Results.prepare_image expected builder result_type results_of_this_type
      image_name st = inr (args, st1) ∧
    Results.arg_imageA_relative_url args = None ∧
    Results.arg_expectations args = None ∧
    Results.process_image expected builder result_type results_of_this_type
      image_name st = inr st' ∧
    warnings (Results.log st')
    = warnings (Results.log st) ++
      (if bool_decide (result_type = KEY__RESULT_TYPE__NOCOMPARISON) then []
       else [Results.no_expectations_found builder result_type image_name]) ∧
    (warning_keys_apart →
     warning_names
       (Results.no_expectations_found builder result_type image_name)
       builder result_type image_name) ∧
    ∀ p, p ∈ image_pairs (Results.all_image_pairs st') →
         p ∈ image_pairs (Results.all_image_pairs st) ∨
         imageA_relative_url p = None ∧ expectations_dict p = None.
Proof.
  intros Hmatch Hactual Hurl Hentry.
  pose proof (find_expectations_no_entry expected builder result_type
                image_name test st e Hentry) as Hfind.
  set (st1 := if bool_decide (result_type ≠ KEY__RESULT_TYPE__NOCOMPARISON)
              then Results.logging
                     (Results.no_expectations_found builder result_type
                        image_name) st
              else st) in *.
  set (updated := Results.updated_result_type_of None actual_url result_type).
  set (args := Results.mkArgs None actual_url None
                 (Results.extra_columns_of updated builder test config)
                 updated).
  assert (Results.prepare_image expected builder result_type
            results_of_this_type image_name st = inr (args, st1)) as Hprepare.
  { unfold Results.prepare_image. rewrite Hmatch. simpl. rewrite Hactual.
    simpl. rewrite Hurl. simpl. by rewrite Hfind. }
  exists args, st1, (Results.add_image args st1).
  split; [done|]. split; [done|]. split; [done|]. split.
  { unfold Results.process_image. by rewrite Hprepare. }
  assert (warnings (Results.log st1)
          = warnings (Results.log st) ++
            (if bool_decide (result_type = KEY__RESULT_TYPE__NOCOMPARISON)
             then []
             else [Results.no_expectations_found builder result_type
                     image_name])) as Hwarnings.
  { unfold st1. repeat case_bool_decide; try done.
    - by rewrite warnings_logging.
    - by rewrite app_nil_r. }
  assert (Results.all_image_pairs st1 = Results.all_image_pairs st) as Hall.
  { unfold st1. by destruct (bool_decide _). }
  destruct (add_image_cases args st1) as [(d & _ & ->)|(e' & _ & ->)].
  - simpl. split; [done|].
    split; [apply no_expectations_found_names|]. rewrite Hall.
    intros p [Hp|Hp%list_elem_of_singleton]%elem_of_app; [by left|].
    right. by subst p.
  - split; [by rewrite warnings_logging, app_nil_r|].
    split; [apply no_expectations_found_names|].
    simpl. intros p Hp. left. by rewrite <-Hall.
Qed.


(** No record of a partition is one for which the diff store raised. *)
Lemma reconciled_records_have_a_diff actual expected diff_base_url log st p :
  Results.reconcile actual expected diff_base_url log = inr st →
  p ∈ image_pairs (Results.all_image_pairs st) →
  image_diff_db (base_url p) (imageA_relative_url p) (imageB_relative_url p)
    (expectations_dict p) (extra_columns_dict p) = inr (diff_record p).
Proof.
  intros Hreconcile. revert p. revert Hreconcile.
  apply (reconcile_invariant
           (λ t, ∀ p, p ∈ image_pairs (Results.all_image_pairs t) →
                      image_diff_db (base_url p) (imageA_relative_url p)
                        (imageB_relative_url p) (expectations_dict p)
                        (extra_columns_dict p) = inr (diff_record p))).
  - intros p Hp. by apply elem_of_nil in Hp.
  - by intros r t.
  - intros builder _ _ result_type results_of_this_type image_name t t'
      _ _ _ Ht Hprocess.
    unfold Results.process_image in Hprocess.
    apply bind_inr in Hprocess as ([args t1] & Hprepare & [= <-]).
    apply prepare_image_inr in Hprepare
      as (test & _ & _ & _ & _ & _ & Hfind & _).
    destruct (find_expectations_partitions _ _ _ _ _ _ _ _ _ Hfind)
      as [Hall1 _].
    destruct (add_image_cases args t1) as [(d & Hd & ->)|(e & _ & ->)];
      simpl; rewrite Hall1; [|done].
    intros p [Hp|Hp%list_elem_of_singleton]%elem_of_app; [by apply Ht|].
    by subst p.
Qed.
End Reconciliation.

(** ** The packaged results *)

Section Service.
Context {imports : Imports}.

Lemma get_packaged_results_of_type_inr this results_type reload_seconds
    is_editable is_exported response this' :
  Results.get_packaged_results_of_type this results_type reload_seconds
    is_editable is_exported = inr (response, this') →
  ∃ stored data_hash,
    Results._results this !! results_type = Some stored ∧
    Results.data_hash_of stored = inr data_hash ∧
    response
    = <[KEY__HEADER :=
          PDict (Results.header_of (Results._timestamp this) reload_seconds
                   results_type data_hash is_editable is_exported)]> stored ∧
    Results._results this'
    = <[results_type := response]> (Results._results this) ∧
    Results._timestamp this' = Results._timestamp this.
Proof.
  unfold Results.get_packaged_results_of_type, Results.get_results_of_type.
  intros Hpackaged.
  destruct (Results._results this !! results_type) as [stored|] eqn:Hstored;
    [|discriminate]. simpl in Hpackaged.
  apply bind_inr in Hpackaged as (data_hash & Hhash & [= <- <-]).
  by exists stored, data_hash.
Qed.

(** The header does not change the hash of the image pairs when it is
    stored under another key than they are. *)
Lemma data_hash_of_header stored h :
  KEY__HEADER ≠ KEY__IMAGEPAIRS →
  Results.data_hash_of (<[KEY__HEADER := h]> stored)
  = Results.data_hash_of stored.
Proof.
  intros Hne. unfold Results.data_hash_of. simpl.
  by rewrite lookup_insert_ne.
Qed.

Lemma data_token_header_of response time_updated reload_seconds results_type
    data_hash is_editable is_exported :
  KEY__HEADER__DATAHASH ∉
    [KEY__HEADER__IS_EDITABLE; KEY__HEADER__IS_EXPORTED] →
  header response
  = Some (PDict (Results.header_of time_updated reload_seconds results_type
                   data_hash is_editable is_exported)) →
  data_token response = Some (PStr data_hash).
Proof.
  intros Hapart Hheader. unfold data_token. rewrite Hheader.
  unfold Results.header_of.
  rewrite lookup_insert_ne, lookup_insert_ne; [apply lookup_insert_eq|..];
    intros Heq; apply Hapart; rewrite <-Heq, !elem_of_cons; auto.
Qed.

(** C8: a second call of [get_packaged_results_of_type] for the same type
    on the same object, with nothing in between, returns, and the data token
    of its response is the data token of the response of the first call,
    whatever the other arguments of the two calls are. *)
Theorem data_hash_is_stable
    this results_type reload_seconds is_editable is_exported response this'
    reload_seconds' is_editable' is_exported' :
  header_keys_apart →
  Results.get_packaged_results_of_type this results_type reload_seconds
    is_editable is_exported = inr (response, this') →
  ∃ data_hash response' this'',
    Results.get_packaged_results_of_type this' results_type reload_seconds'
      is_editable' is_exported' = inr (response', this'') ∧
    data_token response = Some (PStr data_hash) ∧
    data_token response' = Some (PStr data_hash).
Proof.
  intros [Hne Hapart]
    (stored & data_hash & Hstored & Hhash & -> & Hresults & Htime)
      %get_packaged_results_of_type_inr.
  exists data_hash. do 2 eexists. split; [|split].
  - unfold Results.get_packaged_results_of_type, Results.get_results_of_type,
      Results.get_timestamp.
    rewrite Hresults, lookup_insert_eq. simpl.
    rewrite data_hash_of_header, Hhash by done. simpl. reflexivity.
  - eapply data_token_header_of; [done|]. unfold header.
    apply lookup_insert_eq.
  - eapply data_token_header_of; [done|]. unfold header.
    apply lookup_insert_eq.
Qed.

(** The header that packaging builds is a header block, when the keys of
    its fields are seven different keys. *)
Lemma header_of_block time_updated reload_seconds results_type data_hash
    is_editable is_exported :
  header_fields_apart →
  header_block
    (Results.header_of time_updated reload_seconds results_type data_hash
       is_editable is_exported)
    time_updated reload_seconds results_type data_hash is_editable
    is_exported.
Proof.
  intros Hapart. unfold header_fields_apart in Hapart.
  repeat match goal with
         | H : NoDup (_ :: _) |- _ => apply NoDup_cons in H as [? H]
         end.
  repeat match goal with
         | H : _ ∉ _ :: _ |- _ => apply not_elem_of_cons in H as [? H]
         end.
  unfold header_block, Results.header_of.
  repeat split;
    try (rewrite ?lookup_insert_ne by done; apply lookup_insert_eq).
  - rewrite !lookup_insert_ne by done. rewrite lookup_insert_eq.
    destruct reload_seconds as [seconds|]; [|done].
    by destruct (seconds =? 0)%Z.
  - intros key [v Hkey].
    repeat (apply lookup_insert_Some in Hkey as [[<- _]|[_ Hkey]];
            [solve [repeat (first [ by apply list_elem_of_here
                                  | apply list_elem_of_further ])]|]).
    by rewrite lookup_empty in Hkey.
Qed.

(** C9: [get_packaged_results_of_type] stores the header into the results
    that the object holds: afterwards [get_results_of_type] returns, for
    that type, the response with its header, which is not the partition as
    it was.  The response holds the partition as it was under every other
    key, and its header is a header block: it holds the schema version, the
    timestamps, the kind of results, the two flags and, as data token, the
    hash of the image pairs of the partition, when these are seven different
    keys. *)
Theorem packaging_changes_the_stored_results
    this results_type reload_seconds is_editable is_exported raw response
    this' :
  Results.get_results_of_type this results_type = inr raw →
  header raw = None →
  Results.get_packaged_results_of_type this results_type reload_seconds
    is_editable is_exported = inr (response, this') →
  Results.get_results_of_type this' results_type = inr response ∧
  (∃ data_hash,
     header response
     = Some (PDict (Results.header_of (Results._timestamp this)
                      reload_seconds results_type data_hash is_editable
                      is_exported))) ∧
  response ≠ raw ∧
  (∀ key, key ≠ KEY__HEADER → response !! key = raw !! key) ∧
  (header_fields_apart →
   ∃ h image_pairs,
     header response = Some (PDict h) ∧
     raw !! KEY__IMAGEPAIRS = Some image_pairs ∧
     header_block h (Results._timestamp this) reload_seconds results_type
       (py_str (py_hash (py_repr image_pairs))) is_editable is_exported).
Proof.
  intros Hraw Hnone
    (stored & data_hash & Hstored & Hhash & -> & Hresults & Htime)
      %get_packaged_results_of_type_inr.
  unfold Results.get_results_of_type in *. rewrite Hstored in Hraw.
  injection Hraw as ->. split; [|split; [|split; [|split]]].
  - by rewrite Hresults, lookup_insert_eq.
  - exists data_hash. apply lookup_insert_eq.
  - intros Heq. unfold header in Hnone. rewrite <-Heq in Hnone.
    by rewrite lookup_insert_eq in Hnone.
  - intros key Hkey. by apply lookup_insert_ne.
  - intros Hapart. unfold Results.data_hash_of in Hhash. simpl in Hhash.
    destruct (raw !! KEY__IMAGEPAIRS) as [image_pairs|] eqn:Hpairs;
      [|discriminate].
    injection Hhash as <-.
    eexists _, image_pairs. split; [apply lookup_insert_eq|].
    split; [done|]. by apply header_of_block.
Qed.
End Service.

(** ** The properties on the example *)

Lemma example_service :
  match
    Results.__init__ (imports := skia.imports) example.disk "actuals"
      "expected" "workdir" None 1000 1003
  with
  | inr (this, _) => this = example.service
  | inl _ => False
  end.
Proof. vm_compute. reflexivity. Qed.

Lemma skia_result_type_key_apart :
  result_type_key_apart (imports := skia.imports).
Proof.
  intros Hin. repeat (apply elem_of_cons in Hin as [Hin|Hin]; [discriminate|]).
  by apply elem_of_nil in Hin.
Qed.

Lemma example_reconcile :
  Results.reconcile (imports := skia.imports) example.actual_tree
    example.expected_tree "file://diffs" [] = inr example.reconciled_state.
Proof. vm_compute. reflexivity. Qed.

Lemma example_all_records :
  image_pairs (Results.all_image_pairs example.reconciled_state)
  = [example.record_A; example.record_B; example.record_N; example.record_C].
Proof. vm_compute. reflexivity. Qed.

Lemma example_failing_records :
  image_pairs (Results.failing_image_pairs example.reconciled_state)
  = [example.record_B; example.record_C].
Proof. vm_compute. reflexivity. Qed.

Lemma equal_references_are_classified_succeeded_witness :
  final_classification (imports := skia.imports) example.record_A
  = Some (PStr "succeeded") ∧
  example.record_A
    ∉ image_pairs (Results.failing_image_pairs example.reconciled_state).
Proof.
  apply (equal_references_are_classified_succeeded (imports := skia.imports)
           example.actual_tree example.expected_tree "file://diffs" []
           example.reconciled_state example.record_A).
  - apply skia_result_type_key_apart.
  - apply example_reconcile.
  - rewrite example_all_records. by left.
  - reflexivity.
Defined.

Lemma classification_of_reconciled_records_witness :
  ∃ builder result_type image_name,
    reconciled (imports := skia.imports) example.actual_tree
      example.expected_tree builder result_type image_name example.record_B ∧
    final_classification (imports := skia.imports) example.record_B
    = Some (PStr (if bool_decide (None = Some "md5/testB/222.png")
                  then "succeeded" else result_type)).
Proof.
  apply (classification_of_reconciled_records (imports := skia.imports)
           example.actual_tree example.expected_tree "file://diffs" []
           example.reconciled_state example.record_B).
  - apply skia_result_type_key_apart.
  - apply example_reconcile.
  - rewrite example_all_records. right. by left.
Defined.

(** C1 as the specification states it fails on the image [testN] of the
    example: no image is recorded for it and it has no expectations, so that
    both references are null; the actual tree lists it as failed, and its
    record is classified as succeeded. *)
Lemma both_references_null_counterexample :
  Results.reconcile (imports := skia.imports) example.actual_tree
    example.expected_tree "file://diffs" [] = inr example.reconciled_state ∧
  example.record_N
    ∈ image_pairs (Results.all_image_pairs example.reconciled_state) ∧
  reconciled (imports := skia.imports) example.actual_tree
    example.expected_tree "B1" "failed" "testN_565.png" example.record_N ∧
  imageA_relative_url example.record_N = None ∧
  imageB_relative_url example.record_N = None ∧
  final_classification (imports := skia.imports) example.record_N
  = Some (PStr "succeeded") ∧
  final_classification (imports := skia.imports) example.record_N
  ≠ Some (PStr "failed").
Proof.
  split; [apply example_reconcile|].
  split; [rewrite example_all_records; do 2 right; by left|].
  split.
  { exists "testN", "565", PNone, example.initial_state,
      (Results.logging
         (Results.no_expectations_found (imports := skia.imports) "B1"
            "failed" "testN_565.png")
         example.initial_state).
    repeat split; vm_compute; reflexivity. }
  split; [reflexivity|]. split; [reflexivity|].
  split; [vm_compute; reflexivity|].
  intros Hfailed. vm_compute in Hfailed. discriminate.
Qed.

Lemma failures_are_records_that_did_not_succeed_witness :
  (∀ p, p ∈ image_pairs (Results.failing_image_pairs example.reconciled_state) →
        p ∈ image_pairs (Results.all_image_pairs example.reconciled_state)) ∧
  image_pairs (Results.failing_image_pairs example.reconciled_state)
  = List.filter (λ p, negb (is_succeeded (imports := skia.imports) p))
      (image_pairs (Results.all_image_pairs example.reconciled_state)) ∧
  ∀ p, p ∈ image_pairs (Results.failing_image_pairs example.reconciled_state) →
       final_classification (imports := skia.imports) p
       ≠ Some (PStr "succeeded").
Proof.
  destruct (failures_are_records_that_did_not_succeed
              (imports := skia.imports) example.actual_tree
              example.expected_tree "file://diffs" []
              example.reconciled_state example_reconcile) as [Hsubset Hfilter].
  split; [exact Hsubset|]. apply Hfilter, skia_result_type_key_apart.
Defined.

Lemma skia_warning_keys_apart :
  warning_keys_apart (imports := skia.imports).
Proof.
  unfold warning_keys_apart.
  repeat (apply NoDup_cons; split;
          [intros Hin;
           repeat (apply elem_of_cons in Hin as [Hin|Hin]; [discriminate|]);
           by apply elem_of_nil in Hin|]).
  apply NoDup_nil_2.
Qed.

Lemma example_warning_B :
  Results.no_expectations_found (imports := skia.imports) "B1" "failed"
    "testB_565.png"
  = example2.warning_B.
Proof. vm_compute. reflexivity. Qed.

Lemma missing_expectation_warns_once_unless_no_comparison_witness :
  ∃ args st1 st',
    Results.prepare_image (imports := skia.imports) example.expected_tree
      "B1" "failed" example.failed_B1 "testB_565.png" example.initial_state
    = inr (args, st1) ∧
    Results.arg_imageA_relative_url args = None ∧
    Results.arg_expectations args = None ∧
    Results.process_image (imports := skia.imports) example.expected_tree
      "B1" "failed" example.failed_B1 "testB_565.png" example.initial_state
    = inr st' ∧
    warnings (Results.log st')
    = warnings (Results.log example.initial_state) ++
      (if bool_decide ("failed" = "no-comparison") then []
       else [example2.warning_B]) ∧
    warning_names (imports := skia.imports) example2.warning_B "B1" "failed"
      "testB_565.png" ∧
    ∀ p, p ∈ image_pairs (Results.all_image_pairs st') →
         p ∈ image_pairs (Results.all_image_pairs example.initial_state) ∨
         imageA_relative_url p = None ∧ expectations_dict p = None.
Proof.
  assert (IMAGE_FILENAME_RE_match (Imports := skia.imports) "testB_565.png"
          = Some ("testB", "565")) as Hmatch by (vm_compute; reflexivity).
  assert (getitem example.failed_B1 "testB_565.png"
          = inr (example.digest "md5" 222)) as Hactual
    by (vm_compute; reflexivity).
  assert (Results._create_relative_url (imports := skia.imports)
            (example.digest "md5" 222) "testB"
          = inr (Some "md5/testB/222.png")) as Hurl
    by (vm_compute; reflexivity).
  assert (Results.expectation_entry (imports := skia.imports)
            example.expected_tree "B1" "testB_565.png" = inl KeyError)
    as Hentry by (vm_compute; reflexivity).
  destruct (missing_expectation_warns_once_unless_no_comparison
              (imports := skia.imports) example.expected_tree "B1" "failed"
              example.failed_B1 "testB_565.png" "testB" "565"
              (example.digest "md5" 222) (Some "md5/testB/222.png")
              example.initial_state KeyError Hmatch Hactual Hurl Hentry)
    as (args & st1 & st' & Hprepare & Hexpected & Hexpectations & Hprocess
        & Hwarnings & Hnames & Hpairs).
  rewrite example_warning_B in Hwarnings, Hnames.
  exists args, st1, st'.
  split; [exact Hprepare|]. split; [exact Hexpected|].
  split; [exact Hexpectations|]. split; [exact Hprocess|].
  split; [exact Hwarnings|].
  split; [exact (Hnames skia_warning_keys_apart)|exact Hpairs].
Defined.


Lemma skia_header_keys_apart : header_keys_apart (imports := skia.imports).
Proof.
  split; [discriminate|]. intros Hin.
  repeat (apply elem_of_cons in Hin as [Hin|Hin]; [discriminate|]).
  by apply elem_of_nil in Hin.
Qed.

Lemma data_hash_is_stable_witness :
  ∃ data_hash response' this'',
    Results.get_packaged_results_of_type (imports := skia.imports)
      example.packaged.2 "failures" None false true
    = inr (response', this'') ∧
    data_token (imports := skia.imports) example.packaged.1
    = Some (PStr data_hash) ∧
    data_token (imports := skia.imports) response' = Some (PStr data_hash).
Proof.
  apply (data_hash_is_stable (imports := skia.imports) example.service
           "failures" (Some 60%Z) true false example.packaged.1
           example.packaged.2 None false true).
  - apply skia_header_keys_apart.
  - vm_compute. reflexivity.
Defined.

Lemma skia_header_fields_apart :
  header_fields_apart (imports := skia.imports).
Proof.
  unfold header_fields_apart.
  repeat (apply NoDup_cons; split;
          [intros Hin;
           repeat (apply elem_of_cons in Hin as [Hin|Hin]; [discriminate|]);
           by apply elem_of_nil in Hin|]).
  apply NoDup_nil_2.
Qed.

Lemma example_header_of_packaged :
  header (imports := skia.imports) example.packaged.1
  = Some (PDict example2.header_of_packaged).
Proof. vm_compute. reflexivity. Qed.

Lemma packaging_changes_the_stored_results_witness :
  Results.get_results_of_type example.packaged.2 "failures"
  = inr example.packaged.1 ∧
  (∃ data_hash,
     header (imports := skia.imports) example.packaged.1
     = Some (PDict (Results.header_of (imports := skia.imports)
                      (Results._timestamp example.service) (Some 60%Z)
                      "failures" data_hash true false))) ∧
  example.packaged.1
  ≠ imagepairset.as_dict (imports := skia.imports)
      (Results.failing_image_pairs example.reconciled_state) ∧
  (∀ key,
     key ≠ KEY__HEADER (Imports := skia.imports) →
     example.packaged.1 !! key
     = imagepairset.as_dict (imports := skia.imports)
         (Results.failing_image_pairs example.reconciled_state) !! key) ∧
  header (imports := skia.imports) example.packaged.1
  = Some (PDict example2.header_of_packaged) ∧
  ∃ image_pairs,
    imagepairset.as_dict (imports := skia.imports)
      (Results.failing_image_pairs example.reconciled_state)
      !! KEY__IMAGEPAIRS (Imports := skia.imports)
    = Some image_pairs ∧
    header_block (imports := skia.imports) example2.header_of_packaged
      (Results._timestamp example.service) (Some 60%Z) "failures"
      (py_str (Imports := skia.imports)
         (py_hash (Imports := skia.imports)
            (py_repr (Imports := skia.imports) image_pairs)))
      true false.
Proof.
  assert (Results.get_results_of_type example.service "failures"
          = inr (imagepairset.as_dict (imports := skia.imports)
                   (Results.failing_image_pairs example.reconciled_state)))
    as Hraw by (vm_compute; reflexivity).
  assert (header (imports := skia.imports)
            (imagepairset.as_dict (imports := skia.imports)
               (Results.failing_image_pairs example.reconciled_state))
          = None) as Hnone by (vm_compute; reflexivity).
  assert (Results.get_packaged_results_of_type (imports := skia.imports)
            example.service "failures" (Some 60%Z) true false
          = inr (example.packaged.1, example.packaged.2)) as Hpackaged
    by (vm_compute; reflexivity).
  destruct (packaging_changes_the_stored_results (imports := skia.imports)
              example.service "failures" (Some 60%Z) true false
              (imagepairset.as_dict (imports := skia.imports)
                 (Results.failing_image_pairs example.reconciled_state))
              example.packaged.1 example.packaged.2 Hraw Hnone Hpackaged)
    as (Hstored & Hheader & Hchanged & Hkept & Hblock).
  destruct (Hblock skia_header_fields_apart)
    as (h & image_pairs & Hh & Hpairs & Hfields).
  rewrite example_header_of_packaged in Hh. injection Hh as <-.
  split; [exact Hstored|]. split; [exact Hheader|].
  split; [exact Hchanged|]. split; [exact Hkept|].
  split; [apply example_header_of_packaged|].
  exists image_pairs. split; [exact Hpairs|exact Hfields].
Defined.

(** * Further properties *)

(** ** The order of the builders *)

Lemma string_compare_trans (s1 s2 s3 : string) :
  String.compare s1 s2 ≠ Gt → String.compare s2 s3 ≠ Gt →
  String.compare s1 s3 ≠ Gt.
Proof.
  revert s2 s3. induction s1 as [|c1 s1 IH]; intros [|c2 s2] [|c3 s3];
    simpl; try done.
  unfold Ascii.compare.
  destruct (N.compare_spec (N_of_ascii c1) (N_of_ascii c2)) as [H12|H12|H12];
    destruct (N.compare_spec (N_of_ascii c2) (N_of_ascii c3))
      as [H23|H23|H23];
    destruct (N.compare_spec (N_of_ascii c1) (N_of_ascii c3))
      as [H13|H13|H13]; try done; try lia.
  apply IH.
Qed.

Lemma str_le_trans : Transitive str_le.
Proof.
  intros s1 s2 s3. unfold str_le, String.leb. intros H12 H23.
  pose proof (string_compare_trans s1 s2 s3) as Htrans.
  destruct (String.compare s1 s2), (String.compare s2 s3),
    (String.compare s1 s3); try done; by exfalso; apply Htrans.
Qed.

Lemma str_le_total : Total str_le.
Proof. intros s1 s2. apply String.leb_total. Qed.

Lemma str_le_antisymm : AntiSymm eq str_le.
Proof. intros s1 s2. apply String.leb_antisym. Qed.

Lemma sorted_StronglySorted (l : list string) : StronglySorted str_le (sorted l).
Proof.
  apply (@StronglySorted_merge_sort _ str_le _ str_le_trans str_le_total).
Qed.

(** [sorted] returns the same list for two lists with the same elements. *)
Lemma sorted_eq_iff (l1 l2 : list string) : sorted l1 = sorted l2 ↔ l1 ≡ₚ l2.
Proof.
  split.
  - intros Heq.
    by rewrite <-(sorted_Permutation l1), Heq, sorted_Permutation.
  - intros Hperm. apply (@StronglySorted_unique _ str_le str_le_antisymm);
      [apply sorted_StronglySorted..|].
    by rewrite !sorted_Permutation.
Qed.

Lemma elem_of_sorted (l : list string) (x : string) : x ∈ sorted l ↔ x ∈ l.
Proof. by rewrite sorted_Permutation. Qed.

(** ** The files of the builders *)

Section Files.
Context {imports : Imports}.

Lemma read_file_inr fs k meta_dict meta_dict' :
  read_file fs k meta_dict = inr meta_dict' →
  ∃ v, fs_files fs !! k = Some v ∧
       meta_dict' = <[builder_of k := v]> meta_dict.
Proof.
  unfold read_file, gm_json.LoadFromFile, builder_of.
  destruct (fs_files fs !! k) as [v|]; [|discriminate].
  intros [= <-]. by exists v.
Qed.

Lemma last_file_of_cons builder k files :
  last_file_of builder (k :: files)
  = match last_file_of builder files with
    | Some k' => Some k'
    | None => if decide (builder_of k = builder) then Some k else None
    end.
Proof.
  unfold last_file_of. rewrite filter_cons.
  destruct (decide (builder_of k = builder)); [|by destruct (last _)].
  by rewrite last_cons.
Qed.

Lemma last_file_of_Some builder files k :
  last_file_of builder files = Some k → k ∈ files ∧ builder_of k = builder.
Proof.
  unfold last_file_of. intros Hlast%last_Some_elem_of.
  apply list_elem_of_filter in Hlast as [? ?]. by split.
Qed.

Lemma last_file_of_None builder files :
  last_file_of builder files = None ↔
  ∀ k, k ∈ files → builder_of k ≠ builder.
Proof.
  unfold last_file_of. rewrite last_None. split.
  - intros Hnil k Hk Hb.
    assert (k ∈ filter (λ k, builder_of k = builder) files) as Hin
      by by apply list_elem_of_filter.
    rewrite Hnil in Hin. by apply elem_of_nil in Hin.
  - intros Hnone.
    destruct (filter (λ k, builder_of k = builder) files) as [|k l] eqn:Hf;
      [done|].
    assert (k ∈ filter (λ k, builder_of k = builder) files) as Hin
      by (rewrite Hf; by left).
    apply list_elem_of_filter in Hin as [Hb Hk]. by destruct (Hnone k Hk).
Qed.

(** The loader's loop leaves, for every builder, the document of the last
    of its files. *)
Lemma read_files_lookup fs files meta_dict meta_dict' builder :
  for_each (read_file fs) files meta_dict = inr meta_dict' →
  meta_dict' !! builder
  = match last_file_of builder files with
    | Some k => fs_files fs !! k
    | None => meta_dict !! builder
    end.
Proof.
  revert meta_dict. induction files as [|k files IH]; intros meta_dict Hread.
  - by injection Hread as <-.
  - simpl in Hread. apply bind_inr in Hread as (m & Hk & Hread).
    apply read_file_inr in Hk as (v & Hv & ->).
    rewrite (IH _ Hread), last_file_of_cons.
    destruct (last_file_of builder files); [done|].
    destruct (decide (builder_of k = builder)) as [<-|Hne].
    + by rewrite lookup_insert_eq.
    + by rewrite lookup_insert_ne.
Qed.

Lemma has_dict_written_file meta_dict k :
  has_dict meta_dict k = true ↔ written_file meta_dict k.
Proof.
  unfold has_dict, written_file, builder_of.
  destruct (meta_dict !! os_path.basename k.1) as [v|]; simpl.
  - split.
    + intros Hv. exists v. split; [done|]. by intros ->.
    + intros (v' & [= <-] & Hne). by destruct v.
  - split; [done|]. by intros (v & ? & _).
Qed.

(** The files after the writer's loop. *)
Lemma write_files_lookup_all meta_dict files s k :
  fs_files (foldl (write_file meta_dict) s files).1 !! k
  = if bool_decide (k ∈ files) && has_dict meta_dict k
    then meta_dict !! builder_of k
    else fs_files s.1 !! k.
Proof.
  destruct (has_dict meta_dict k) eqn:Hdict.
  - rewrite andb_true_r. case_bool_decide as Hk.
    + apply write_files_lookup; [done|]. by apply has_dict_written_file.
    + by apply write_files_other.
  - rewrite andb_false_r. revert s.
    induction files as [|k' files IH]; intros s; [done|].
    simpl. rewrite IH.
    destruct (write_file_cases meta_dict s k') as [[Hw ->]|[_ ->]]; [|done].
    simpl. rewrite lookup_insert_ne; [done|]. intros ->.
    apply has_dict_written_file in Hw. congruence.
Qed.

(** The builders that the writer's loop records. *)
Lemma write_files_written meta_dict files s :
  (foldl (write_file meta_dict) s files).2
  = s.2 ++ (builder_of <$> List.filter (has_dict meta_dict) files).
Proof.
  revert s. induction files as [|k files IH]; intros s.
  - simpl. by rewrite app_nil_r.
  - simpl. rewrite IH.
    destruct (write_file_cases meta_dict s k) as [[Hw ->]|[Hnw ->]].
    + apply has_dict_written_file in Hw. rewrite Hw. simpl.
      by rewrite <-app_assoc.
    + destruct (has_dict meta_dict k) eqn:Hdict; [|done].
      by apply has_dict_written_file in Hdict.
Qed.
End Files.

Section LoaderAndWriter.
Context {imports : Imports}.

Lemma read_dicts_from_root_inr fs root pattern meta_dict :
  Results._read_dicts_from_root fs root pattern = inr meta_dict ↔
  os_path.isdir fs root = true ∧
  for_each (read_file fs) (matching_files (os.walk fs root) pattern) ∅
  = inr meta_dict.
Proof.
  unfold Results._read_dicts_from_root. rewrite for_each_read_dir.
  destruct (os_path.isdir fs root); simpl.
  - split; [by intros ?|by intros [_ ?]].
  - split; [done|by intros [? _]].
Qed.

(** X1: the mapping that the tree loader returns holds, for every builder,
    the document of the last matching file, in the order of the walk, of a
    directory of that name, and nothing for a name without such a file. *)
Theorem loader_last_file_wins fs root pattern meta_dict builder :
  Results._read_dicts_from_root fs root pattern = inr meta_dict →
  meta_dict !! builder
  = match
      last_file_of builder (matching_files (os.walk fs root) pattern)
    with
    | Some k => fs_files fs !! k
    | None => None
    end.
Proof.
  intros [_ Hread]%read_dicts_from_root_inr.
  rewrite (read_files_lookup _ _ _ _ builder Hread).
  by destruct (last_file_of _ _).
Qed.

Lemma write_dicts_to_root_eq meta_dict root pattern fs :
  os_path.isdir fs root = true →
  Results._write_dicts_to_root meta_dict root pattern fs
  = let s := foldl (write_file meta_dict) (fs, [])
               (matching_files (os.walk fs root) pattern) in
    (if bool_decide (sorted (keys meta_dict) ≠ sorted s.2)
     then raise KeyError else inr (), s.1).
Proof.
  intros Hdir. unfold Results._write_dicts_to_root.
  rewrite Hdir, foldl_write_dir. simpl.
  destruct (foldl _ _ _) as [fs' written]. simpl. by case_bool_decide.
Qed.

(** X2: whether it returns or raises, the writer leaves the listing of the
    directories as it was and rewrites exactly the matching files of the
    builders for which the tree has a dictionary, each with the dictionary of
    its builder; every other file keeps its content. *)
Theorem writer_rewrites_only_matching_files
    meta_dict root pattern fs result fs' :
  Results._write_dicts_to_root meta_dict root pattern fs = (result, fs') →
  fs_walk fs' = fs_walk fs ∧
  ∀ k,
    fs_files fs' !! k
    = if bool_decide (k ∈ matching_files (os.walk fs root) pattern)
         && has_dict meta_dict k
      then meta_dict !! builder_of k
      else fs_files fs !! k.
Proof.
  destruct (os_path.isdir fs root) eqn:Hdir.
  - rewrite write_dicts_to_root_eq by done. simpl. intros [= _ <-].
    split; [apply write_files_walk|]. intros k.
    apply write_files_lookup_all.
  - unfold Results._write_dicts_to_root. rewrite Hdir. simpl.
    intros [= _ <-]. split; [done|]. intros k.
    unfold os_path.isdir in Hdir. apply bool_decide_eq_false in Hdir.
    unfold os.walk. destruct (fs_walk fs !! root) as [walk|] eqn:Hwalk.
    + destruct Hdir. by eexists.
    + done.
Qed.

(** X3: the writer raises [KeyError] when the tree names a builder that has
    no matching file under the root, or whose dictionary is [None]; the
    files it wrote before stay written. *)
Theorem writer_raises_for_a_builder_without_file
    meta_dict root pattern fs builder :
  os_path.isdir fs root = true →
  is_Some (meta_dict !! builder) →
  (∀ k, k ∈ matching_files (os.walk fs root) pattern →
        builder_of k = builder → has_dict meta_dict k = false) →
  Results._write_dicts_to_root meta_dict root pattern fs
  = (raise KeyError,
     (foldl (write_file meta_dict) (fs, [])
        (matching_files (os.walk fs root) pattern)).1).
Proof.
  intros Hdir Hbuilder Hnone. rewrite write_dicts_to_root_eq by done.
  simpl. rewrite bool_decide_true; [done|].
  intros Hsorted%sorted_eq_iff.
  assert (builder ∈ keys meta_dict) as Hin by by apply elem_of_keys.
  rewrite Hsorted, write_files_written in Hin. simpl in Hin.
  apply list_elem_of_fmap in Hin as (k & Hk & Hin).
  apply list_elem_of_In, List.filter_In in Hin as [Hin Hdict].
  apply list_elem_of_In in Hin. by rewrite (Hnone k Hin) in Hdict.
Qed.
End LoaderAndWriter.

Section Edits.
Context {imports : Imports}.

Lemma has_dict_same_builder meta_dict k k' :
  builder_of k = builder_of k' → has_dict meta_dict k = has_dict meta_dict k'.
Proof. unfold has_dict. by intros ->. Qed.

Lemma has_dict_true meta_dict k :
  has_dict meta_dict k = true ↔
  ∃ v, meta_dict !! builder_of k = Some v ∧ v ≠ PNone.
Proof. apply has_dict_written_file. Qed.

Lemma filter_all {A} (f : A → bool) (l : list A) :
  (∀ x, x ∈ l → f x = true) → List.filter f l = l.
Proof.
  induction l as [|x l IH]; intros Hall; [done|]. simpl.
  rewrite (Hall x) by by left. f_equal. apply IH. intros y Hy.
  apply Hall. by right.
Qed.

Lemma NoDup_keys (d : gmap string pyval) : NoDup (keys d).
Proof. apply NoDup_fst_map_to_list. Qed.

Lemma elem_of_keys_dom (d : gmap string pyval) (k : string) :
  k ∈ keys d ↔ k ∈ dom d.
Proof. by rewrite elem_of_keys, elem_of_dom. Qed.

(** The builders of the tree that the loader returns are those of the
    matching files. *)
Lemma read_dicts_dom fs root pattern meta_dict builder :
  Results._read_dicts_from_root fs root pattern = inr meta_dict →
  builder ∈ dom meta_dict ↔
  builder ∈ builder_of <$> matching_files (os.walk fs root) pattern.
Proof.
  intros [_ Hread]%read_dicts_from_root_inr.
  rewrite (read_files_inr _ _ _ _ Hread builder), dom_empty,
    list_elem_of_fmap.
  split.
  - intros [?%not_elem_of_empty|(k & Hk & ->)]; [done|]. by exists k.
  - intros (k & -> & Hk). right. by exists k.
Qed.

(** What the writer does to a tree that has the builders of the matching
    files: it returns exactly when no document is [None] and no two files
    belong to one builder. *)
Lemma write_dicts_same_builders meta_dict root pattern fs :
  os_path.isdir fs root = true →
  (∀ builder,
     builder ∈ dom meta_dict ↔
     builder ∈ builder_of <$> matching_files (os.walk fs root) pattern) →
  (Results._write_dicts_to_root meta_dict root pattern fs).1 = inr () ↔
  no_null_document meta_dict ∧
  NoDup (builder_of <$> matching_files (os.walk fs root) pattern).
Proof.
  intros Hdir Hdom. rewrite write_dicts_to_root_eq by done. simpl.
  rewrite write_files_written. simpl.
  set (files := matching_files (os.walk fs root) pattern) in *.
  assert (no_null_document meta_dict ↔
          ∀ k, k ∈ files → has_dict meta_dict k = true) as Hnull.
  { split.
    - intros Hnull k Hk. apply has_dict_true.
      assert (builder_of k ∈ dom meta_dict) as [v Hv]%elem_of_dom.
      { apply Hdom, list_elem_of_fmap. by exists k. }
      exists v. split; [done|]. by apply (Hnull _ _ Hv).
    - intros Hall builder v Hv.
      assert (builder ∈ dom meta_dict) as Hin by by apply elem_of_dom.
      apply Hdom, list_elem_of_fmap in Hin as (k & -> & Hk).
      apply Hall, has_dict_true in Hk as (v' & Hv' & Hne). congruence. }
  split.
  - case_bool_decide as Hsorted; [discriminate|]. intros _.
    apply sorted_eq_iff in Hsorted.
    assert (∀ k, k ∈ files → has_dict meta_dict k = true) as Hall.
    { intros k Hk.
      assert (builder_of k ∈ keys meta_dict) as Hin.
      { apply elem_of_keys_dom, Hdom, list_elem_of_fmap. by exists k. }
      rewrite Hsorted in Hin.
      apply list_elem_of_fmap in Hin as (k' & Hb & Hin).
      apply list_elem_of_In, List.filter_In in Hin as [_ Hdict].
      by rewrite (has_dict_same_builder _ k k'). }
    split; [by apply Hnull|].
    rewrite (filter_all _ _ Hall) in Hsorted. rewrite <-Hsorted.
    apply NoDup_keys.
  - intros [Hnonull Hnodup].
    rewrite (filter_all _ files) by by apply Hnull.
    rewrite bool_decide_false; [done|]. intros Hne. apply Hne.
    apply sorted_eq_iff, NoDup_Permutation; [apply NoDup_keys|done|].
    intros builder. by rewrite elem_of_keys_dom.
Qed.

Lemma apply_modification_no_null modification d d' :
  Results.apply_modification modification d = inr d' →
  no_null_document d → no_null_document d'.
Proof.
  intros (?&?&b&?&?&_&_&_&_&_&->)%apply_modification_inr Hnull builder v.
  destruct (decide (b = builder)) as [->|Hne].
  - rewrite lookup_insert_eq. by intros [= <-].
  - rewrite lookup_insert_ne by done. apply Hnull.
Qed.

Lemma apply_modifications_no_null modifications d d' :
  for_each Results.apply_modification modifications d = inr d' →
  no_null_document d → no_null_document d'.
Proof.
  intros Happly Hnull. revert Happly.
  apply (for_each_invariant no_null_document); [|done].
  intros m t t' _ Ht Hm. by apply (apply_modification_no_null m t).
Qed.

Lemma for_each_apply_modification_dom modifications d d' builder :
  for_each Results.apply_modification modifications d = inr d' →
  builder ∈ dom d' ↔ builder ∈ dom d.
Proof. intros Happly. by rewrite (apply_modifications_dom _ _ _ Happly). Qed.

(** X4: [edit_expectations] never returns when two matching files under
    the expected root belong to one builder, whatever the modifications: the
    loader keeps the last of the two, but the writer writes both and then
    finds the builder twice among those it wrote. *)
Theorem edit_raises_when_a_builder_has_two_files this modifications fs :
  ¬ NoDup (builder_of <$> expected_files this fs) →
  ∃ e fs', Results.edit_expectations this modifications fs = (inl e, fs').
Proof.
  intros Hdup. unfold Results.edit_expectations.
  destruct (Results._read_dicts_from_root fs _ _) as [e|d] eqn:Hread;
    [by exists e, fs|]. simpl.
  destruct (for_each Results.apply_modification modifications d)
    as [e|d'] eqn:Happly; [by exists e, fs|].
  destruct (Results._write_dicts_to_root d' (Results._expected_root this)
              "*.json" fs) as [[e|[]] fs'] eqn:Hwrite; [by exists e, fs'|].
  destruct Hdup.
  apply (write_dicts_same_builders d' (Results._expected_root this) "*.json"
           fs).
  - by apply read_dicts_from_root_inr in Hread as [? _].
  - intros builder.
    rewrite (for_each_apply_modification_dom _ _ _ builder Happly).
    by apply read_dicts_dom.
  - by rewrite Hwrite.
Qed.

(** X5: [edit_expectations] returns as soon as the loader returns a tree
    without [None] document, no two matching files under the expected root
    belong to one builder, and every modification applies. *)
Theorem edit_returns this modifications fs loaded edited :
  Results._read_dicts_from_root fs (Results._expected_root this) "*.json"
    = inr loaded →
  no_null_document loaded →
  NoDup (builder_of <$> expected_files this fs) →
  for_each Results.apply_modification modifications loaded = inr edited →
  ∃ fs', Results.edit_expectations this modifications fs = (inr (), fs').
Proof.
  intros Hread Hnull Hnodup Happly. unfold Results.edit_expectations.
  rewrite Hread. simpl. rewrite Happly.
  destruct (Results._write_dicts_to_root edited (Results._expected_root this)
              "*.json" fs) as [result fs'] eqn:Hwrite.
  exists fs'. f_equal.
  change result with (result, fs').1. rewrite <-Hwrite.
  apply write_dicts_same_builders.
  - by apply read_dicts_from_root_inr in Hread as [? _].
  - intros builder.
    rewrite (for_each_apply_modification_dom _ _ _ builder Happly).
    by apply read_dicts_dom.
  - split; [|done]. by apply (apply_modifications_no_null modifications loaded).
Qed.
End Edits.

Section MoreEdits.
Context {imports : Imports}.

Lemma last_file_of_NoDup files k :
  NoDup (builder_of <$> files) → k ∈ files →
  last_file_of (builder_of k) files = Some k.
Proof.
  induction files as [|k' files IH]; intros Hnodup Hk;
    [by apply elem_of_nil in Hk|].
  rewrite fmap_cons in Hnodup. apply NoDup_cons in Hnodup as [Hfresh Hnodup].
  rewrite last_file_of_cons.
  apply elem_of_cons in Hk as [->|Hk].
  - destruct (last_file_of (builder_of k') files) as [k''|] eqn:Hlast.
    + apply last_file_of_Some in Hlast as [Hin Hb]. destruct Hfresh.
      apply list_elem_of_fmap. by exists k''.
    + by rewrite decide_True.
  - by rewrite IH.
Qed.

Lemma filesystem_eq (fs fs' : filesystem) :
  fs_walk fs' = fs_walk fs → (∀ k, fs_files fs' !! k = fs_files fs !! k) →
  fs' = fs.
Proof.
  destruct fs, fs'. simpl. intros -> Hfiles. f_equal. by apply map_eq.
Qed.

(** X6: with no modification, [edit_expectations] writes every file back
    with the document read from it: it returns and the file system is as
    before, provided the loader returns a tree without [None] document and
    no two matching files belong to one builder. *)
Theorem edit_without_modification_changes_nothing this fs loaded :
  Results._read_dicts_from_root fs (Results._expected_root this) "*.json"
    = inr loaded →
  no_null_document loaded →
  NoDup (builder_of <$> expected_files this fs) →
  Results.edit_expectations this [] fs = (inr (), fs).
Proof.
  intros Hread Hnull Hnodup. unfold Results.edit_expectations.
  rewrite Hread. simpl.
  pose proof Hread as [Hdir Hfiles]%read_dicts_from_root_inr.
  assert ((Results._write_dicts_to_root loaded (Results._expected_root this)
             "*.json" fs).1 = inr ()) as Hresult.
  { apply write_dicts_same_builders; [done| |by split].
    intros builder. by apply read_dicts_dom. }
  rewrite write_dicts_to_root_eq in Hresult |- * by done.
  simpl in Hresult |- *. rewrite Hresult. f_equal.
  apply filesystem_eq; [apply write_files_walk|]. intros k.
  rewrite write_files_lookup_all. simpl.
  clear Hresult. case_bool_decide as Hk; simpl; [|done].
  destruct (has_dict loaded k); [|done].
  rewrite (read_files_lookup _ _ _ _ (builder_of k) Hfiles).
  by rewrite last_file_of_NoDup.
Qed.

Lemma apply_modification_keeps_back modification d d' builder image_name v :
  Results.apply_modification modification d = inr d' →
  ¬ targets modification builder image_name →
  stored_expectations d' builder image_name = inr v →
  stored_expectations d builder image_name = inr v.
Proof.
  intros (i & n & b & bd & prior & Hi & Hn & Hb & Hbd & Hprior & ->)
           %apply_modification_inr
         Hother (bd' & er & Hd & Her & Hv)%stored_expectations_inr.
  apply stored_expectations_inr.
  destruct (decide (b = builder)) as [->|Hne].
  - rewrite lookup_insert_eq in Hd. injection Hd as <-.
    rewrite lookup_insert_eq in Her. injection Her as <-.
    assert (i ≠ image_name) as Hi' by (intros ->; by apply Hother).
    rewrite lookup_insert_ne in Hv by done.
    exists bd, prior. split; [done|]. split; [|done].
    simpl in Hprior.
    destruct (negb (truthy (default PNone (bd !! JSONKEY_EXPECTEDRESULTS)))).
    + injection Hprior as <-. by rewrite lookup_empty in Hv.
    + destruct (bd !! JSONKEY_EXPECTEDRESULTS) as [w|]; simpl in Hprior;
        [by subst w|discriminate].
  - rewrite lookup_insert_ne in Hd by done. by exists bd', er.
Qed.

(** X7: when [edit_expectations] returns, the expected tree on disk holds
    the same entry as before, or none as before, for every image of every
    builder that no modification names. *)
Theorem edit_keeps_the_entries_it_does_not_name
    this modifications fs fs' builder image_name :
  Results.edit_expectations this modifications fs = (inr (), fs') →
  (∀ modification, modification ∈ modifications →
                   ¬ targets modification builder image_name) →
  ∃ before after,
    Results._read_dicts_from_root fs (Results._expected_root this) "*.json"
      = inr before ∧
    Results._read_dicts_from_root fs' (Results._expected_root this) "*.json"
      = inr after ∧
    ∀ v, stored_expectations after builder image_name = inr v ↔
         stored_expectations before builder image_name = inr v.
Proof.
  unfold Results.edit_expectations. intros Hedit Hother.
  destruct (Results._read_dicts_from_root fs (Results._expected_root this)
              "*.json") as [e|before] eqn:Hread; [by injection Hedit|].
  simpl in Hedit.
  destruct (for_each Results.apply_modification modifications before)
    as [e|after] eqn:Happly; [by injection Hedit|].
  exists before, after. split; [done|]. split.
  - apply (write_then_read fs fs' _ _ before); [done| |done].
    by apply (apply_modifications_dom _ _ _ Happly).
  - revert Happly.
    apply (for_each_invariant
             (λ t, ∀ v, stored_expectations t builder image_name = inr v ↔
                        stored_expectations before builder image_name
                        = inr v)); [|done].
    intros modification t t' Hin Ht Hm v. rewrite <-Ht. split.
    + by apply (apply_modification_keeps_back modification), Hother.
    + by apply (apply_modification_keeps modification), Hother.
Qed.

Lemma verbatim_fields_lookup modification fields
    (acc new : gmap string pyval) k :
  for_each
    (λ field new_expectations,
       data ← getitem modification KEY__EXPECTATIONS_DATA;
       value ← dict_get data field;
       mret (match value with
             | PNone => new_expectations
             | _ => <[field := value]> new_expectations
             end))
    fields acc = inr new →
  new !! k
  = match
      (if decide (k ∈ fields) then verbatim_value modification k else None)
    with
    | Some v => Some v
    | None => acc !! k
    end.
Proof.
  revert acc. induction fields as [|field fields IH]; intros acc Hloop.
  - injection Hloop as <-. by rewrite decide_False by apply not_elem_of_nil.
  - cbn [for_each] in Hloop. apply bind_inr in Hloop as (acc1 & Hbody & Hloop).
    rewrite (IH _ Hloop). clear IH Hloop.
    apply bind_inr in Hbody as (data & Hdata & Hbody).
    apply bind_inr in Hbody as (value & Hvalue & [= <-]).
    destruct data as [| | | | |dd]; try discriminate.
    injection Hvalue as <-.
    assert (verbatim_value modification field
            = match dd !! field with
              | Some PNone | None => None
              | Some value => Some value
              end) as Hfield.
    { unfold verbatim_value. by rewrite Hdata. }
    destruct (decide (k ∈ fields)) as [Hin|Hnotin].
    + rewrite decide_True by by right.
      destruct (verbatim_value modification k) as [v|] eqn:Hk; [done|].
      destruct (decide (k = field)) as [->|Hne].
      * rewrite Hk in Hfield.
        by destruct (dd !! field) as [[]|].
      * destruct (default PNone (dd !! field));
          by rewrite ?lookup_insert_ne.
    + destruct (decide (k = field)) as [->|Hne].
      * rewrite decide_True by by left. rewrite Hfield.
        destruct (dd !! field) as [[]|]; simpl; by rewrite ?lookup_insert_eq.
      * rewrite decide_False by (by intros [?|?]%elem_of_cons).
        destruct (default PNone (dd !! field));
          by rewrite ?lookup_insert_ne.
Qed.

Lemma verbatim_value_not_None modification field v :
  verbatim_value modification field = Some v → v ≠ PNone.
Proof.
  unfold verbatim_value.
  destruct (getitem modification KEY__EXPECTATIONS_DATA) as [|[| | | | |dd]];
    try discriminate.
  destruct (dd !! field) as [[]|]; try discriminate; by intros [= <-].
Qed.

(** The new expectations of a modification, key by key. *)
Lemma mod_new_expectations_inr modification new :
  Results.mod_new_expectations modification = inr new →
  ∃ hash_type digest,
    new_allowed_digests modification
    = inr (PList [PList [PStr hash_type; PInt digest]]) ∧
    ∀ k,
      new !! k
      = match
          (if decide (k ∈ Results.EXPECTATION_FIELDS_PASSED_THRU_VERBATIM)
           then verbatim_value modification k else None)
        with
        | Some v => Some v
        | None =>
            if decide (k = JSONKEY_EXPECTEDRESULTS_ALLOWEDDIGESTS)
            then Some (PList [PList [PStr hash_type; PInt digest]])
            else None
        end.
Proof.
  unfold Results.mod_new_expectations, new_allowed_digests. intros Hnew.
  apply bind_inr in Hnew as (url & -> & Hnew). simpl.
  apply bind_inr in Hnew as ([[test_name hash_type] hash_digest] & -> & Hnew).
  simpl. cbv beta iota in Hnew.
  apply bind_inr in Hnew as (digest & -> & Hnew). simpl.
  exists hash_type, digest. split; [done|].
  intros k. rewrite (verbatim_fields_lookup _ _ _ _ k Hnew).
  destruct (if decide _ then _ else _); [done|].
  destruct (decide (k = JSONKEY_EXPECTEDRESULTS_ALLOWEDDIGESTS)) as [->|Hne].
  - apply lookup_singleton_eq.
  - by apply lookup_singleton_ne.
Qed.

(** X8: the new expectations of a modification hold the allowed digests
    made from its image URL and, of the verbatim fields, those to which the
    modification gives a value that is not [None], with that value; they
    hold nothing else, and no [None]. *)
Theorem new_expectations_of_a_modification modification new :
  Results.mod_new_expectations modification = inr new →
  ∃ allowed_digests,
    new_allowed_digests modification = inr allowed_digests ∧
    (∀ k,
       new !! k
       = match
           (if decide (k ∈ Results.EXPECTATION_FIELDS_PASSED_THRU_VERBATIM)
            then verbatim_value modification k else None)
         with
         | Some v => Some v
         | None =>
             if decide (k = JSONKEY_EXPECTEDRESULTS_ALLOWEDDIGESTS)
             then Some allowed_digests else None
         end) ∧
    ∀ k v, new !! k = Some v → v ≠ PNone.
Proof.
  intros (hash_type & digest & Hdigests & Hlookup)%mod_new_expectations_inr.
  eexists. split; [exact Hdigests|]. split; [exact Hlookup|].
  intros k v. rewrite Hlookup.
  destruct (decide (k ∈ _)); [destruct (verbatim_value modification k) eqn:Hv|].
  - intros [= <-]. by apply (verbatim_value_not_None modification k).
  - case_decide; [by intros [= <-]|done].
  - case_decide; [by intros [= <-]|done].
Qed.
End MoreEdits.

(** ** More on reconciliation *)

(** The loop runs its body on every element of the list, and what the body
    establishes stays, when the body only moves the state along a
    preorder. *)
Lemma for_each_monotone {A S} (R : S → S → Prop) (body : A → S → exn + S)
    (xs : list A) (s s' : S) :
  (∀ t, R t t) → (∀ t1 t2 t3, R t1 t2 → R t2 t3 → R t1 t3) →
  (∀ y t t', body y t = inr t' → R t t') →
  for_each body xs s = inr s' → R s s'.
Proof.
  intros Hrefl Htrans Hbody. revert s.
  induction xs as [|y xs IH]; intros s Hloop.
  - injection Hloop as <-. apply Hrefl.
  - simpl in Hloop. apply bind_inr in Hloop as (t & Hy & Hloop).
    eapply Htrans; [by eapply Hbody|by apply IH].
Qed.

Lemma for_each_visits {A S} (R : S → S → Prop) (body : A → S → exn + S)
    (xs : list A) (x : A) (s s' : S) :
  (∀ t, R t t) → (∀ t1 t2 t3, R t1 t2 → R t2 t3 → R t1 t3) →
  (∀ y t t', body y t = inr t' → R t t') →
  x ∈ xs → for_each body xs s = inr s' →
  ∃ t t', body x t = inr t' ∧ R t' s'.
Proof.
  intros Hrefl Htrans Hbody Hx. revert s.
  induction xs as [|y xs IH]; intros s Hloop; [by apply elem_of_nil in Hx|].
  simpl in Hloop. apply bind_inr in Hloop as (t & Hy & Hloop).
  apply elem_of_cons in Hx as [->|Hx]; [|by apply (IH Hx t)].
  exists s, t. split; [done|]. by apply (for_each_monotone R body xs).
Qed.

Section Listed.
Context {imports : Imports}.

(** What the actual tree is like around an image that it lists. *)
Lemma actual_entry_inr actual builder result_type image_name v :
  actual_entry actual builder result_type image_name = inr v →
  ∃ builder_dict actual_results results_of_this_type,
    getitem (PDict actual) builder = inr builder_dict ∧
    getitem builder_dict JSONKEY_ACTUALRESULTS = inr (PDict actual_results) ∧
    actual_results !! result_type = Some (PDict results_of_this_type) ∧
    results_of_this_type !! image_name = Some v ∧
    builder ∈ sorted (keys actual) ∧
    result_type ∈ sorted (keys actual_results) ∧
    image_name ∈ sorted (keys results_of_this_type) ∧
    truthy (PDict results_of_this_type) = true.
Proof.
  unfold actual_entry. intros Hentry.
  apply bind_inr in Hentry as (builder_dict & Hbuilder & Hentry).
  apply bind_inr in Hentry as (ar & Hresults & Hentry).
  apply bind_inr in Hentry as (rs & Htype & Himage).
  destruct ar as [| | | | |actual_results]; try discriminate.
  destruct rs as [| | | | |results_of_this_type]; try discriminate.
  simpl in Htype, Himage.
  destruct (actual_results !! result_type) as [rs|] eqn:Hrt; [|discriminate].
  injection Htype as ->.
  destruct (results_of_this_type !! image_name) as [w|] eqn:Hi;
    [|discriminate].
  injection Himage as ->.
  exists builder_dict, actual_results, results_of_this_type.
  repeat split; try done.
  - apply elem_of_sorted, elem_of_keys. simpl in Hbuilder.
    destruct (actual !! builder); [by eexists|discriminate].
  - apply elem_of_sorted, elem_of_keys. by eexists.
  - apply elem_of_sorted, elem_of_keys. by eexists.
  - simpl. apply negb_true_iff, bool_decide_eq_false.
    intros Hempty%map_size_empty_iff. subst results_of_this_type.
    by rewrite lookup_empty in Hi.
Qed.

(** Reconciliation raises when the body of its innermost loop raises, in
    whatever state, on an image that the actual tree lists. *)
Lemma reconcile_raises actual expected diff_base_url log builder result_type
    image_name v :
  actual_entry actual builder result_type image_name = inr v →
  (∀ results_of_this_type st,
     getitem results_of_this_type image_name = inr v →
     ∃ e, Results.process_image expected builder result_type
            results_of_this_type image_name st = inl e) →
  ∃ e, Results.reconcile actual expected diff_base_url log = inl e.
Proof.
  intros (builder_dict & actual_results & results_of_this_type & Hbuilder
          & Hresults & Htype & Himage & Hb & Hrt & Hi & Htruthy)
           %actual_entry_inr Hbody.
  unfold Results.reconcile.
  destruct (for_each_raises (λ _, True)
              (Results.process_builder actual expected
                 (length (sorted (keys actual))))
              (sorted (keys actual)) builder
              (0, Results.initial_load_state diff_base_url log))
    as [e ->]; [done| |done|done|by exists e].
  intros [n t] _. unfold Results.process_builder.
  rewrite Hbuilder. simpl. rewrite Hresults. simpl.
  destruct (for_each_raises (λ _, True)
              (Results.process_result_type expected builder
                 (PDict actual_results))
              (sorted (keys actual_results)) result_type
              (Results.logging
                 (Info_generating_pixel_diffs (S n)
                    (length (sorted (keys actual))) builder) t))
    as [e ->]; [done| |done|done|by exists e].
  intros u _. unfold Results.process_result_type. simpl.
  rewrite Htype. simpl. simpl in Htruthy. rewrite Htruthy. simpl.
  destruct (for_each_raises (λ _, True)
              (Results.process_image expected builder result_type
                 (PDict results_of_this_type))
              (sorted (keys results_of_this_type)) image_name u)
    as [e ->]; [done| |done|done|by exists e].
  intros w _. apply Hbody. simpl. by rewrite Himage.
Qed.

(** X9: an image name that [IMAGE_FILENAME_RE] does not match is fatal: the
    body of the loop raises [AttributeError] on it, and reconciliation raises
    as soon as the actual tree lists such an image. *)
Theorem unparseable_image_name_is_fatal
    actual expected diff_base_url log builder result_type image_name v :
  actual_entry actual builder result_type image_name = inr v →
  IMAGE_FILENAME_RE_match image_name = None →
  (∀ results_of_this_type st,
     Results.process_image expected builder result_type results_of_this_type
       image_name st = inl AttributeError) ∧
  ∃ e, Results.reconcile actual expected diff_base_url log = inl e.
Proof.
  intros Hentry Hmatch.
  assert (∀ results_of_this_type st,
            Results.process_image expected builder result_type
              results_of_this_type image_name st = inl AttributeError)
    as Hraise.
  { intros rs st. unfold Results.process_image, Results.prepare_image.
    by rewrite Hmatch. }
  split; [done|].
  apply (reconcile_raises _ _ _ _ _ _ _ _ Hentry).
  intros rs st _. by exists AttributeError.
Qed.

(** X10: unlike a missing expectation entry, an entry whose list of allowed
    digests is empty is fatal: the [IndexError] of its first element is not
    caught, the body of the loop raises it once the image name is parsed and
    the actual image reference is made, and reconciliation raises as soon as
    the actual tree lists such an image. *)
Theorem empty_allowed_digests_are_fatal
    actual expected diff_base_url log builder result_type image_name v
    expectations_per_test :
  actual_entry actual builder result_type image_name = inr v →
  Results.expectation_entry expected builder image_name
    = inr expectations_per_test →
  getitem expectations_per_test JSONKEY_EXPECTEDRESULTS_ALLOWEDDIGESTS
    = inr (PList []) →
  (∀ results_of_this_type st test config actual_url,
     IMAGE_FILENAME_RE_match image_name = Some (test, config) →
     getitem results_of_this_type image_name = inr v →
     Results._create_relative_url v test = inr actual_url →
     Results.process_image expected builder result_type results_of_this_type
       image_name st = inl IndexError) ∧
  ∃ e, Results.reconcile actual expected diff_base_url log = inl e.
Proof.
  intros Hentry Hexpected Hdigests.
  assert (∀ test st,
            Results.find_expectations expected builder result_type image_name
              test st = inl IndexError) as Hfind.
  { intros test st. unfold Results.find_expectations, Results.try_expectations.
    rewrite Hexpected. simpl. by rewrite Hdigests. }
  split.
  - intros rs st test config actual_url Hmatch Hv Hurl.
    unfold Results.process_image, Results.prepare_image.
    rewrite Hmatch. simpl. rewrite Hv. simpl. rewrite Hurl. simpl.
    by rewrite Hfind.
  - apply (reconcile_raises _ _ _ _ _ _ _ _ Hentry).
    intros rs st Hv. unfold Results.process_image, Results.prepare_image.
    destruct (IMAGE_FILENAME_RE_match image_name) as [[test config]|];
      [|by eexists]. simpl. rewrite Hv. simpl.
    destruct (Results._create_relative_url v test); [by eexists|]. simpl.
    rewrite Hfind. by eexists.
Qed.
End Listed.

Section Accounting.
Context {imports : Imports}.

Lemma keeps_records_refl st : keeps_records st st.
Proof. by split. Qed.

Lemma keeps_records_trans st1 st2 st3 :
  keeps_records st1 st2 → keeps_records st2 st3 → keeps_records st1 st3.
Proof. intros [H1 H2] [H3 H4]. split; intros; auto. Qed.

Lemma keeps_records_logging r st : keeps_records st (Results.logging r st).
Proof.
  split; [done|]. intros r' Hr'. simpl. apply elem_of_app. by left.
Qed.

Lemma find_expectations_keeps expected builder result_type image_name test st
    url expectations st' :
  Results.find_expectations expected builder result_type image_name test st
  = inr (url, expectations, st') →
  keeps_records st st'.
Proof.
  unfold Results.find_expectations. intros Hfind.
  destruct (Results.try_expectations _ _ _ _) as [[]|[]];
    try discriminate;
    try (injection Hfind as <- <- <-; apply keeps_records_refl);
    (destruct (bool_decide _); injection Hfind as <- <- <-;
     [apply keeps_records_logging|apply keeps_records_refl]).
Qed.

Lemma add_image_keeps args st : keeps_records st (Results.add_image args st).
Proof.
  destruct (add_image_cases args st) as [(d & _ & ->)|(e & _ & ->)];
    [|apply keeps_records_logging].
  split; [|done]. intros p Hp. simpl. apply elem_of_app. by left.
Qed.

Lemma process_image_keeps expected builder result_type results_of_this_type
    image_name st st' :
  Results.process_image expected builder result_type results_of_this_type
    image_name st = inr st' →
  keeps_records st st'.
Proof.
  unfold Results.process_image. intros Himage.
  apply bind_inr in Himage as ([args t] & Hprepare & Himage).
  injection Himage as <-.
  apply prepare_image_inr in Hprepare
    as (test & config & v & _ & _ & _ & Hfind & _).
  eapply keeps_records_trans;
    [by eapply find_expectations_keeps|apply add_image_keeps].
Qed.

Lemma process_result_type_keeps expected builder actual_results result_type
    st st' :
  Results.process_result_type expected builder actual_results result_type st
  = inr st' →
  keeps_records st st'.
Proof.
  unfold Results.process_result_type. intros Htype.
  apply bind_inr in Htype as (rs & _ & Htype).
  destruct (negb (truthy rs));
    [injection Htype as <-; apply keeps_records_refl|].
  apply bind_inr in Htype as (image_names & _ & Hloop).
  revert Hloop. apply (for_each_monotone keeps_records).
  - apply keeps_records_refl.
  - apply keeps_records_trans.
  - intros y t t'. apply process_image_keeps.
Qed.

Lemma process_builder_keeps actual expected num_builders builder s s' :
  Results.process_builder actual expected num_builders builder s = inr s' →
  keeps_records s.2 s'.2.
Proof.
  unfold Results.process_builder. intros Hbuilder.
  apply bind_inr in Hbuilder as (builder_dict & _ & Hbuilder).
  apply bind_inr in Hbuilder as (actual_results & _ & Hbuilder).
  apply bind_inr in Hbuilder as (result_types & _ & Hbuilder).
  apply bind_inr in Hbuilder as (t & Hloop & Hbuilder).
  injection Hbuilder as <-. simpl.
  apply (for_each_monotone keeps_records) in Hloop;
    [|apply keeps_records_refl|apply keeps_records_trans
     |intros y u u'; apply process_result_type_keeps].
  eapply keeps_records_trans; [apply keeps_records_logging|exact Hloop].
Qed.

(** What the body of the innermost loop leaves of a listed image. *)
Lemma process_image_outcome actual expected builder result_type image_name v
    results_of_this_type st st' :
  actual_entry actual builder result_type image_name = inr v →
  getitem results_of_this_type image_name = inr v →
  Results.process_image expected builder result_type results_of_this_type
    image_name st = inr st' →
  (∃ p, p ∈ image_pairs (Results.all_image_pairs st') ∧
        reconciled actual expected builder result_type image_name p) ∨
  (∃ e, Exception_creating_ImagePair e ∈ Results.log st' ∧
        diff_failed expected builder result_type image_name v e).
Proof.
  intros Hentry Hv. unfold Results.process_image. intros Himage.
  apply bind_inr in Himage as ([args t] & Hprepare & Himage).
  injection Himage as <-.
  apply prepare_image_inr in Hprepare
    as (test & config & v' & Hmatch & Hv' & Hurl & Hfind & Htype & Hcolumns).
  assert (v' = v) as -> by congruence.
  destruct (add_image_cases args t) as [(d & Hdiff & ->)|(e & Hdiff & ->)].
  - left. eexists. split; [simpl; apply elem_of_app; right; by left|].
    exists test, config, v, st, t. simpl.
    repeat split; try done. by rewrite Hcolumns, Htype.
  - right. exists e. split; [simpl; apply elem_of_app; right; by left|].
    exists test, config, (Results.arg_imageB_relative_url args),
      (Results.arg_imageA_relative_url args), (Results.arg_expectations args),
      st, t.
    repeat split; try done. by rewrite <- Htype, <- Hcolumns.
Qed.

(** X11: reconciliation that returns has accounted for every image that the
    actual tree lists: either the first partition holds a record made of
    it, or the diff store raised for it and the exception is in the log. *)
Theorem every_listed_image_is_accounted_for
    actual expected diff_base_url log st builder result_type image_name v :
  Results.reconcile actual expected diff_base_url log = inr st →
  actual_entry actual builder result_type image_name = inr v →
  (∃ p, p ∈ image_pairs (Results.all_image_pairs st) ∧
        reconciled actual expected builder result_type image_name p) ∨
  (∃ e, Exception_creating_ImagePair e ∈ Results.log st ∧
        diff_failed expected builder result_type image_name v e).
Proof.
  intros Hreconcile Hentry.
  pose proof Hentry as Hlisted.
  apply actual_entry_inr in Hlisted
    as (builder_dict & actual_results & results_of_this_type & Hbuilder
        & Hresults & Htype & Himage & Hb & Hrt & Hi & Htruthy).
  unfold Results.reconcile in Hreconcile.
  apply bind_inr in Hreconcile as (s & Hloop & Hst). injection Hst as <-.
  apply (for_each_visits (λ s s', keeps_records s.2 s'.2) _ _ builder)
    in Hloop as (s0 & s1 & Hvisit & Hkeep1);
    [|intros; apply keeps_records_refl
     |intros ???; apply keeps_records_trans
     |intros ???; apply process_builder_keeps|done].
  unfold Results.process_builder in Hvisit.
  rewrite Hbuilder in Hvisit. simpl in Hvisit.
  rewrite Hresults in Hvisit. simpl in Hvisit.
  apply bind_inr in Hvisit as (t & Hloop & Hs1). injection Hs1 as <-.
  apply (for_each_visits keeps_records _ _ result_type)
    in Hloop as (t0 & t1 & Hvisit & Hkeep2);
    [|apply keeps_records_refl|apply keeps_records_trans
     |intros ???; apply process_result_type_keeps|done].
  unfold Results.process_result_type in Hvisit. simpl in Hvisit.
  rewrite Htype in Hvisit. simpl in Hvisit, Htruthy.
  rewrite Htruthy in Hvisit. simpl in Hvisit.
  apply (for_each_visits keeps_records _ _ image_name)
    in Hvisit as (u0 & u1 & Hvisit & Hkeep3);
    [|apply keeps_records_refl|apply keeps_records_trans
     |intros ???; apply process_image_keeps|done].
  pose proof (keeps_records_trans _ _ _ Hkeep3
                (keeps_records_trans _ _ _ Hkeep2 Hkeep1)) as [Hpairs Hlog].
  simpl in Hpairs, Hlog.
  eapply process_image_outcome in Hvisit as [(p & Hp & Hrec)|(e & He & Hfail)];
    [| |done|simpl; by rewrite Himage].
  - left. exists p. split; [by apply Hpairs|done].
  - right. exists e. split; [by apply Hlog|done].
Qed.
End Accounting.

Section Logs.
Context {imports : Imports}.

(** As [reconcile_invariant], for a property that only the records of the
    progress through the builders need to keep. *)
Lemma reconcile_invariant_of_progress (P : Results.load_state → Prop)
    actual expected diff_base_url log st :
  P (Results.initial_load_state diff_base_url log) →
  (∀ builder_num num_builders builder t,
     P t →
     P (Results.logging
          (Info_generating_pixel_diffs builder_num num_builders builder) t)) →
  (∀ builder builder_dict actual_results result_type results_of_this_type
     image_name t t',
     getitem (PDict actual) builder = inr builder_dict →
     getitem builder_dict JSONKEY_ACTUALRESULTS = inr actual_results →
     getitem actual_results result_type = inr results_of_this_type →
     P t →
     Results.process_image expected builder result_type results_of_this_type
       image_name t = inr t' →
     P t') →
  Results.reconcile actual expected diff_base_url log = inr st →
  P st.
Proof.
  intros Hinit Hlog Hbody. unfold Results.reconcile. intros Hloop.
  apply bind_inr in Hloop as (s & Hloop & [= <-]).
  revert Hloop. apply (for_each_invariant (λ s, P s.2)); [|done].
  intros builder [n t] [n' t'] _ Ht Hbuilder. simpl in Ht |- *.
  unfold Results.process_builder in Hbuilder.
  apply bind_inr in Hbuilder as (builder_dict & Hdict & Hbuilder).
  apply bind_inr in Hbuilder as (actual_results & Hresults & Hbuilder).
  apply bind_inr in Hbuilder as (result_types & _ & Hbuilder).
  apply bind_inr in Hbuilder as (u & Htypes & [= _ <-]).
  revert Htypes. apply (for_each_invariant P); [|by apply Hlog].
  intros result_type v v' _ Hv Htype. unfold Results.process_result_type in Htype.
  apply bind_inr in Htype as (results_of_this_type & Hthis & Htype).
  destruct (negb (truthy results_of_this_type)); [by injection Htype as <-|].
  apply bind_inr in Htype as (image_names & _ & Himages).
  revert Himages. apply (for_each_invariant P); [|done].
  intros image_name w w' _. by apply Hbody with builder_dict actual_results.
Qed.

(** What the first [try] and its handler add to the log. *)
Lemma find_expectations_log expected builder result_type image_name test st
    url expectations st' :
  Results.find_expectations expected builder result_type image_name test st
  = inr (url, expectations, st') →
  Results.log st' = Results.log st ∨
  Results.log st'
  = Results.log st
    ++ [Results.no_expectations_found builder result_type image_name] ∧
  result_type ≠ KEY__RESULT_TYPE__NOCOMPARISON ∧
  ∃ e, Results.try_expectations expected builder image_name test = inl e ∧
       (e = KeyError ∨ e = TypeError).
Proof.
  unfold Results.find_expectations. intros Hfind.
  destruct (Results.try_expectations _ _ _ _) as [e|[]] eqn:Htry;
    [|injection Hfind as <- <- <-; by left].
  assert (e = KeyError ∨ e = TypeError) as He
    by (destruct e; try discriminate; auto).
  assert ((if bool_decide (result_type ≠ KEY__RESULT_TYPE__NOCOMPARISON)
           then inr (None, None,
                     Results.logging
                       (Results.no_expectations_found builder result_type
                          image_name) st)
           else inr (None, None, st))
          = (inr (url, expectations, st')
             : exn + (option string * option (gmap string pyval)
                      * Results.load_state))) as Hcase
    by (by destruct He as [-> | ->]).
  clear Hfind. case_bool_decide as Htype.
  - injection Hcase as <- <- <-. right. repeat split; try done. by exists e.
  - injection Hcase as <- <- <-. by left.
Qed.

Lemma add_image_log args st :
  Results.log (Results.add_image args st) = Results.log st ∨
  ∃ e, Results.log (Results.add_image args st)
       = Results.log st ++ [Exception_creating_ImagePair e].
Proof.
  destruct (add_image_cases args st) as [(d & _ & ->)|(e & _ & ->)];
    [by left|right; by exists e].
Qed.

(** X12: every warning that reconciliation logs is justified: it names a
    builder, a result type other than NOCOMPARISON and an image that the
    actual tree lists for them (its dictionary gives the three under their
    keys, which are three different keys), and looking up the expectations
    of that image raised [KeyError] or [TypeError]. *)
Theorem every_warning_is_justified
    actual expected diff_base_url log st r :
  warning_keys_apart →
  Results.reconcile actual expected diff_base_url log = inr st →
  r ∈ Results.log st → is_warning r = true →
  r ∈ log ∨ justified_warning actual expected r.
Proof.
  intros Hkeys Hreconcile. revert r.
  revert Hreconcile.
  apply (reconcile_invariant_of_progress
           (λ t, ∀ r, r ∈ Results.log t → is_warning r = true →
                      r ∈ log ∨ justified_warning actual expected r)).
  - intros r Hr _. by left.
  - intros n m b t Ht r Hr Hwarning. simpl in Hr.
    apply elem_of_app in Hr as [Hr|Hr]; [by apply Ht|].
    apply list_elem_of_singleton in Hr as ->. discriminate.
  - intros builder builder_dict actual_results result_type
      results_of_this_type image_name t t' Hbuilder Hresults Htype Ht Himage
      r Hr Hwarning.
    unfold Results.process_image in Himage.
    apply bind_inr in Himage as ([args u] & Hprepare & Himage).
    injection Himage as <-.
    apply prepare_image_inr in Hprepare
      as (test & config & v & Hmatch & Hv & _ & Hfind & _).
    assert (r ∈ Results.log u) as Hu.
    { destruct (add_image_log args u) as [Heq|[e Heq]];
        rewrite Heq in Hr; [done|].
      apply elem_of_app in Hr as [Hr|Hr]; [done|].
      apply list_elem_of_singleton in Hr as ->. discriminate. }
    apply find_expectations_log in Hfind
      as [Heq|(Heq & Hnocomparison & e & Htry & He)];
      rewrite Heq in Hu; [by apply Ht|].
    apply elem_of_app in Hu as [Hu|Hu]; [by apply Ht|].
    apply list_elem_of_singleton in Hu as ->. right.
    exists builder, result_type, image_name, test, config, e.
    split; [done|]. split; [by apply no_expectations_found_names|].
    split; [done|]. split; [|done].
    exists v. unfold actual_entry.
    rewrite Hbuilder. simpl. rewrite Hresults. simpl. by rewrite Htype.
Qed.

(** What the loop over the fields passed through verbatim builds. *)
Lemma expectations_dict_lookup (entry acc : gmap string pyval)
    (fields : list string) :
  ∃ expectations_dict : gmap string pyval,
    for_each
      (λ field expectations_dict,
         value ← dict_get (PDict entry) field;
         mret (<[field := value]> expectations_dict))
      fields acc = inr expectations_dict ∧
    ∀ field,
      expectations_dict !! field
      = if bool_decide (field ∈ fields)
        then Some (default PNone (entry !! field))
        else acc !! field.
Proof.
  revert acc. induction fields as [|f fields IH]; intros acc.
  - exists acc. split; [done|]. intros field.
    rewrite bool_decide_eq_false_2; [done|apply not_elem_of_nil].
  - destruct (IH (<[f := default PNone (entry !! f)]> acc))
      as (d & Hloop & Hd).
    exists d. split; [exact Hloop|]. intros field. rewrite Hd.
    destruct (decide (field ∈ fields)) as [Hin|Hin].
    + rewrite !bool_decide_eq_true_2; [done|by right|done].
    + rewrite (bool_decide_eq_false_2 _ Hin).
      destruct (decide (field = f)) as [->|Hne].
      * rewrite bool_decide_eq_true_2 by left. apply lookup_insert_eq.
      * rewrite bool_decide_eq_false_2
          by (intros [?|?]%elem_of_cons; done).
        by apply lookup_insert_ne.
Qed.

(** The body of the first [try] on an entry with a first allowed
    digest. *)
Lemma try_expectations_entry expected builder image_name test entry first
    others url :
  Results.expectation_entry expected builder image_name
    = inr (PDict entry) →
  entry !! JSONKEY_EXPECTEDRESULTS_ALLOWEDDIGESTS
    = Some (PList (first :: others)) →
  Results._create_relative_url first test = inr url →
  ∃ expectations_dict : gmap string pyval,
    Results.try_expectations expected builder image_name test
    = inr (url, expectations_dict) ∧
    ∀ field,
      expectations_dict !! field
      = if bool_decide
             (field ∈ Results.EXPECTATION_FIELDS_PASSED_THRU_VERBATIM)
        then Some (default PNone (entry !! field))
        else None.
Proof.
  intros Hentry Hdigests Hurl.
  destruct (expectations_dict_lookup entry ∅
              Results.EXPECTATION_FIELDS_PASSED_THRU_VERBATIM)
    as (d & Hloop & Hd).
  exists d. split.
  - unfold Results.try_expectations.
    rewrite Hentry. simpl. rewrite Hdigests. simpl. rewrite Hurl.
    simpl in Hloop |- *. by injection Hloop as <-.
  - intros field. rewrite Hd. by rewrite lookup_empty.
Qed.

(** X13: when the expected tree holds an entry for the image, the expected
    image is made of the first allowed digest alone, whatever follows it in
    the list; the expectations hold exactly the fields passed through
    verbatim, each with the value of the entry or [None] where the entry
    lacks it; and nothing is logged. *)
Theorem expectations_come_from_the_first_allowed_digest
    expected builder result_type image_name test st entry first others url :
  Results.expectation_entry expected builder image_name
    = inr (PDict entry) →
  entry !! JSONKEY_EXPECTEDRESULTS_ALLOWEDDIGESTS
    = Some (PList (first :: others)) →
  Results._create_relative_url first test = inr url →
  ∃ expectations_dict : gmap string pyval,
    Results.find_expectations expected builder result_type image_name test st
    = inr (url, Some expectations_dict, st) ∧
    ∀ field,
      expectations_dict !! field
      = if bool_decide
             (field ∈ Results.EXPECTATION_FIELDS_PASSED_THRU_VERBATIM)
        then Some (default PNone (entry !! field))
        else None.
Proof.
  intros Hentry Hdigests Hurl.
  destruct (try_expectations_entry _ _ _ _ _ _ _ _ Hentry Hdigests Hurl)
    as (d & Htry & Hd).
  exists d. split; [|exact Hd].
  unfold Results.find_expectations. by rewrite Htry.
Qed.

Lemma progress_app l1 l2 : progress (l1 ++ l2) = progress l1 ++ progress l2.
Proof. apply List.filter_app. Qed.

Lemma process_image_progress expected builder result_type results_of_this_type
    image_name st st' :
  Results.process_image expected builder result_type results_of_this_type
    image_name st = inr st' →
  progress (Results.log st') = progress (Results.log st).
Proof.
  unfold Results.process_image. intros Himage.
  apply bind_inr in Himage as ([args u] & Hprepare & Himage).
  injection Himage as <-.
  apply prepare_image_inr in Hprepare
    as (test & config & v & _ & _ & _ & Hfind & _).
  assert (progress (Results.log u) = progress (Results.log st)) as <-.
  { apply find_expectations_log in Hfind as [->|(-> & _)]; [done|].
    rewrite progress_app. simpl. apply app_nil_r. }
  destruct (add_image_log args u) as [->|[e ->]]; [done|].
  rewrite progress_app. simpl. apply app_nil_r.
Qed.

Lemma process_builder_progress actual expected num_builders builder s s' :
  Results.process_builder actual expected num_builders builder s = inr s' →
  s'.1 = S s.1 ∧
  progress (Results.log s'.2)
  = progress (Results.log s.2)
    ++ [Info_generating_pixel_diffs (S s.1) num_builders builder].
Proof.
  unfold Results.process_builder. intros Hbuilder.
  apply bind_inr in Hbuilder as (builder_dict & _ & Hbuilder).
  apply bind_inr in Hbuilder as (actual_results & _ & Hbuilder).
  apply bind_inr in Hbuilder as (result_types & _ & Hbuilder).
  apply bind_inr in Hbuilder as (t & Hloop & Hbuilder).
  injection Hbuilder as <-. split; [done|]. simpl.
  revert Hloop.
  apply (for_each_invariant
           (λ t, progress (Results.log t)
                 = progress (Results.log s.2)
                   ++ [Info_generating_pixel_diffs (S s.1) num_builders
                         builder])).
  - intros result_type u u' _ Hu Htype.
    unfold Results.process_result_type in Htype.
    apply bind_inr in Htype as (rs & _ & Htype).
    destruct (negb (truthy rs)); [by injection Htype as <-|].
    apply bind_inr in Htype as (image_names & _ & Himages).
    revert Himages.
    apply (for_each_invariant
             (λ t, progress (Results.log t)
                   = progress (Results.log s.2)
                     ++ [Info_generating_pixel_diffs (S s.1) num_builders
                           builder])); [|done].
    intros image_name w w' _ Hw Himage.
    by rewrite (process_image_progress _ _ _ _ _ _ _ Himage).
  - simpl. by rewrite progress_app.
Qed.

Lemma process_builders_progress actual expected num_builders builders s s' :
  for_each (Results.process_builder actual expected num_builders) builders s
  = inr s' →
  progress (Results.log s'.2)
  = progress (Results.log s.2)
    ++ imap (λ j builder,
               Info_generating_pixel_diffs (S (s.1 + j)) num_builders builder)
         builders.
Proof.
  revert s. induction builders as [|b builders IH]; intros s Hloop.
  - injection Hloop as <-. simpl. by rewrite app_nil_r.
  - simpl in Hloop. apply bind_inr in Hloop as (s1 & Hb & Hloop).
    apply process_builder_progress in Hb as [Hcount Hb].
    rewrite (IH _ Hloop), Hb, Hcount, <- app_assoc. simpl.
    rewrite Nat.add_0_r. do 2 f_equal.
    apply imap_ext. intros j x _. simpl. do 2 f_equal. lia.
Qed.

(** X14: reconciliation goes through the builders of the actual tree in
    sorted order, each once, and logs its progress: the progress records
    that it adds are one per builder, numbered from 1, each with the number
    of builders. *)
Theorem builders_are_processed_in_sorted_order
    actual expected diff_base_url log st :
  Results.reconcile actual expected diff_base_url log = inr st →
  let builders := sorted (keys actual) in
  progress (Results.log st)
  = progress log
    ++ imap (λ j builder,
               Info_generating_pixel_diffs (S j) (length builders) builder)
         builders ∧
  StronglySorted str_le builders ∧
  NoDup builders ∧
  ∀ builder, builder ∈ builders ↔ is_Some (actual !! builder).
Proof.
  intros Hreconcile builders. unfold Results.reconcile in Hreconcile.
  apply bind_inr in Hreconcile as (s & Hloop & Hst). injection Hst as <-.
  apply process_builders_progress in Hloop. simpl in Hloop.
  split; [exact Hloop|]. split; [apply sorted_StronglySorted|]. split.
  - unfold builders. rewrite sorted_Permutation. apply NoDup_keys.
  - intros builder. unfold builders.
    rewrite elem_of_sorted. apply elem_of_keys.
Qed.
End Logs.

Section MoreService.
Context {imports : Imports}.

Lemma init_results fs actuals_root expected_root generated_images_root
    diff_base_url time_start timestamp this log :
  Results.__init__ fs actuals_root expected_root generated_images_root
    diff_base_url time_start timestamp = inr (this, log) →
  Results._timestamp this = timestamp ∧
  ∃ st, Results._results this = Results.results_of st.
Proof.
  unfold Results.__init__. intros Hinit.
  apply bind_inr in Hinit as ([results st] & Hload & Hinit).
  injection Hinit as <- <-. split; [done|]. exists st. simpl.
  unfold Results._load_actual_and_expected in Hload.
  apply bind_inr in Hload as (actual & _ & Hload).
  apply bind_inr in Hload as (expected & _ & Hload).
  apply bind_inr in Hload as (st' & _ & Hload).
  by injection Hload as <- <-.
Qed.

Lemma results_of_lookup st results_type :
  Results.results_of st !! results_type
  = if decide (results_type = KEY__HEADER__RESULTS_FAILURES)
    then Some (imagepairset.as_dict (Results.failing_image_pairs st))
    else if decide (results_type = KEY__HEADER__RESULTS_ALL)
         then Some (imagepairset.as_dict (Results.all_image_pairs st))
         else None.
Proof.
  unfold Results.results_of.
  destruct (decide (results_type = KEY__HEADER__RESULTS_FAILURES)) as [->|?];
    [apply lookup_insert_eq|].
  rewrite lookup_insert_ne by done.
  destruct (decide (results_type = KEY__HEADER__RESULTS_ALL)) as [->|?];
    [apply lookup_insert_eq|].
  by rewrite lookup_insert_ne.
Qed.

Lemma data_hash_of_as_dict s : returns (Results.data_hash_of (imagepairset.as_dict s)).
Proof.
  unfold Results.data_hash_of, imagepairset.as_dict. simpl.
  rewrite lookup_insert_eq. simpl. by eexists.
Qed.

(** X15: an object that the constructor returns has the timestamp it was
    given, and answers for the two kinds of results, ALL and FAILURES:
    for these, reading and packaging the results return, whatever the
    arguments of the packaging; for any other kind both raise
    [KeyError]. *)
Theorem constructed_object_answers_for_both_kinds
    fs actuals_root expected_root generated_images_root diff_base_url
    time_start timestamp this log results_type :
  Results.__init__ fs actuals_root expected_root generated_images_root
    diff_base_url time_start timestamp = inr (this, log) →
  Results.get_timestamp this = timestamp ∧
  if bool_decide (results_type = KEY__HEADER__RESULTS_ALL
                  ∨ results_type = KEY__HEADER__RESULTS_FAILURES)
  then
    returns (Results.get_results_of_type this results_type) ∧
    ∀ reload_seconds is_editable is_exported,
      returns (Results.get_packaged_results_of_type this results_type
                 reload_seconds is_editable is_exported)
  else
    Results.get_results_of_type this results_type = inl KeyError ∧
    ∀ reload_seconds is_editable is_exported,
      Results.get_packaged_results_of_type this results_type reload_seconds
        is_editable is_exported = inl KeyError.
Proof.
  intros (Htime & st & Hresults)%init_results. split; [done|].
  unfold Results.get_packaged_results_of_type, Results.get_results_of_type.
  rewrite Hresults, results_of_lookup.
  case_bool_decide as Hkind.
  - assert (∃ s,
              (if decide (results_type = KEY__HEADER__RESULTS_FAILURES)
               then Some (imagepairset.as_dict (Results.failing_image_pairs st))
               else if decide (results_type = KEY__HEADER__RESULTS_ALL)
                    then Some (imagepairset.as_dict
                                 (Results.all_image_pairs st))
                    else None) = Some (imagepairset.as_dict s)) as [s ->].
    { repeat case_decide; try (by eexists). by destruct Hkind. }
    split; [by eexists|]. intros reload_seconds is_editable is_exported.
    simpl. destruct (data_hash_of_as_dict s) as [data_hash ->]. simpl.
    by eexists.
  - rewrite !decide_False by (intros ->; apply Hkind; auto). done.
Qed.

(** X16: packaging does not accumulate: packaging a kind of results again,
    with other arguments, returns the response and leaves the object that
    packaging with those arguments in the first place would have. *)
Theorem packaging_again_replaces_the_header
    this results_type reload_seconds is_editable is_exported response this'
    reload_seconds' is_editable' is_exported' :
  KEY__HEADER ≠ KEY__IMAGEPAIRS →
  Results.get_packaged_results_of_type this results_type reload_seconds
    is_editable is_exported = inr (response, this') →
  Results.get_packaged_results_of_type this' results_type reload_seconds'
    is_editable' is_exported'
  = Results.get_packaged_results_of_type this results_type reload_seconds'
      is_editable' is_exported' ∧
  returns (Results.get_packaged_results_of_type this results_type
             reload_seconds' is_editable' is_exported').
Proof.
  intros Hkeys.
  unfold Results.get_packaged_results_of_type, Results.get_results_of_type,
    Results.get_timestamp.
  destruct (Results._results this !! results_type) as [stored|] eqn:Hstored;
    [|discriminate]. simpl.
  destruct (Results.data_hash_of stored) as [|data_hash] eqn:Hhash;
    [discriminate|]. simpl.
  intros [= <- <-]. simpl. rewrite lookup_insert_eq. simpl.
  rewrite data_hash_of_header, Hhash by done. simpl.
  split; [|by eexists].
  by rewrite !insert_insert_eq.
Qed.
End MoreService.

Section Rebaseline.
Context {imports : Imports}.

(** X17: rebaselining works: once [edit_expectations] has returned, the
    expected tree that is then on disk makes every record of the image that
    the last modification names SUCCEEDED, whatever the result type under
    which the actual tree lists the image, provided the actual tree gives
    the image the hash type and the digest of the new image of the
    modification. *)
Theorem rebaselined_image_succeeds_on_reload
    fs fs' this before modification after builder image_name hash_type
    digest :
  allowed_digests_key_apart →
  result_type_key_apart →
  Results.edit_expectations this (before ++ modification :: after) fs
    = (inr (), fs') →
  targets modification builder image_name →
  (∀ later, later ∈ after → ¬ targets later builder image_name) →
  new_allowed_digests modification
    = inr (PList [PList [PStr hash_type; PInt digest]]) →
  ∃ expected_builder_dicts,
    Results._read_dicts_from_root fs' (Results._expected_root this) "*.json"
      = inr expected_builder_dicts ∧
    ∀ actual_builder_dicts result_type p,
      actual_entry actual_builder_dicts builder result_type image_name
        = inr (PList [PStr hash_type; PInt digest]) →
      reconciled actual_builder_dicts expected_builder_dicts builder
        result_type image_name p →
      final_classification p = Some (PStr KEY__RESULT_TYPE__SUCCEEDED).
Proof.
  unfold Results.edit_expectations.
  intros Hdigests_key Hresult_key Hedit Htargets Hlater Hdigests.
  destruct (Results._read_dicts_from_root fs (Results._expected_root this)
              "*.json")
    as [e|loaded] eqn:Hread; [by injection Hedit|]. simpl in Hedit.
  destruct (for_each Results.apply_modification _ loaded)
    as [e|tree] eqn:Happly; [by injection Hedit|].
  exists tree. split.
  { apply (write_then_read fs fs' _ _ loaded); [done| |done].
    by apply (apply_modifications_dom _ _ _ Happly). }
  rewrite for_each_app in Happly.
  apply bind_inr in Happly as (d1 & _ & Happly). simpl in Happly.
  apply bind_inr in Happly as (d2 & Hmod & Hafter).
  pose proof Hmod as Hnew.
  apply apply_modification_inr in Hnew
    as (_ & new & _ & _ & _ & _ & Hnew & _).
  assert (stored_expectations tree builder image_name = inr (PDict new))
    as Hstored.
  { revert Hafter.
    apply (for_each_invariant
             (λ t, stored_expectations t builder image_name
                   = inr (PDict new))).
    - intros later t t' Hin Ht Hlater'.
      apply (apply_modification_keeps later t); [done|by apply Hlater|done].
    - by apply (apply_modification_stores modification d1). }
  apply mod_new_expectations_inr in Hnew as (ht & dg & Hdigests' & Hlookup).
  assert (new !! JSONKEY_EXPECTEDRESULTS_ALLOWEDDIGESTS
          = Some (PList [PList [PStr hash_type; PInt digest]])) as Hallowed.
  { rewrite Hlookup. rewrite decide_False by done.
    rewrite decide_True by done. congruence. }
  intros actual result_type p Hentry
    (test & config & v & st & st' & Hmatch & Hentry' & Hactual & Hfind
     & Hcolumns & _).
  assert (v = PList [PStr hash_type; PInt digest]) as -> by congruence.
  destruct (try_expectations_entry tree builder image_name test new _ _ _
              Hstored Hallowed Hactual) as (dict & Htry & _).
  unfold Results.find_expectations in Hfind. rewrite Htry in Hfind.
  injection Hfind as Hexpected _ _.
  rewrite (final_classification_columns _ _ _ _ _ Hresult_key Hcolumns).
  unfold Results.updated_result_type_of.
  by rewrite bool_decide_eq_true_2.
Qed.
End Rebaseline.

(** The loop returns when its body returns on every element of the list, in
    whatever state. *)
Lemma for_each_returns {A S} (body : A → S → exn + S) (xs : list A) (s : S) :
  (∀ x t, x ∈ xs → returns (body x t)) → returns (for_each body xs s).
Proof.
  revert s. induction xs as [|x xs IH]; intros s Hbody; [by exists s|].
  simpl. destruct (Hbody x s) as [t ->]; [by left|]. simpl.
  apply IH. intros y u Hy. apply Hbody. by right.
Qed.

Section Returns.
Context {imports : Imports}.

Lemma find_expectations_returns expected builder result_type image_name test
    st :
  expectations_well_formed expected builder image_name test →
  returns (Results.find_expectations expected builder result_type image_name
             test st).
Proof.
  intros Hwf.
  destruct (Results.expectation_entry expected builder image_name)
    as [e|entry] eqn:Hentry.
  - rewrite (find_expectations_no_entry _ _ _ _ _ _ _ Hentry). by eexists.
  - destruct (Hwf entry Hentry)
      as (fields & first & others & -> & Hdigests & [url Hurl]).
    destruct (try_expectations_entry _ _ _ _ _ _ _ _ Hentry Hdigests Hurl)
      as (d & Htry & _).
    unfold Results.find_expectations. rewrite Htry. by eexists.
Qed.

Lemma process_image_returns expected builder result_type
    (images : gmap string pyval) image_name v st :
  images !! image_name = Some v →
  image_well_formed expected builder image_name v →
  returns (Results.process_image expected builder result_type (PDict images)
             image_name st).
Proof.
  intros Hv (test & config & Hmatch & [url Hurl] & Hwf).
  destruct (find_expectations_returns expected builder result_type image_name
              test st Hwf) as [[[expected_url expectations] st'] Hfind].
  unfold Results.process_image, Results.prepare_image.
  rewrite Hmatch. simpl. rewrite Hv. simpl. rewrite Hurl. simpl.
  rewrite Hfind. simpl. by eexists.
Qed.

(** X18: reconciliation returns on a well-formed actual tree: one in which
    every document holds a dictionary of actual results, every result type
    is without images or a dictionary of images, every image name is one of
    a test and a configuration, an image reference can be made of every
    digest, and the expectations that the expected tree holds for an image
    have a first allowed digest. *)
Theorem reconciliation_returns_on_well_formed_trees
    actual expected diff_base_url log :
  actual_well_formed actual expected →
  returns (Results.reconcile actual expected diff_base_url log).
Proof.
  intros Hwf. unfold Results.reconcile.
  destruct (for_each_returns
              (Results.process_builder actual expected
                 (length (sorted (keys actual))))
              (sorted (keys actual))
              (0, Results.initial_load_state diff_base_url log))
    as [s ->]; [|by eexists].
  intros builder [n t] [builder_dict Hbuilder]%elem_of_sorted%elem_of_keys.
  destruct (Hwf builder builder_dict Hbuilder)
    as (actual_results & Hresults & Htypes).
  unfold Results.process_builder. simpl. rewrite Hbuilder. simpl.
  rewrite Hresults. simpl.
  destruct (for_each_returns
              (Results.process_result_type expected builder
                 (PDict actual_results))
              (sorted (keys actual_results))
              (Results.logging
                 (Info_generating_pixel_diffs (S n)
                    (length (sorted (keys actual))) builder) t))
    as [u ->]; [|by eexists].
  intros result_type u [rs Htype]%elem_of_sorted%elem_of_keys.
  unfold Results.process_result_type. simpl. rewrite Htype. simpl.
  destruct (Htypes result_type rs Htype) as [->|(images & -> & Himages)];
    [by eexists|].
  destruct (negb (truthy (PDict images))); [by eexists|]. simpl.
  apply for_each_returns.
  intros image_name w [v Hv]%elem_of_sorted%elem_of_keys.
  apply (process_image_returns _ _ _ _ _ v); [done|by eapply Himages].
Qed.
End Returns.

(** ** The further properties on the examples *)

Lemma example_expected_files :
  expected_files (imports := skia.imports) example.service example.disk
  = [("expected/B1", "expected-results.json")].
Proof. vm_compute. reflexivity. Qed.

Lemma example_read_expected :
  Results._read_dicts_from_root (imports := skia.imports) example.disk
    (Results._expected_root example.service) "*.json"
  = inr example.expected_tree.
Proof. vm_compute. reflexivity. Qed.

Lemma example_no_null_document : no_null_document example.expected_tree.
Proof.
  unfold example.expected_tree.
  intros builder v [_ <-]%lookup_singleton_Some Hnull.
  vm_compute in Hnull. discriminate.
Qed.

Lemma example_one_file_per_builder :
  NoDup (builder_of <$>
           expected_files (imports := skia.imports) example.service
             example.disk).
Proof. rewrite example_expected_files. apply NoDup_singleton. Qed.

Lemma skia_allowed_digests_key_apart :
  allowed_digests_key_apart (imports := skia.imports).
Proof.
  intros Hin. repeat (apply elem_of_cons in Hin as [Hin|Hin]; [discriminate|]).
  by apply elem_of_nil in Hin.
Qed.

Lemma loader_last_file_wins_witness :
  ({["B1" := example2.expected_B1_later]} : gmap string pyval) !! "B1"
  = match
      last_file_of "B1"
        (matching_files (imports := skia.imports)
           (os.walk example2.disk_two_files "expected") "*.json")
    with
    | Some k => fs_files example2.disk_two_files !! k
    | None => None
    end.
Proof.
  apply (loader_last_file_wins (imports := skia.imports)
           example2.disk_two_files "expected" "*.json").
  vm_compute. reflexivity.
Defined.

Lemma writer_rewrites_only_matching_files_witness :
  fs_walk example2.written.2 = fs_walk example.disk ∧
  ∀ k,
    fs_files example2.written.2 !! k
    = if bool_decide
           (k ∈ matching_files (imports := skia.imports)
                  (os.walk example.disk "expected") "*.json")
         && has_dict example.expected_tree k
      then example.expected_tree !! builder_of k
      else fs_files example.disk !! k.
Proof.
  apply (writer_rewrites_only_matching_files (imports := skia.imports)
           example.expected_tree "expected" "*.json" example.disk
           example2.written.1 example2.written.2).
  apply surjective_pairing.
Defined.

Lemma writer_raises_for_a_builder_without_file_witness :
  Results._write_dicts_to_root (imports := skia.imports)
    example2.tree_with_B9 "expected" "*.json" example.disk
  = (raise KeyError,
     (foldl (write_file example2.tree_with_B9) (example.disk, [])
        (matching_files (imports := skia.imports)
           (os.walk example.disk "expected") "*.json")).1).
Proof.
  apply (writer_raises_for_a_builder_without_file (imports := skia.imports)
           example2.tree_with_B9 "expected" "*.json" example.disk "B9").
  - vm_compute. reflexivity.
  - exists example.expected_B1. apply lookup_insert_eq.
  - intros k Hk Hbuilder.
    assert (matching_files (imports := skia.imports)
              (os.walk example.disk "expected") "*.json"
            = [("expected/B1", "expected-results.json")]) as Hfiles
      by (vm_compute; reflexivity).
    rewrite Hfiles in Hk. apply list_elem_of_singleton in Hk as ->.
    vm_compute in Hbuilder. discriminate.
Defined.

Lemma edit_raises_when_a_builder_has_two_files_witness :
  ∃ e fs',
    Results.edit_expectations (imports := skia.imports) example.service
      [example.mod_A1] example2.disk_two_files
    = (inl e, fs').
Proof.
  apply (edit_raises_when_a_builder_has_two_files (imports := skia.imports)).
  assert (builder_of <$>
            expected_files (imports := skia.imports) example.service
              example2.disk_two_files
          = ["B1"; "B1"]) as -> by (vm_compute; reflexivity).
  intros [Hnotin _]%NoDup_cons. apply Hnotin. by left.
Defined.

Lemma edit_returns_witness :
  ∃ fs',
    Results.edit_expectations (imports := skia.imports) example.service
      [example.mod_A1; example.mod_A2] example.disk
    = (inr (), fs').
Proof.
  apply (edit_returns (imports := skia.imports) example.service
           [example.mod_A1; example.mod_A2] example.disk
           example.expected_tree example2.edited).
  - apply example_read_expected.
  - apply example_no_null_document.
  - apply example_one_file_per_builder.
  - vm_compute. reflexivity.
Defined.

Lemma edit_without_modification_changes_nothing_witness :
  Results.edit_expectations (imports := skia.imports) example.service []
    example.disk
  = (inr (), example.disk).
Proof.
  apply (edit_without_modification_changes_nothing (imports := skia.imports)
           example.service example.disk example.expected_tree).
  - apply example_read_expected.
  - apply example_no_null_document.
  - apply example_one_file_per_builder.
Defined.

Lemma edit_keeps_the_entries_it_does_not_name_witness :
  ∃ before after,
    Results._read_dicts_from_root (imports := skia.imports) example.disk
      (Results._expected_root example.service) "*.json"
    = inr before ∧
    Results._read_dicts_from_root (imports := skia.imports)
      example.disk_after_edit (Results._expected_root example.service)
      "*.json"
    = inr after ∧
    ∀ v, stored_expectations (imports := skia.imports) after "B1"
           "testB_565.png" = inr v ↔
         stored_expectations (imports := skia.imports) before "B1"
           "testB_565.png" = inr v.
Proof.
  apply (edit_keeps_the_entries_it_does_not_name (imports := skia.imports)
           example.service [example.mod_A1; example.mod_A2] example.disk
           example.disk_after_edit "B1" "testB_565.png").
  - vm_compute. reflexivity.
  - intros modification Hin [_ Hname].
    apply elem_of_cons in Hin as [->|Hin];
      [vm_compute in Hname; discriminate|].
    apply list_elem_of_singleton in Hin as ->.
    vm_compute in Hname. discriminate.
Defined.

Lemma new_expectations_of_a_modification_witness :
  ∃ allowed_digests,
    new_allowed_digests (imports := skia.imports) example.mod_A1
    = inr allowed_digests ∧
    (∀ k,
       example2.new_A1 !! k
       = match
           (if decide
                 (k ∈ Results.EXPECTATION_FIELDS_PASSED_THRU_VERBATIM
                        (imports := skia.imports))
            then verbatim_value (imports := skia.imports) example.mod_A1 k
            else None)
         with
         | Some v => Some v
         | None =>
             if decide
                  (k = JSONKEY_EXPECTEDRESULTS_ALLOWEDDIGESTS
                         (Imports := skia.imports))
             then Some allowed_digests else None
         end) ∧
    ∀ k v, example2.new_A1 !! k = Some v → v ≠ PNone.
Proof.
  apply (new_expectations_of_a_modification (imports := skia.imports)
           example.mod_A1 example2.new_A1).
  vm_compute. reflexivity.
Defined.

Lemma unparseable_image_name_is_fatal_witness :
  (∀ results_of_this_type st,
     Results.process_image (imports := skia.imports) example.expected_tree
       "B1" "failed" results_of_this_type "README" st
     = inl AttributeError) ∧
  ∃ e, Results.reconcile (imports := skia.imports)
         example2.actual_unparseable example.expected_tree "file://diffs" []
       = inl e.
Proof.
  apply (unparseable_image_name_is_fatal (imports := skia.imports)
           example2.actual_unparseable example.expected_tree "file://diffs"
           [] "B1" "failed" "README" (example.digest "md5" 1));
    vm_compute; reflexivity.
Defined.

Lemma empty_allowed_digests_are_fatal_witness :
  (∀ results_of_this_type st test config actual_url,
     IMAGE_FILENAME_RE_match (Imports := skia.imports) "testA_8888.png"
       = Some (test, config) →
     getitem results_of_this_type "testA_8888.png"
       = inr (example.digest "md5" 111) →
     Results._create_relative_url (imports := skia.imports)
       (example.digest "md5" 111) test = inr actual_url →
     Results.process_image (imports := skia.imports)
       example2.expected_no_digest "B1" "failed" results_of_this_type
       "testA_8888.png" st
     = inl IndexError) ∧
  ∃ e, Results.reconcile (imports := skia.imports) example.actual_tree
         example2.expected_no_digest "file://diffs" []
       = inl e.
Proof.
  apply (empty_allowed_digests_are_fatal (imports := skia.imports)
           example.actual_tree example2.expected_no_digest "file://diffs" []
           "B1" "failed" "testA_8888.png" (example.digest "md5" 111)
           example2.entry_no_digest);
    vm_compute; reflexivity.
Defined.

Lemma every_listed_image_is_accounted_for_witness :
  (∃ p, p ∈ image_pairs (Results.all_image_pairs example.reconciled_state) ∧
        reconciled (imports := skia.imports) example.actual_tree
          example.expected_tree "B1" "failed" "broken_gpu.png" p) ∨
  (∃ e, Exception_creating_ImagePair e
          ∈ Results.log example.reconciled_state ∧
        diff_failed (imports := skia.imports) example.expected_tree "B1"
          "failed" "broken_gpu.png" (example.digest "md5" 5) e).
Proof.
  apply (every_listed_image_is_accounted_for (imports := skia.imports)
           example.actual_tree example.expected_tree "file://diffs" []).
  - apply example_reconcile.
  - vm_compute. reflexivity.
Defined.

Lemma example_reconcile_log :
  Results.log example.reconciled_state
  = [ Info_generating_pixel_diffs 1 1 "B1";
      Results.no_expectations_found (imports := skia.imports) "B1" "failed"
        "broken_gpu.png";
      Exception_creating_ImagePair Exception;
      Results.no_expectations_found (imports := skia.imports) "B1" "failed"
        "testB_565.png";
      Results.no_expectations_found (imports := skia.imports) "B1" "failed"
        "testN_565.png" ].
Proof. vm_compute. reflexivity. Qed.

Lemma every_warning_is_justified_witness :
  example2.warning_B ∈ ([] : list log_record) ∨
  justified_warning (imports := skia.imports) example.actual_tree
    example.expected_tree example2.warning_B.
Proof.
  apply (every_warning_is_justified (imports := skia.imports)
           example.actual_tree example.expected_tree "file://diffs" []
           example.reconciled_state).
  - apply skia_warning_keys_apart.
  - apply example_reconcile.
  - rewrite example_reconcile_log, example_warning_B. do 3 right. by left.
  - reflexivity.
Defined.

Lemma expectations_come_from_the_first_allowed_digest_witness :
  ∃ expectations_dict : gmap string pyval,
    Results.find_expectations (imports := skia.imports)
      example2.expected_two_digests "B1" "failed" "testA_8888.png" "testA"
      example.initial_state
    = inr (Some "md5/testA/111.png", Some expectations_dict,
           example.initial_state) ∧
    ∀ field,
      expectations_dict !! field
      = if bool_decide
             (field ∈ Results.EXPECTATION_FIELDS_PASSED_THRU_VERBATIM
                        (imports := skia.imports))
        then Some (default PNone (example2.entry_two_digests !! field))
        else None.
Proof.
  apply (expectations_come_from_the_first_allowed_digest
           (imports := skia.imports) example2.expected_two_digests "B1"
           "failed" "testA_8888.png" "testA" example.initial_state
           example2.entry_two_digests (example.digest "md5" 111)
           [example.digest "md5" 999]);
    vm_compute; reflexivity.
Defined.

Lemma builders_are_processed_in_sorted_order_witness :
  let builders := sorted (keys example.actual_tree) in
  progress (Results.log example.reconciled_state)
  = progress []
    ++ imap (λ j builder,
               Info_generating_pixel_diffs (S j) (length builders) builder)
         builders ∧
  StronglySorted str_le builders ∧
  NoDup builders ∧
  ∀ builder, builder ∈ builders ↔ is_Some (example.actual_tree !! builder).
Proof.
  apply (builders_are_processed_in_sorted_order (imports := skia.imports)
           example.actual_tree example.expected_tree "file://diffs" []).
  apply example_reconcile.
Defined.

Lemma constructed_object_answers_for_both_kinds_witness :
  Results.get_timestamp example.service = 1003%Z ∧
  if bool_decide
       ("failures" = KEY__HEADER__RESULTS_ALL (Imports := skia.imports)
        ∨ "failures" = KEY__HEADER__RESULTS_FAILURES (Imports := skia.imports))
  then
    returns (Results.get_results_of_type example.service "failures") ∧
    ∀ reload_seconds is_editable is_exported,
      returns (Results.get_packaged_results_of_type (imports := skia.imports)
                 example.service "failures" reload_seconds is_editable
                 is_exported)
  else
    Results.get_results_of_type example.service "failures" = inl KeyError ∧
    ∀ reload_seconds is_editable is_exported,
      Results.get_packaged_results_of_type (imports := skia.imports)
        example.service "failures" reload_seconds is_editable is_exported
      = inl KeyError.
Proof.
  apply (constructed_object_answers_for_both_kinds (imports := skia.imports)
           example.disk "actuals" "expected" "workdir" None 1000%Z 1003%Z
           example.service example2.service_log "failures").
  vm_compute. reflexivity.
Defined.

Lemma packaging_again_replaces_the_header_witness :
  Results.get_packaged_results_of_type (imports := skia.imports)
    example.packaged.2 "failures" None false true
  = Results.get_packaged_results_of_type (imports := skia.imports)
      example.service "failures" None false true ∧
  returns (Results.get_packaged_results_of_type (imports := skia.imports)
             example.service "failures" None false true).
Proof.
  apply (packaging_again_replaces_the_header (imports := skia.imports)
           example.service "failures" (Some 60%Z) true false
           example.packaged.1 example.packaged.2 None false true).
  - discriminate.
  - vm_compute. reflexivity.
Defined.

Lemma rebaselined_image_succeeds_on_reload_witness :
  ∃ expected_builder_dicts,
    Results._read_dicts_from_root (imports := skia.imports)
      example.disk_after_edit (Results._expected_root example.service)
      "*.json"
    = inr expected_builder_dicts ∧
    ∀ actual_builder_dicts result_type p,
      actual_entry (imports := skia.imports) actual_builder_dicts "B1"
        result_type "testA_8888.png"
      = inr (PList [PStr "md5"; PInt 8]) →
      reconciled (imports := skia.imports) actual_builder_dicts
        expected_builder_dicts "B1" result_type "testA_8888.png" p →
      final_classification (imports := skia.imports) p
      = Some (PStr (KEY__RESULT_TYPE__SUCCEEDED (Imports := skia.imports))).
Proof.
  apply (rebaselined_image_succeeds_on_reload (imports := skia.imports)
           example.disk example.disk_after_edit example.service
           [example.mod_A1] example.mod_A2 [] "B1" "testA_8888.png" "md5" 8).
  - apply skia_allowed_digests_key_apart.
  - apply skia_result_type_key_apart.
  - vm_compute. reflexivity.
  - split; vm_compute; reflexivity.
  - intros later Hin. by apply elem_of_nil in Hin.
  - vm_compute. reflexivity.
Defined.

Lemma example_actual_well_formed :
  actual_well_formed (imports := skia.imports) example2.actual_small
    example.expected_tree.
Proof.
  unfold example2.actual_small.
  intros builder builder_dict [<- <-]%lookup_singleton_Some.
  exists example2.actual_results_small. split; [vm_compute; reflexivity|].
  unfold example2.actual_results_small.
  intros result_type rs [<- <-]%lookup_singleton_Some.
  right. exists example2.images_small. split; [reflexivity|].
  unfold example2.images_small.
  intros image_name v [<- <-]%lookup_singleton_Some.
  exists "testA", "8888". split; [vm_compute; reflexivity|].
  split; [exists (Some "md5/testA/111.png"); vm_compute; reflexivity|].
  intros entry Hentry. vm_compute in Hentry. injection Hentry as <-.
  eexists _, (example.digest "md5" 111), []. split; [reflexivity|].
  split; [vm_compute; reflexivity|].
  exists (Some "md5/testA/111.png"). vm_compute. reflexivity.
Qed.

Lemma reconciliation_returns_on_well_formed_trees_witness :
  returns
    (Results.reconcile (imports := skia.imports) example2.actual_small
       example.expected_tree "file://diffs" []).
Proof.
  apply (reconciliation_returns_on_well_formed_trees
           (imports := skia.imports) example2.actual_small
           example.expected_tree "file://diffs" []).
  apply example_actual_well_formed.
Defined.

